(** * Trading-simulation engine and metrics: a shallow embedding

    Source files embedded here:
    - [utils.py]     constants and the five performance metrics;
    - [optimize.py]  the four standalone runners ([momentum_algo],
                     [dynamic_momentum_algo], [reversion_algo],
                     [dynamic_reversion_algo]);
    - [backtest.py]  the two hybrid runners ([algo], [dynamic_algo]).

    Numbers.  Python floats are idealised as exact rationals ([Q], compared
    with [==]); a NaN cell of a pandas column is [None].  Infinities are not
    represented: the one place where the source would feed a non-finite
    quotient to [math.floor] is modelled as the exception that call raises.
    Square roots (Sharpe, Sortino) live in [R]. *)

From Stdlib Require Import String ZArith QArith Qround Qreals Reals List Bool Lia Lqa Lra.
From Stdlib Require Import Sorted Permutation.
Import ListNotations.

Local Open Scope Q_scope.

(** ** Exceptions and the error monad *)

Inductive exn : Type :=
| ValueError (msg : string)
| IndexError
| OverflowError.

Inductive outcome (A : Type) : Type :=
| Raise (e : exn)
| Return (v : A).

Arguments Raise {A} e.
Arguments Return {A} v.

Definition bind {A B : Type} (m : outcome A) (k : A -> outcome B) : outcome B :=
  match m with
  | Raise e => Raise e
  | Return v => k v
  end.

Notation "x <- m ;; k" := (bind m (fun x => k))
  (at level 61, m at next level, right associativity).

Definition returns {A : Type} (m : outcome A) : Prop :=
  exists v, m = Return v.

Definition raises {A : Type} (m : outcome A) : Prop :=
  exists e, m = Raise e.

(** ** Comparisons on floats, as booleans *)

Definition Qltb (x y : Q) : bool := negb (Qle_bool y x).

(** Python's [round(x, 6)] on a NumPy double: scale by [10^6], round to the
    nearest integer with ties to even, scale back. *)
Definition rint (x : Q) : Z :=
  let f := Qfloor x in
  let d := x - inject_Z f in
  if Qltb d (1 # 2) then f
  else if Qltb (1 # 2) d then (f + 1)%Z
  else if Z.even f then f else (f + 1)%Z.

Definition round6 (x : Q) : Q := inject_Z (rint (x * 1000000)) / 1000000.

(** ** utils.py: constants *)

Definition ASSET_VALUE : Q := 2 * 10 ^ 8.
Definition TAX : Q := 0.47.
Definition MARGIN_RATIO : Q := 0.175.
Definition ACCOUNT_RATIO : Q := 0.8.
Definition MULTIPLIER : Q := 10 ^ 5.

(** [price_multiplier = MULTIPLIER * MARGIN_RATIO / ACCOUNT_RATIO], the first
    local of every runner. *)
Definition price_multiplier : Q := MULTIPLIER * MARGIN_RATIO / ACCOUNT_RATIO.

(** ** Positions

    The tuple [(entry_date, pos_type, entry_price, quantity, stop_loss,
    take_profit)] appended to a holdings list.  Only the strings ['LONG'] and
    ['SHORT'] are ever stored in the second component. *)

Inductive side : Type := LONG | SHORT.

Record position : Type := mkPosition {
  entry_date : Z;
  pos_type : side;
  entry_price : Q;
  quantity : Z;
  stop_loss : Q;
  take_profit : Q
}.

Definition side_eqb (a b : side) : bool :=
  match a, b with
  | LONG, LONG | SHORT, SHORT => true
  | _, _ => false
  end.

(** Tuple equality, as [list.remove] uses it: component-wise [==]. *)
Definition position_eqb (p q : position) : bool :=
  (entry_date p =? entry_date q)%Z
  && side_eqb (pos_type p) (pos_type q)
  && Qeq_bool (entry_price p) (entry_price q)
  && (quantity p =? quantity q)%Z
  && Qeq_bool (stop_loss p) (stop_loss q)
  && Qeq_bool (take_profit p) (take_profit q).

(** [holdings.remove(position)]: drops the first element equal to
    [position].  (Python raises when there is none; [remove_present] below
    shows the exit loops never get there.) *)
Fixpoint remove (p : position) (holdings : list position) : list position :=
  match holdings with
  | [] => []
  | q :: rest => if position_eqb q p then rest else q :: remove p rest
  end.

(** ** The three phases of a bar, shared by all six runners *)

(** Body of [for position in holdings[:]]: one position of the snapshot
    against the current price and the runner's own indicator exits
    ([long_signal] closes a LONG, [short_signal] closes a SHORT). *)
Definition exit_step (cur_price : Q) (long_signal short_signal : bool)
    (acc : Q * list position) (p : position) : Q * list position :=
  let '(cash, holdings) := acc in
  match pos_type p with
  | LONG =>
      if Qle_bool (take_profit p) cur_price || Qle_bool cur_price (stop_loss p)
         || long_signal
      then (cash + (inject_Z (quantity p) * cur_price * price_multiplier
                    - inject_Z (quantity p) * TAX * MULTIPLIER),
            remove p holdings)
      else acc
  | SHORT =>
      if Qle_bool cur_price (take_profit p) || Qle_bool (stop_loss p) cur_price
         || short_signal
      then (cash - (inject_Z (quantity p) * cur_price * price_multiplier
                    + inject_Z (quantity p) * TAX * MULTIPLIER),
            remove p holdings)
      else acc
  end.

(** The loop itself iterates over the copy [holdings[:]] taken on entry. *)
Definition exit_positions (cur_price : Q) (long_signal short_signal : bool)
    (cash : Q) (holdings : list position) : Q * list position :=
  fold_left (exit_step cur_price long_signal short_signal) holdings
            (cash, holdings).

(** Signed current notional of one position. *)
Definition notional (cur_price : Q) (p : position) : Q :=
  match pos_type p with
  | LONG => cur_price * price_multiplier * inject_Z (quantity p)
  | SHORT => - cur_price * price_multiplier * inject_Z (quantity p)
  end.

(** [sum(... for pos in holdings)]: left to right from [0]. *)
Definition total_unrealized (cur_price : Q) (holdings : list position) : Q :=
  fold_left (fun acc p => acc + notional cur_price p) holdings 0.

Definition nan_msg : string := "cannot convert float NaN to integer".

(** [floor(a / b)]: a zero divisor gives NumPy's infinity, or NaN when [a]
    is zero too, and [math.floor] raises on either. *)
Definition floor_div (a b : Q) : outcome Z :=
  if Qeq_bool b 0
  then Raise (if Qeq_bool a 0 then ValueError nan_msg else OverflowError)
  else Return (Qfloor (a / b)).

(** [min(quantity, 3)] where the runner has it, the bare quantity where not. *)
Definition capped (cap : option Z) (quantity : Z) : Z :=
  match cap with
  | Some c => Z.min quantity c
  | None => quantity
  end.

(** The block under [if not holdings:].  [long_cond] and [short_cond] are the
    runner's entry signals, [short_cap] its cap on a SHORT quantity. *)
Definition open_position (date : Z) (cur_price atr atr_multiplier : Q)
    (available_cash : Q) (long_cond short_cond : bool) (short_cap : option Z)
    (cash : Q) (holdings : list position) : outcome (Q * list position) :=
  match holdings with
  | _ :: _ => Return (cash, holdings)
  | [] =>
      if long_cond then
        quantity <- floor_div available_cash (cur_price * price_multiplier) ;;
        if (0 <? quantity)%Z then
          Return (cash - inject_Z quantity * cur_price * price_multiplier,
                  holdings ++ [mkPosition date LONG cur_price quantity
                                 (cur_price - atr * atr_multiplier)
                                 (cur_price + atr * atr_multiplier)])
        else Return (cash, holdings)
      else if short_cond then
        q0 <- floor_div available_cash (cur_price * price_multiplier) ;;
        let quantity := capped short_cap q0 in
        if (0 <? quantity)%Z then
          Return (cash + inject_Z quantity * cur_price * price_multiplier,
                  holdings ++ [mkPosition date SHORT cur_price quantity
                                 (cur_price + atr * atr_multiplier)
                                 (cur_price - atr * atr_multiplier)])
        else Return (cash, holdings)
      else Return (cash, holdings)
  end.

(** ** The output table

    [trading_data]: the index with its ['Asset'] column.  [.loc[date,
    'Asset'] = v] assigns every row labelled [date]. *)

Definition asset_table : Type := list (Z * Q).

Definition loc_set (date : Z) (v : Q) (t : asset_table) : asset_table :=
  map (fun r => if (fst r =? date)%Z then (fst r, v) else r) t.

(** [Series.pct_change()]: NaN first, then [a[t] / a[t-1] - 1].  Where the
    previous value is zero pandas gives a non-finite cell; the rational model
    has none and records [None]. *)
Fixpoint pct_change_from (prev : Q) (l : list Q) : list (option Q) :=
  match l with
  | [] => []
  | a :: rest =>
      (if Qeq_bool prev 0 then None else Some (a / prev - 1))
        :: pct_change_from a rest
  end.

Definition pct_change (l : list Q) : list (option Q) :=
  match l with
  | [] => []
  | a :: rest => None :: pct_change_from a rest
  end.

(** A DataFrame with the index and the two columns the metrics read. *)
Record frame : Type := mkFrame {
  Index : list Z;
  Asset : list Q;
  Return_ : list (option Q)
}.

Definition finish (t : asset_table) : frame :=
  mkFrame (map fst t) (map snd t) (pct_change (map snd t)).

(** ** Input rows and loop states *)

(** One row of the input DataFrame (index label and OHLC columns). *)
Record ohlc : Type := mkOhlc {
  Time : Z;
  Open : Q;
  High : Q;
  Low : Q;
  Close : Q
}.

Definition dummy_row : ohlc := mkOhlc 0 0 0 0 0.

(** [data.iloc[i]] for an [i] the loop has checked to be in range. *)
Definition iloc (data : list ohlc) (i : nat) : ohlc := nth i data dummy_row.

(** A cell of an indicator column; past its end there is nothing to read. *)
Definition cell (col : list (option Q)) (i : nat) : option Q := nth i col None.

(** The locals of a standalone runner that the loop updates. *)
Record state : Type := mkState {
  cash : Q;
  holdings : list position;
  trading_data : asset_table
}.

(** The same for a hybrid runner, which keeps one list per track. *)
Record hybrid_state : Type := mkHybrid {
  h_cash : Q;
  holdings_momentum : list position;
  holdings_reversion : list position;
  h_trading_data : asset_table
}.

(** [trading_data['Asset'] = cash] before the loop. *)
Definition initial_table (data : list ohlc) : asset_table :=
  map (fun r => (Time r, ASSET_VALUE)) data.

Definition initial_state (data : list ohlc) : state :=
  mkState ASSET_VALUE [] (initial_table data).

Definition initial_hybrid (data : list ohlc) : hybrid_state :=
  mkHybrid ASSET_VALUE [] [] (initial_table data).

(** [for i in range(1, len(data))], cut after [k] iterations; an exception
    ends it. *)
Definition loop_prefix {S : Type} (body : nat -> S -> outcome S) (k : nat)
    (init : S) : outcome S :=
  fold_left (fun acc i => st <- acc ;; body i st) (seq 1 k) (Return init).

Definition run_loop {S : Type} (body : nat -> S -> outcome S) (len : nat)
    (init : S) : outcome S :=
  loop_prefix body (len - 1) init.

(** [a > b] on cells: false as soon as one side is NaN. *)
Definition cell_gt (a b : option Q) : bool :=
  match a, b with
  | Some x, Some y => Qltb y x
  | _, _ => false
  end.

(** ** optimize.py: the standalone runners *)

(** A processed bar of a standalone runner: exits, mark-to-market, entry. *)
Definition bar_body (date : Z) (cur_price atr atr_multiplier : Q)
    (long_signal short_signal long_cond short_cond : bool)
    (short_cap : option Z) (st : state) : outcome state :=
  let '(cash1, holdings1) :=
    exit_positions cur_price long_signal short_signal (cash st) (holdings st) in
  let asset_value := cash1 + total_unrealized cur_price holdings1 in
  let trading_data1 := loc_set date asset_value (trading_data st) in
  ch <- open_position date cur_price atr atr_multiplier (cash1 / 2)
          long_cond short_cond short_cap cash1 holdings1 ;;
  Return (mkState (fst ch) (snd ch) trading_data1).

(** Loop body of [momentum_algo]. *)
Definition momentum_bar (rsi_threshold : Z) (atr_multiplier : Q) (date : Z)
    (cur_price : Q) (RSI MACD_diff ATR : option Q) (st : state)
    : outcome state :=
  match RSI, MACD_diff, ATR with
  | Some rsi, Some macd, Some atr =>
      bar_body date cur_price atr atr_multiplier
        (Qle_bool (100 - inject_Z rsi_threshold) rsi || Qltb macd 0)
        (Qle_bool rsi (inject_Z rsi_threshold) || Qltb 0 macd)
        (Qltb 0 macd && (Qltb 50 rsi && Qltb rsi (100 - inject_Z rsi_threshold)))
        (Qltb macd 0 && (Qltb (inject_Z rsi_threshold) rsi && Qltb rsi 50))
        (Some 3%Z) st
  | _, _, _ => Return st
  end.

(** Loop body of [dynamic_momentum_algo]: the multiplier is picked per bar. *)
Definition dynamic_momentum_bar (rsi_threshold : Z) (date : Z) (cur_price : Q)
    (RSI MACD_diff ATR ATR_short ATR_long : option Q) (st : state)
    : outcome state :=
  match RSI, MACD_diff, ATR with
  | Some rsi, Some macd, Some atr =>
      let atr_multiplier := if cell_gt ATR_short ATR_long then 2.0 else 1.5 in
      bar_body date cur_price atr atr_multiplier
        (Qle_bool (100 - inject_Z rsi_threshold) rsi || Qltb macd 0)
        (Qle_bool rsi (inject_Z rsi_threshold) || Qltb 0 macd)
        (Qltb 0 macd && (Qltb 50 rsi && Qltb rsi (100 - inject_Z rsi_threshold)))
        (Qltb macd 0 && (Qltb (inject_Z rsi_threshold) rsi && Qltb rsi 50))
        (Some 3%Z) st
  | _, _, _ => Return st
  end.

(** Loop body of [reversion_algo]. *)
Definition reversion_bar (atr_multiplier : Q) (date : Z) (cur_price : Q)
    (RSI MACD_diff ATR : option Q) (st : state) : outcome state :=
  match RSI, MACD_diff, ATR with
  | Some rsi, Some macd, Some atr =>
      bar_body date cur_price atr atr_multiplier
        (Qle_bool 50 rsi || Qltb macd 0)
        (Qle_bool rsi 50 || Qltb 0 macd)
        (Qltb 0 macd && Qltb rsi 30)
        (Qltb macd 0 && Qltb 70 rsi)
        (Some 3%Z) st
  | _, _, _ => Return st
  end.

(** Loop body of [dynamic_reversion_algo]. *)
Definition dynamic_reversion_bar (date : Z) (cur_price : Q)
    (RSI MACD_diff ATR ATR_short ATR_long : option Q) (st : state)
    : outcome state :=
  match RSI, MACD_diff, ATR with
  | Some rsi, Some macd, Some atr =>
      let atr_multiplier := if cell_gt ATR_short ATR_long then 2.0 else 1.5 in
      bar_body date cur_price atr atr_multiplier
        (Qle_bool 50 rsi || Qltb macd 0)
        (Qle_bool rsi 50 || Qltb 0 macd)
        (Qltb 0 macd && Qltb rsi 30)
        (Qltb macd 0 && Qltb 70 rsi)
        (Some 3%Z) st
  | _, _, _ => Return st
  end.

(** ** backtest.py: the hybrid runners *)

(** A processed bar of a hybrid runner: the momentum exits, the reversion
    exits, one mark-to-market over both lists, [available_cash = cash / 2]
    taken once, then the momentum entry and the reversion entry.  The
    momentum SHORT entry has no [min(..., 3)]. *)
Definition hybrid_body (date : Z) (cur_price : Q)
    (atr_mom momentum_atr_multiplier : Q)
    (mom_long_signal mom_short_signal mom_long_cond mom_short_cond : bool)
    (atr_rev reversion_atr_multiplier : Q)
    (rev_long_signal rev_short_signal rev_long_cond rev_short_cond : bool)
    (st : hybrid_state) : outcome hybrid_state :=
  let '(cash1, mom1) :=
    exit_positions cur_price mom_long_signal mom_short_signal
                   (h_cash st) (holdings_momentum st) in
  let '(cash2, rev1) :=
    exit_positions cur_price rev_long_signal rev_short_signal
                   cash1 (holdings_reversion st) in
  let total := total_unrealized cur_price (mom1 ++ rev1) in
  let trading_data1 := loc_set date (cash2 + total) (h_trading_data st) in
  let available_cash := cash2 / 2 in
  cm <- open_position date cur_price atr_mom momentum_atr_multiplier
          available_cash mom_long_cond mom_short_cond None cash2 mom1 ;;
  cr <- open_position date cur_price atr_rev reversion_atr_multiplier
          available_cash rev_long_cond rev_short_cond (Some 3%Z)
          (fst cm) rev1 ;;
  Return (mkHybrid (fst cr) (snd cm) (snd cr) trading_data1).

(** Loop body of [algo]. *)
Definition algo_bar (momentum_rsi_threshold : Z)
    (momentum_atr_multiplier reversion_atr_multiplier : Q) (date : Z)
    (cur_price : Q) (RSI_mom MACD_diff_mom ATR_mom : option Q)
    (RSI_rev MACD_diff_rev ATR_rev : option Q) (st : hybrid_state)
    : outcome hybrid_state :=
  match RSI_mom, MACD_diff_mom, ATR_mom, RSI_rev, MACD_diff_rev, ATR_rev with
  | Some rsi_m, Some macd_m, Some atr_m, Some rsi_r, Some macd_r, Some atr_r =>
      hybrid_body date cur_price
        atr_m momentum_atr_multiplier
        (Qle_bool (100 - inject_Z momentum_rsi_threshold) rsi_m || Qltb macd_m 0)
        (Qle_bool rsi_m (inject_Z momentum_rsi_threshold) || Qltb 0 macd_m)
        (Qltb 0 macd_m
         && (Qltb 50 rsi_m && Qltb rsi_m (100 - inject_Z momentum_rsi_threshold)))
        (Qltb macd_m 0
         && (Qltb (inject_Z momentum_rsi_threshold) rsi_m && Qltb rsi_m 50))
        atr_r reversion_atr_multiplier
        (Qle_bool 50 rsi_r || Qltb macd_r 0)
        (Qle_bool 50 rsi_r || Qltb 0 macd_r)
        (Qltb 0 macd_r && Qltb rsi_r 30)
        (Qltb macd_r 0 && Qltb 70 rsi_r)
        st
  | _, _, _, _, _, _ => Return st
  end.

(** Loop body of [dynamic_algo]; both branches of the momentum comparison
    assign [2.0]. *)
Definition dynamic_algo_bar (momentum_rsi_threshold : Z) (date : Z)
    (cur_price : Q) (RSI_mom MACD_diff_mom ATR_mom : option Q)
    (ATR_mom_short ATR_mom_long : option Q)
    (RSI_rev MACD_diff_rev ATR_rev : option Q)
    (ATR_rev_short ATR_rev_long : option Q) (st : hybrid_state)
    : outcome hybrid_state :=
  match RSI_mom, MACD_diff_mom, ATR_mom, RSI_rev, MACD_diff_rev, ATR_rev with
  | Some rsi_m, Some macd_m, Some atr_m, Some rsi_r, Some macd_r, Some atr_r =>
      let momentum_atr_multiplier :=
        if cell_gt ATR_mom_short ATR_mom_long then 2.0 else 2.0 in
      let reversion_atr_multiplier :=
        if cell_gt ATR_rev_short ATR_rev_long then 2.0 else 1.5 in
      hybrid_body date cur_price
        atr_m momentum_atr_multiplier
        (Qle_bool (100 - inject_Z momentum_rsi_threshold) rsi_m || Qltb macd_m 0)
        (Qle_bool rsi_m (inject_Z momentum_rsi_threshold) || Qltb 0 macd_m)
        (Qltb 0 macd_m
         && (Qltb 50 rsi_m && Qltb rsi_m (100 - inject_Z momentum_rsi_threshold)))
        (Qltb macd_m 0
         && (Qltb (inject_Z momentum_rsi_threshold) rsi_m && Qltb rsi_m 50))
        atr_r reversion_atr_multiplier
        (Qle_bool 50 rsi_r || Qltb macd_r 0)
        (Qle_bool 50 rsi_r || Qltb 0 macd_r)
        (Qltb 0 macd_r && Qltb rsi_r 30)
        (Qltb macd_r 0 && Qltb 70 rsi_r)
        st
  | _, _, _, _, _, _ => Return st
  end.

(** ** The runners, over an indicator feed

    The [ta] library is outside the repository: its three functions are
    parameters.  [macd_diff close window_slow window_fast window_sign],
    [rsi close window] and [average_true_range high low close window] each
    give one column. *)

Section Runners.

Variable macd_diff : list Q -> Z -> Z -> Z -> list (option Q).
Variable rsi : list Q -> Z -> list (option Q).
Variable average_true_range :
  list Q -> list Q -> list Q -> Z -> list (option Q).

Definition atr_column (data : list ohlc) (window : Z) : list (option Q) :=
  average_true_range (map High data) (map Low data) (map Close data) window.

(** The loop of [momentum_algo] after [k] iterations.  The source passes
    [window_slow=fast_ema_window, window_fast=slow_ema_window]. *)
Definition momentum_loop (data : list ohlc)
    (fast_ema_window slow_ema_window ema_signal_window rsi_window : Z)
    (rsi_threshold atr_window : Z) (atr_multiplier : Q) (k : nat)
    : outcome state :=
  let MACD_diff := macd_diff (map Close data) fast_ema_window
                             slow_ema_window ema_signal_window in
  let RSI := rsi (map Close data) rsi_window in
  let ATR := atr_column data atr_window in
  loop_prefix
    (fun i => momentum_bar rsi_threshold atr_multiplier
                (Time (iloc data i)) (Close (iloc data i))
                (cell RSI i) (cell MACD_diff i) (cell ATR i))
    k (initial_state data).

Definition momentum_algo (data : list ohlc)
    (fast_ema_window slow_ema_window ema_signal_window rsi_window : Z)
    (rsi_threshold atr_window : Z) (atr_multiplier : Q) : outcome frame :=
  st <- momentum_loop data fast_ema_window slow_ema_window ema_signal_window
          rsi_window rsi_threshold atr_window atr_multiplier
          (length data - 1) ;;
  Return (finish (trading_data st)).

Definition dynamic_momentum_loop (data : list ohlc)
    (fast_ema_window slow_ema_window ema_signal_window rsi_window : Z)
    (rsi_threshold atr_window : Z) (k : nat) : outcome state :=
  let MACD_diff := macd_diff (map Close data) fast_ema_window
                             slow_ema_window ema_signal_window in
  let RSI := rsi (map Close data) rsi_window in
  let ATR := atr_column data atr_window in
  let ATR_short := atr_column data 10 in
  let ATR_long := atr_column data 50 in
  loop_prefix
    (fun i => dynamic_momentum_bar rsi_threshold
                (Time (iloc data i)) (Close (iloc data i))
                (cell RSI i) (cell MACD_diff i) (cell ATR i)
                (cell ATR_short i) (cell ATR_long i))
    k (initial_state data).

Definition dynamic_momentum_algo (data : list ohlc)
    (fast_ema_window slow_ema_window ema_signal_window rsi_window : Z)
    (rsi_threshold atr_window : Z) : outcome frame :=
  st <- dynamic_momentum_loop data fast_ema_window slow_ema_window
          ema_signal_window rsi_window rsi_threshold atr_window
          (length data - 1) ;;
  Return (finish (trading_data st)).

Definition reversion_loop (data : list ohlc)
    (fast_ema_window slow_ema_window ema_signal_window rsi_window : Z)
    (atr_window : Z) (atr_multiplier : Q) (k : nat) : outcome state :=
  let MACD_diff := macd_diff (map Close data) fast_ema_window
                             slow_ema_window ema_signal_window in
  let RSI := rsi (map Close data) rsi_window in
  let ATR := atr_column data atr_window in
  loop_prefix
    (fun i => reversion_bar atr_multiplier
                (Time (iloc data i)) (Close (iloc data i))
                (cell RSI i) (cell MACD_diff i) (cell ATR i))
    k (initial_state data).

Definition reversion_algo (data : list ohlc)
    (fast_ema_window slow_ema_window ema_signal_window rsi_window : Z)
    (atr_window : Z) (atr_multiplier : Q) : outcome frame :=
  st <- reversion_loop data fast_ema_window slow_ema_window
          ema_signal_window rsi_window atr_window atr_multiplier
          (length data - 1) ;;
  Return (finish (trading_data st)).

Definition dynamic_reversion_loop (data : list ohlc)
    (fast_ema_window slow_ema_window ema_signal_window rsi_window : Z)
    (atr_window : Z) (k : nat) : outcome state :=
  let MACD_diff := macd_diff (map Close data) fast_ema_window
                             slow_ema_window ema_signal_window in
  let RSI := rsi (map Close data) rsi_window in
  let ATR := atr_column data atr_window in
  let ATR_short := atr_column data 10 in
  let ATR_long := atr_column data 50 in
  loop_prefix
    (fun i => dynamic_reversion_bar
                (Time (iloc data i)) (Close (iloc data i))
                (cell RSI i) (cell MACD_diff i) (cell ATR i)
                (cell ATR_short i) (cell ATR_long i))
    k (initial_state data).

Definition dynamic_reversion_algo (data : list ohlc)
    (fast_ema_window slow_ema_window ema_signal_window rsi_window : Z)
    (atr_window : Z) : outcome frame :=
  st <- dynamic_reversion_loop data fast_ema_window slow_ema_window
          ema_signal_window rsi_window atr_window (length data - 1) ;;
  Return (finish (trading_data st)).

(** The thirteen strategy parameters of [algo]; [dynamic_algo] takes the
    same without the two multipliers. *)
Record hybrid_params : Type := mkParams {
  momentum_fast_ema : Z;
  momentum_slow_ema : Z;
  momentum_signal_ema : Z;
  momentum_rsi_window : Z;
  momentum_rsi_threshold : Z;
  momentum_atr_window : Z;
  momentum_atr_multiplier : Q;
  reversion_fast_ema : Z;
  reversion_slow_ema : Z;
  reversion_signal_ema : Z;
  reversion_rsi_window : Z;
  reversion_atr_window : Z;
  reversion_atr_multiplier : Q
}.

Definition algo_loop (data : list ohlc) (p : hybrid_params) (k : nat)
    : outcome hybrid_state :=
  let MACD_diff_mom := macd_diff (map Close data) (momentum_slow_ema p)
                         (momentum_fast_ema p) (momentum_signal_ema p) in
  let RSI_mom := rsi (map Close data) (momentum_rsi_window p) in
  let ATR_mom := atr_column data (momentum_atr_window p) in
  let MACD_diff_rev := macd_diff (map Close data) (reversion_slow_ema p)
                         (reversion_fast_ema p) (reversion_signal_ema p) in
  let RSI_rev := rsi (map Close data) (reversion_rsi_window p) in
  let ATR_rev := atr_column data (reversion_atr_window p) in
  loop_prefix
    (fun i => algo_bar (momentum_rsi_threshold p)
                (momentum_atr_multiplier p) (reversion_atr_multiplier p)
                (Time (iloc data i)) (Close (iloc data i))
                (cell RSI_mom i) (cell MACD_diff_mom i) (cell ATR_mom i)
                (cell RSI_rev i) (cell MACD_diff_rev i) (cell ATR_rev i))
    k (initial_hybrid data).

Definition algo (data : list ohlc) (p : hybrid_params) : outcome frame :=
  st <- algo_loop data p (length data - 1) ;;
  Return (finish (h_trading_data st)).

Definition dynamic_algo_loop (data : list ohlc) (p : hybrid_params)
    (k : nat) : outcome hybrid_state :=
  let MACD_diff_mom := macd_diff (map Close data) (momentum_slow_ema p)
                         (momentum_fast_ema p) (momentum_signal_ema p) in
  let RSI_mom := rsi (map Close data) (momentum_rsi_window p) in
  let ATR_mom := atr_column data (momentum_atr_window p) in
  let ATR_mom_short := atr_column data 10 in
  let ATR_mom_long := atr_column data 20 in
  let MACD_diff_rev := macd_diff (map Close data) (reversion_slow_ema p)
                         (reversion_fast_ema p) (reversion_signal_ema p) in
  let RSI_rev := rsi (map Close data) (reversion_rsi_window p) in
  let ATR_rev := atr_column data (reversion_atr_window p) in
  let ATR_rev_short := atr_column data 7 in
  let ATR_rev_long := atr_column data 14 in
  loop_prefix
    (fun i => dynamic_algo_bar (momentum_rsi_threshold p)
                (Time (iloc data i)) (Close (iloc data i))
                (cell RSI_mom i) (cell MACD_diff_mom i) (cell ATR_mom i)
                (cell ATR_mom_short i) (cell ATR_mom_long i)
                (cell RSI_rev i) (cell MACD_diff_rev i) (cell ATR_rev i)
                (cell ATR_rev_short i) (cell ATR_rev_long i))
    k (initial_hybrid data).

Definition dynamic_algo (data : list ohlc) (p : hybrid_params)
    : outcome frame :=
  st <- dynamic_algo_loop data p (length data - 1) ;;
  Return (finish (h_trading_data st)).

End Runners.

(** ** utils.py: the metrics *)

(** [Series.dropna()]. *)
Fixpoint dropna (col : list (option Q)) : list Q :=
  match col with
  | [] => []
  | Some v :: rest => v :: dropna rest
  | None :: rest => dropna rest
  end.

(** Built-in [max(a, b)] and [min(a, b)]: the first argument unless the
    second beats it. *)
Definition pymax (a b : Q) : Q := if Qltb a b then b else a.
Definition pymin (a b : Q) : Q := if Qltb b a then b else a.

(** [holding_period_returns].  [iloc] on an empty column raises; a zero
    initial value gives a non-finite quotient, which [round] hands back as it
    is ([None]). *)
Definition holding_period_returns (data : frame) : outcome (option Q) :=
  match Asset data with
  | [] => Raise IndexError
  | init_asset_value :: _ =>
      let cur_asset_value := last (Asset data) init_asset_value in
      if Qeq_bool init_asset_value 0 then Return None
      else Return (Some (round6 ((cur_asset_value / init_asset_value - 1) * 100)))
  end.

Definition empty_msg : string := "Period returns is empty".
Definition lost_msg : string := "All capital of the portfolio is lost".

(** [period_returns.isin([-1]).any()]. *)
Definition has_total_loss (period_returns : list Q) : bool :=
  existsb (fun v => Qeq_bool v (-1)) period_returns.

(** One turn of the loop of [maximum_drawdown] on [(cur_asset, peak, mdd)]. *)
Definition mdd_step (acc : Q * Q * Q) (val : Q) : Q * Q * Q :=
  let '(cur_asset, peak, mdd) := acc in
  let cur_asset := cur_asset * (1 + val) in
  let peak := pymax peak cur_asset in
  let mdd := pymin mdd (- (1 - cur_asset / peak)) in
  (cur_asset, peak, mdd).

Definition maximum_drawdown (data : frame) : outcome Q :=
  let period_returns := dropna (Return_ data) in
  match period_returns with
  | [] => Raise (ValueError empty_msg)
  | _ :: _ =>
      if has_total_loss period_returns then Raise (ValueError lost_msg)
      else
        let '(_, _, mdd) := fold_left mdd_step period_returns (1, 1, 0) in
        Return (round6 (mdd * 100))
  end.

(** One turn of the loop of [longest_drawdown] on
    [(cur_asset, peak, count, ldd)]. *)
Definition ldd_step (acc : Q * Q * nat * nat) (val : Q) : Q * Q * nat * nat :=
  let '(cur_asset, peak, count, ldd) := acc in
  let cur_asset := cur_asset * (1 + val) in
  if Qle_bool peak cur_asset
  then (cur_asset, cur_asset, 0%nat, Nat.max ldd count)
  else (cur_asset, peak, S count, ldd).

Definition longest_drawdown (data : frame) : outcome nat :=
  let period_returns := dropna (Return_ data) in
  match period_returns with
  | [] => Raise (ValueError empty_msg)
  | _ :: _ =>
      if has_total_loss period_returns then Raise (ValueError lost_msg)
      else
        let '(_, _, count, ldd) :=
          fold_left ldd_step period_returns (1, 1, 0%nat, 0%nat) in
        Return (Nat.max ldd count)
  end.

(** The two ratios take square roots, so they are computed in [R] on the
    images of the (rational) cells. *)

Definition default_risk_free_return : Q := 0.03093.

Section RealMetrics.

Local Open Scope R_scope.

Definition Rsum (l : list R) : R := fold_right Rplus 0 l.

(** [np.mean]. *)
Definition Rmean (l : list R) : R := Rsum l / INR (length l).

(** [round(x, 6)] again, on a real. *)
Definition rintR (x : R) : Z :=
  let f := Int_part x in
  let d := x - IZR f in
  if Rlt_dec d (1 / 2) then f
  else if Rlt_dec (1 / 2) d then (f + 1)%Z
  else if Z.even f then f else (f + 1)%Z.

Definition round6R (x : R) : R := IZR (rintR (x * 1000000)) / 1000000.

(** [np.std(x, ddof=1)]: NaN ([None]) on a single value, where it
    divides zero by zero. *)
Definition sample_std (l : list R) : option R :=
  match l with
  | [_] => None
  | _ =>
      let m := Rmean l in
      Some (sqrt (Rsum (map (fun x => (x - m) ^ 2) l) / (INR (length l) - 1)))
  end.

(** [sharpe_ratio].  [np.mean(data['Return'])] skips the NaN cells, so it
    is the mean of [period_returns]; a NaN deviation is not [== 0] and
    makes the result NaN. *)
Definition sharpe_ratio (data : frame) (risk_free_return : Q)
    : outcome (option R) :=
  let period_returns := map Q2R (dropna (Return_ data)) in
  let rf := Q2R risk_free_return in
  match period_returns with
  | [] => Raise (ValueError empty_msg)
  | _ :: _ =>
      match sample_std period_returns with
      | None => Return None
      | Some std =>
          if Req_dec_T std 0 then Return (Some 0)
          else Return (Some (round6R ((252 * Rmean period_returns - rf)
                                      / (sqrt 252 * std))))
      end
  end.

(** The list comprehension of [sortino_ratio]:
    [0 if val > risk_free_return else (val - risk_free_return) ** 2]. *)
Definition downside_term (rf val : R) : R :=
  if Rlt_dec rf val then 0 else (val - rf) ^ 2.

Definition sortino_ratio (data : frame) (risk_free_return : Q) : outcome R :=
  let period_returns := map Q2R (dropna (Return_ data)) in
  let rf := Q2R risk_free_return in
  match period_returns with
  | [] => Raise (ValueError empty_msg)
  | _ :: _ =>
      let downside_risk :=
        sqrt (Rmean (map (downside_term rf) period_returns)) in
      if Req_dec_T downside_risk 0 then Return 0
      else Return (round6R ((sqrt 252 * Rmean period_returns - rf)
                            / downside_risk))
  end.

End RealMetrics.

(** * Properties *)

(** ** Booleans and rationals *)

(** Linear arithmetic over [Q]; plain [lra] is the one over [R]. *)
Ltac qlra := Lqa.lra.

Lemma Qltb_lt (x y : Q) : Qltb x y = true <-> x < y.
Proof.
  unfold Qltb. rewrite negb_true_iff, <- not_true_iff_false, Qle_bool_iff.
  split; [apply Qnot_le_lt | apply Qlt_not_le].
Qed.

Lemma Qltb_ge (x y : Q) : Qltb x y = false <-> y <= x.
Proof.
  unfold Qltb. rewrite negb_false_iff. apply Qle_bool_iff.
Qed.

Lemma Qeq_bool_false (x y : Q) : Qeq_bool x y = false <-> ~ x == y.
Proof.
  rewrite <- not_true_iff_false, Qeq_bool_iff. tauto.
Qed.

Lemma price_multiplier_value : price_multiplier == 21875.
Proof. reflexivity. Qed.

Lemma price_multiplier_nonzero : ~ price_multiplier == 0.
Proof. rewrite price_multiplier_value. discriminate. Qed.

(** ** The drawdown loops *)

(** While every return is zero the index stays on its peak: the counter of
    [longest_drawdown] is reset on every turn. *)
Lemma ldd_flat (rs : list Q) :
  Forall (fun v => v == 0) rs ->
  forall cur_asset peak,
    peak <= cur_asset ->
    exists cur_asset' peak',
      fold_left ldd_step rs (cur_asset, peak, 0%nat, 0%nat)
      = (cur_asset', peak', 0%nat, 0%nat)
      /\ peak' <= cur_asset'.
Proof.
  induction 1 as [|v rs Hv _ IH]; intros cur_asset peak Hle; simpl.
  - now exists cur_asset, peak.
  - assert (Hstep : Qle_bool peak (cur_asset * (1 + v)) = true).
    { apply Qle_bool_iff. rewrite Hv. qlra. }
    rewrite Hstep. apply IH. apply Qle_refl.
Qed.

Lemma has_total_loss_spec (rs : list Q) :
  has_total_loss rs = true <-> exists v, In v rs /\ v == -1.
Proof.
  unfold has_total_loss. rewrite existsb_exists.
  split; intros (v & Hin & Hv); exists v; split; trivial;
    now apply Qeq_bool_iff.
Qed.

Lemma flat_no_total_loss (rs : list Q) :
  Forall (fun v => v == 0) rs -> has_total_loss rs = false.
Proof.
  intros Hall. apply not_true_iff_false. rewrite has_total_loss_spec.
  intros (v & Hin & Hv). rewrite Forall_forall in Hall.
  specialize (Hall v Hin). rewrite Hall in Hv. discriminate.
Qed.

(** C5, as the code has it: on a return series that is all zeros (and not
    empty) [longest_drawdown] returns 0, since a period that merely equals
    the peak counts as reaching it ([cur_asset >= peak]). *)
Theorem longest_drawdown_flat_is_zero (data : frame) :
  dropna (Return_ data) <> [] ->
  Forall (fun v => v == 0) (dropna (Return_ data)) ->
  longest_drawdown data = Return 0%nat.
Proof.
  intros Hne Hall. unfold longest_drawdown.
  destruct (dropna (Return_ data)) as [|v rs] eqn:E; [congruence|].
  rewrite (flat_no_total_loss _ Hall).
  destruct (ldd_flat _ Hall 1 1 (Qle_refl 1)) as (c & p & -> & _).
  reflexivity.
Qed.

Definition flat_frame : frame :=
  mkFrame [0; 1; 2; 3]%Z
          [ASSET_VALUE; ASSET_VALUE; ASSET_VALUE; ASSET_VALUE]
          (pct_change [ASSET_VALUE; ASSET_VALUE; ASSET_VALUE; ASSET_VALUE]).

Lemma longest_drawdown_flat_is_zero_witness :
  longest_drawdown flat_frame = Return 0%nat.
Proof.
  apply longest_drawdown_flat_is_zero.
  - vm_compute. discriminate.
  - vm_compute. repeat constructor.
Defined.

(** C5, as the spec states it, fails: three flat periods, result 0. *)
Lemma longest_drawdown_flat_not_full_length :
  length (dropna (Return_ flat_frame)) = 3%nat
  /\ Forall (fun v => v == 0) (dropna (Return_ flat_frame))
  /\ longest_drawdown flat_frame = Return 0%nat
  /\ longest_drawdown flat_frame
     <> Return (length (dropna (Return_ flat_frame))).
Proof.
  repeat split.
  - vm_compute. repeat constructor; reflexivity.
  - vm_compute. discriminate.
Qed.

(** ** Which metric raises what *)

Lemma returns_not_raises {A : Type} (m : outcome A) : returns m <-> ~ raises m.
Proof.
  destruct m as [e|v]; split.
  - intros (v & Hv). discriminate.
  - intros H. exfalso. apply H. now exists e.
  - intros _ (e & He). discriminate.
  - intros _. now exists v.
Qed.

Lemma maximum_drawdown_cases (data : frame) :
  match dropna (Return_ data) with
  | [] => maximum_drawdown data = Raise (ValueError empty_msg)
  | _ :: _ =>
      if has_total_loss (dropna (Return_ data))
      then maximum_drawdown data = Raise (ValueError lost_msg)
      else returns (maximum_drawdown data)
  end.
Proof.
  unfold maximum_drawdown.
  destruct (dropna (Return_ data)) as [|v rs]; [reflexivity|].
  destruct (has_total_loss (v :: rs)); [reflexivity|].
  destruct (fold_left mdd_step (v :: rs) (1, 1, 0)) as [[c p] m].
  now eexists.
Qed.

Lemma longest_drawdown_cases (data : frame) :
  match dropna (Return_ data) with
  | [] => longest_drawdown data = Raise (ValueError empty_msg)
  | _ :: _ =>
      if has_total_loss (dropna (Return_ data))
      then longest_drawdown data = Raise (ValueError lost_msg)
      else returns (longest_drawdown data)
  end.
Proof.
  unfold longest_drawdown.
  destruct (dropna (Return_ data)) as [|v rs]; [reflexivity|].
  destruct (has_total_loss (v :: rs)); [reflexivity|].
  destruct (fold_left ldd_step (v :: rs) (1, 1, 0%nat, 0%nat)) as [[[c p] n] l].
  now eexists.
Qed.

Lemma sharpe_ratio_cases (data : frame) (rf : Q) :
  match dropna (Return_ data) with
  | [] => sharpe_ratio data rf = Raise (ValueError empty_msg)
  | _ :: _ => returns (sharpe_ratio data rf)
  end.
Proof.
  unfold sharpe_ratio.
  destruct (dropna (Return_ data)) as [|v rs]; [reflexivity|].
  cbn [map]. destruct (sample_std _) as [std|]; [|now eexists].
  destruct (Req_dec_T std 0); now eexists.
Qed.

Lemma sortino_ratio_cases (data : frame) (rf : Q) :
  match dropna (Return_ data) with
  | [] => sortino_ratio data rf = Raise (ValueError empty_msg)
  | _ :: _ => returns (sortino_ratio data rf)
  end.
Proof.
  unfold sortino_ratio.
  destruct (dropna (Return_ data)) as [|v rs]; [reflexivity|].
  cbn [map]. destruct (Req_dec_T _ 0); now eexists.
Qed.

(** C6: [maximum_drawdown] and [longest_drawdown] raise exactly when the
    dropped return series is empty or holds a value equal to -1, and return
    otherwise; [sharpe_ratio] and [sortino_ratio] raise on the empty series
    only, so a -1 return makes neither of them fail. *)
Theorem drawdown_raise_iff (data : frame) (rf : Q) :
  (raises (maximum_drawdown data) <->
     dropna (Return_ data) = []
     \/ exists v, In v (dropna (Return_ data)) /\ v == -1)
  /\ (raises (longest_drawdown data) <->
        dropna (Return_ data) = []
        \/ exists v, In v (dropna (Return_ data)) /\ v == -1)
  /\ (returns (maximum_drawdown data) <-> ~ raises (maximum_drawdown data))
  /\ (returns (longest_drawdown data) <-> ~ raises (longest_drawdown data))
  /\ (raises (sharpe_ratio data rf) <-> dropna (Return_ data) = [])
  /\ (raises (sortino_ratio data rf) <-> dropna (Return_ data) = [])
  /\ sharpe_ratio data rf <> Raise (ValueError lost_msg)
  /\ sortino_ratio data rf <> Raise (ValueError lost_msg).
Proof.
  pose proof (maximum_drawdown_cases data) as Hm.
  pose proof (longest_drawdown_cases data) as Hl.
  pose proof (sharpe_ratio_cases data rf) as Hs.
  pose proof (sortino_ratio_cases data rf) as Ho.
  pose proof (has_total_loss_spec (dropna (Return_ data))) as Ht.
  split; [|split; [|split; [apply returns_not_raises
         |split; [apply returns_not_raises|]]]].
  3: destruct (dropna (Return_ data)) as [|v rs]; repeat split.
  - destruct (dropna (Return_ data)) as [|v rs].
    + rewrite Hm. split; [now left | intros _; now eexists].
    + destruct (has_total_loss (v :: rs)).
      * rewrite Hm. split; [intros _; right; now apply Ht | intros _; now eexists].
      * split.
        -- intros Hr. now apply returns_not_raises in Hm.
        -- intros [Hnil | Hex]; [discriminate|]. apply Ht in Hex. discriminate.
  - destruct (dropna (Return_ data)) as [|v rs].
    + rewrite Hl. split; [now left | intros _; now eexists].
    + destruct (has_total_loss (v :: rs)).
      * rewrite Hl. split; [intros _; right; now apply Ht | intros _; now eexists].
      * split.
        -- intros Hr. now apply returns_not_raises in Hl.
        -- intros [Hnil | Hex]; [discriminate|]. apply Ht in Hex. discriminate.
  - rewrite Hs. now eexists.
  - rewrite Ho. now eexists.
  - rewrite Hs. discriminate.
  - rewrite Ho. discriminate.
  - intros Hr. now apply returns_not_raises in Hs.
  - discriminate.
  - intros Hr. now apply returns_not_raises in Ho.
  - discriminate.
  - destruct Hs as (x & ->). discriminate.
  - destruct Ho as (x & ->). discriminate.
Qed.

(** ** Holding-period return *)

Lemma rint_comp (x y : Q) : x == y -> rint x = rint y.
Proof.
  intros H. unfold rint. rewrite (Qfloor_comp _ _ H).
  assert (Hd : x - inject_Z (Qfloor y) == y - inject_Z (Qfloor y))
    by now rewrite H.
  unfold Qltb. now rewrite !(Qleb_comp _ _ (Qeq_refl (1 # 2)) _ _ Hd),
                          !(Qleb_comp _ _ Hd _ _ (Qeq_refl (1 # 2))).
Qed.

Lemma round6_comp (x y : Q) : x == y -> round6 x = round6 y.
Proof.
  intros H. unfold round6. rewrite (rint_comp (x * 1000000) (y * 1000000));
    [reflexivity | now rewrite H].
Qed.

Lemma round6_zero : round6 0 == 0.
Proof. reflexivity. Qed.

(** [round(x, 6)] gives a whole number of millionths, at most half a
    millionth away from [x]. *)
Definition rounded_to_six (x v : Q) : Prop :=
  (exists k : Z, v == inject_Z k / 1000000)
  /\ - (1 # 2000000) <= v - x <= 1 # 2000000.

Lemma rint_nearest (x : Q) :
  - (1 # 2) <= inject_Z (rint x) - x <= 1 # 2.
Proof.
  pose proof (Qfloor_le x) as Hlo. pose proof (Qlt_floor x) as Hhi.
  rewrite inject_Z_plus in Hhi. change (inject_Z 1) with 1 in Hhi.
  unfold rint.
  destruct (Qltb (x - inject_Z (Qfloor x)) (1 # 2)) eqn:E1.
  - apply Qltb_lt in E1. split; qlra.
  - apply Qltb_ge in E1.
    destruct (Qltb (1 # 2) (x - inject_Z (Qfloor x))) eqn:E2.
    + rewrite inject_Z_plus. change (inject_Z 1) with 1. split; qlra.
    + apply Qltb_ge in E2. destruct (Z.even (Qfloor x)).
      * split; qlra.
      * rewrite inject_Z_plus. change (inject_Z 1) with 1. split; qlra.
Qed.

Lemma round6_nearest (x : Q) : rounded_to_six x (round6 x).
Proof.
  split.
  - exists (rint (x * 1000000)). reflexivity.
  - pose proof (rint_nearest (x * 1000000)) as H. unfold round6.
    set (k := inject_Z (rint (x * 1000000))) in *.
    assert (E : k / 1000000 == k * (1 # 1000000)) by (field; discriminate).
    rewrite E. split; qlra.
Qed.

(** C10: on a table with at least one asset value [holding_period_returns]
    never raises, whatever the values are.  With a non-zero initial value
    (as in every runner's output) what it returns is
    [(final / initial - 1) * 100] rounded to six decimals: a whole number
    of millionths within half a millionth of that percentage (which of
    two equally near ones is not stated; the double computation decides
    it).  On a single-row table it returns 0 while the four other metrics
    raise the empty-series error. *)
Theorem holding_period_returns_value (data : frame) (init : Q) (rest : list Q)
    (rf : Q) :
  Asset data = init :: rest ->
  ~ raises (holding_period_returns data)
  /\ (~ init == 0 ->
      exists v,
        holding_period_returns data = Return (Some v)
        /\ rounded_to_six ((last (Asset data) init / init - 1) * 100) v)
  /\ (rest = [] -> ~ init == 0 -> Return_ data = pct_change (Asset data) ->
      (exists v, holding_period_returns data = Return (Some v) /\ v == 0)
      /\ maximum_drawdown data = Raise (ValueError empty_msg)
      /\ longest_drawdown data = Raise (ValueError empty_msg)
      /\ sharpe_ratio data rf = Raise (ValueError empty_msg)
      /\ sortino_ratio data rf = Raise (ValueError empty_msg)).
Proof.
  intros HA.
  assert (Hval : ~ init == 0 ->
                 holding_period_returns data
                 = Return (Some (round6 ((last (Asset data) init / init - 1)
                                         * 100)))).
  { intros Hinit. unfold holding_period_returns. rewrite HA.
    apply Qeq_bool_false in Hinit. now rewrite Hinit. }
  split; [|split].
  - unfold holding_period_returns. rewrite HA.
    destruct (Qeq_bool init 0); intros (e & He); discriminate.
  - intros Hinit. eexists. split; [exact (Hval Hinit)|].
    apply round6_nearest.
  - intros -> Hinit HR. split.
    + eexists. split; [exact (Hval Hinit)|]. rewrite HA. cbn [last].
      rewrite (round6_comp _ 0); [apply round6_zero|]. field. exact Hinit.
    + unfold maximum_drawdown, longest_drawdown, sharpe_ratio, sortino_ratio.
      rewrite HR, HA. cbn. repeat split.
Qed.

(** An asset column that gains 10.5 % over three rows. *)
Definition gain_frame : frame :=
  finish [(0%Z, 200); (1%Z, 210); (2%Z, 221)].

Definition single_row_frame : frame :=
  finish [(0%Z, ASSET_VALUE)].

Lemma holding_period_returns_value_witness :
  (~ raises (holding_period_returns gain_frame)
   /\ exists v,
        holding_period_returns gain_frame = Return (Some v)
        /\ rounded_to_six ((221 / 200 - 1) * 100) v)
  /\ exists v,
       holding_period_returns single_row_frame = Return (Some v) /\ v == 0.
Proof.
  assert (H200 : ~ 200 == 0) by discriminate.
  assert (H0 : ~ ASSET_VALUE == 0) by discriminate.
  destruct (holding_period_returns_value gain_frame 200 [210; 221]
              default_risk_free_return eq_refl) as (H1 & H2 & _).
  destruct (holding_period_returns_value single_row_frame ASSET_VALUE []
              default_risk_free_return eq_refl) as (_ & _ & H3).
  destruct (H3 eq_refl H0 eq_refl) as (H4 & _).
  split; [|exact H4]. split; [exact H1|]. exact (H2 H200).
Defined.

(** ** Sortino ratio *)

Section SortinoFacts.

Local Open Scope R_scope.

(** The spec's formula, word for word: the downside deviation
    [sqrt(mean(min(0, r - risk_free_rate)^2))] and the ratio over it. *)
Definition spec_downside_deviation (rs : list R) (rf : R) : R :=
  sqrt (Rmean (map (fun r => (Rmin 0 (r - rf)) ^ 2) rs)).

Definition spec_sortino (rs : list R) (rf : R) : R :=
  (sqrt 252 * Rmean rs - rf) / spec_downside_deviation rs rf.

Lemma downside_term_min (rf val : R) :
  downside_term rf val = (Rmin 0 (val - rf)) ^ 2.
Proof.
  unfold downside_term, Rmin.
  destruct (Rlt_dec rf val) as [Hlt|Hge];
    destruct (Rle_dec 0 (val - rf)) as [Hle|Hnle]; try lra.
  assert (val - rf = 0) as -> by lra. lra.
Qed.

Lemma downside_risk_spec (rs : list R) (rf : R) :
  sqrt (Rmean (map (downside_term rf) rs)) = spec_downside_deviation rs rf.
Proof.
  unfold spec_downside_deviation. do 2 f_equal.
  apply map_ext. intros r. apply downside_term_min.
Qed.

(** A value rounded to six decimals is an integer number of millionths. *)
Lemma round6R_not_twelve_thirteenths (x : R) : round6R x <> -12 / 13.
Proof.
  unfold round6R. intros H.
  assert (Hk : IZR (rintR (x * 1000000) * 13) = IZR (-12000000)).
  { rewrite mult_IZR. lra. }
  apply eq_IZR in Hk. lia.
Qed.

End SortinoFacts.

Lemma sortino_ratio_nonempty (data : frame) (risk_free_return : Q) :
  dropna (Return_ data) <> [] ->
  sortino_ratio data risk_free_return
  = Return (if Req_dec_T (spec_downside_deviation
                            (map Q2R (dropna (Return_ data)))
                            (Q2R risk_free_return)) 0%R
            then 0%R
            else round6R (spec_sortino (map Q2R (dropna (Return_ data)))
                                       (Q2R risk_free_return))).
Proof.
  intros Hne. unfold sortino_ratio, spec_sortino.
  rewrite <- downside_risk_spec.
  destruct (dropna (Return_ data)) as [|v rs]; [congruence|].
  cbn [map]. now destruct (Req_dec_T _ 0%R).
Qed.

(** C7, as the code has it: on a non-empty dropped return series
    [sortino_ratio] is 0 when the downside deviation is 0 and otherwise the
    spec's ratio rounded to six decimals, every return being compared with
    the annual risk-free rate as it is; on an empty series it raises. *)
Theorem sortino_ratio_rounded (data : frame) (risk_free_return : Q) :
  (dropna (Return_ data) = [] ->
   sortino_ratio data risk_free_return = Raise (ValueError empty_msg))
  /\ (dropna (Return_ data) <> [] ->
      (spec_downside_deviation (map Q2R (dropna (Return_ data)))
                               (Q2R risk_free_return) = 0%R ->
       sortino_ratio data risk_free_return = Return 0%R)
      /\ (spec_downside_deviation (map Q2R (dropna (Return_ data)))
                                  (Q2R risk_free_return) <> 0%R ->
          sortino_ratio data risk_free_return
          = Return (round6R (spec_sortino (map Q2R (dropna (Return_ data)))
                                          (Q2R risk_free_return))))).
Proof.
  split.
  - intros Hnil. unfold sortino_ratio. now rewrite Hnil.
  - intros Hne. rewrite (sortino_ratio_nonempty _ _ Hne).
    destruct (Req_dec_T _ 0%R) as [Hz|Hnz]; split; congruence.
Qed.

(** Returns of +5% and -5% against a risk-free rate of 12%: the deviation
    is 0.13 and the unrounded ratio -12/13. *)
Definition swing_frame : frame :=
  mkFrame [0; 1; 2]%Z [100; 105; 99.75] [None; Some 0.05; Some (-0.05)].

Lemma swing_downside_deviation :
  spec_downside_deviation (map Q2R (dropna (Return_ swing_frame))) (Q2R 0.12)
  = (13 / 100)%R.
Proof.
  unfold spec_downside_deviation, Rmean, Rsum, Rmin, Q2R. cbn.
  destruct (Rle_dec _ _) as [H|H]; [exfalso; lra|].
  destruct (Rle_dec _ _) as [H'|H']; [exfalso; lra|].
  apply sqrt_lem_1; lra.
Qed.

Lemma swing_spec_sortino :
  spec_sortino (map Q2R (dropna (Return_ swing_frame))) (Q2R 0.12)
  = (-12 / 13)%R.
Proof.
  unfold spec_sortino. rewrite swing_downside_deviation.
  unfold Rmean, Rsum, Q2R. cbn. field.
Qed.

(** C7, as the spec states it, fails: the result is rounded, and -12/13 is
    not a number of millionths. *)
Lemma sortino_ratio_not_unrounded :
  dropna (Return_ swing_frame) <> []
  /\ spec_downside_deviation (map Q2R (dropna (Return_ swing_frame)))
                             (Q2R 0.12) <> 0%R
  /\ sortino_ratio swing_frame 0.12
     <> Return (spec_sortino (map Q2R (dropna (Return_ swing_frame)))
                             (Q2R 0.12)).
Proof.
  assert (Hne : dropna (Return_ swing_frame) <> []) by (cbn; discriminate).
  assert (Hdd : spec_downside_deviation
                  (map Q2R (dropna (Return_ swing_frame))) (Q2R 0.12) <> 0%R)
    by (rewrite swing_downside_deviation; lra).
  split; [exact Hne|]. split; [exact Hdd|].
  rewrite (sortino_ratio_nonempty _ _ Hne).
  destruct (Req_dec_T _ 0%R) as [Hz|_]; [contradiction|].
  rewrite swing_spec_sortino. intros H. injection H as H.
  now apply round6R_not_twelve_thirteenths in H.
Qed.

(** ** The exit loop *)

(** The exit test of one position, and the cash after closing it. *)
Definition exit_fires (cur_price : Q) (long_signal short_signal : bool)
    (p : position) : bool :=
  match pos_type p with
  | LONG => Qle_bool (take_profit p) cur_price
            || Qle_bool cur_price (stop_loss p) || long_signal
  | SHORT => Qle_bool cur_price (take_profit p)
             || Qle_bool (stop_loss p) cur_price || short_signal
  end.

Definition settle (cur_price : Q) (cash : Q) (p : position) : Q :=
  match pos_type p with
  | LONG => cash + (inject_Z (quantity p) * cur_price * price_multiplier
                    - inject_Z (quantity p) * TAX * MULTIPLIER)
  | SHORT => cash - (inject_Z (quantity p) * cur_price * price_multiplier
                     + inject_Z (quantity p) * TAX * MULTIPLIER)
  end.

Lemma exit_step_unfold cur_price ls ss cash hs p :
  exit_step cur_price ls ss (cash, hs) p
  = if exit_fires cur_price ls ss p
    then (settle cur_price cash p, remove p hs)
    else (cash, hs).
Proof.
  unfold exit_step, exit_fires, settle. now destruct (pos_type p).
Qed.

Lemma position_eqb_refl (p : position) : position_eqb p p = true.
Proof.
  unfold position_eqb.
  rewrite !Z.eqb_refl, !Qeq_bool_refl. now destruct (pos_type p).
Qed.

Lemma position_eqb_sym (p q : position) :
  position_eqb p q = position_eqb q p.
Proof.
  unfold position_eqb.
  rewrite (Z.eqb_sym (entry_date p)), (Z.eqb_sym (quantity p)),
    (Qeq_bool_comm (entry_price p)), (Qeq_bool_comm (stop_loss p)),
    (Qeq_bool_comm (take_profit p)).
  now destruct (pos_type p), (pos_type q).
Qed.

Lemma remove_length (p : position) (hs : list position) :
  (length (remove p hs) <= length hs)%nat.
Proof.
  induction hs as [|q hs IH]; simpl; [lia|].
  destruct (position_eqb q p); simpl; lia.
Qed.

Lemma exit_fold_length cur_price ls ss (snapshot : list position) :
  forall cash hs,
    (length (snd (fold_left (exit_step cur_price ls ss) snapshot (cash, hs)))
     <= length hs)%nat.
Proof.
  induction snapshot as [|p snapshot IH]; intros cash hs; cbn [fold_left];
    [simpl; lia|].
  rewrite exit_step_unfold.
  destruct (exit_fires cur_price ls ss p); [|apply IH].
  etransitivity; [apply IH | apply remove_length].
Qed.

(** Exits only remove positions. *)
Lemma exit_positions_length cur_price ls ss cash hs :
  (length (snd (exit_positions cur_price ls ss cash hs)) <= length hs)%nat.
Proof. apply exit_fold_length. Qed.

Lemma exit_positions_nil cur_price ls ss cash :
  exit_positions cur_price ls ss cash [] = (cash, []).
Proof. reflexivity. Qed.

(** A lone position: closed and settled when its test fires, kept when not. *)
Lemma exit_positions_single cur_price ls ss cash p :
  exit_positions cur_price ls ss cash [p]
  = if exit_fires cur_price ls ss p
    then (settle cur_price cash p, [])
    else (cash, [p]).
Proof.
  unfold exit_positions. cbn [fold_left]. rewrite exit_step_unfold.
  destruct (exit_fires cur_price ls ss p); [|reflexivity].
  cbn [remove]. now rewrite position_eqb_refl.
Qed.

(** [remove] always finds its argument: the positions still to be visited
    are all left in the list being emptied. *)
Fixpoint count_eq (p : position) (hs : list position) : nat :=
  match hs with
  | [] => 0
  | q :: rest => (if position_eqb q p then 1 else 0) + count_eq p rest
  end.

Lemma position_eqb_trans (p q r : position) :
  position_eqb p q = true -> position_eqb q r = true ->
  position_eqb p r = true.
Proof.
  unfold position_eqb. rewrite !andb_true_iff, !Z.eqb_eq, !Qeq_bool_iff.
  intros (((((H1 & H2) & H3) & H4) & H5) & H6)
         (((((K1 & K2) & K3) & K4) & K5) & K6).
  repeat split; try congruence; try (etransitivity; eassumption).
  destruct (pos_type p), (pos_type q), (pos_type r); easy.
Qed.

Lemma position_eqb_congr (p q r : position) :
  position_eqb p q = true -> position_eqb p r = position_eqb q r.
Proof.
  intros H. destruct (position_eqb q r) eqn:E.
  - eapply position_eqb_trans; eassumption.
  - destruct (position_eqb p r) eqn:E'; [|reflexivity].
    rewrite <- E. symmetry. eapply position_eqb_trans; [|eassumption].
    now rewrite position_eqb_sym.
Qed.

Lemma count_eq_remove_same (p : position) (hs : list position) :
  (0 < count_eq p hs)%nat -> S (count_eq p (remove p hs)) = count_eq p hs.
Proof.
  induction hs as [|q hs IH]; simpl; [lia|].
  destruct (position_eqb q p) eqn:E; simpl; [lia|].
  rewrite E. simpl. exact IH.
Qed.

Lemma count_eq_remove_other (p r : position) (hs : list position) :
  position_eqb p r = false -> count_eq r (remove p hs) = count_eq r hs.
Proof.
  intros Hpr. induction hs as [|q hs IH]; simpl; [reflexivity|].
  destruct (position_eqb q p) eqn:E; simpl.
  - rewrite (position_eqb_congr q p r E), Hpr. reflexivity.
  - now rewrite IH.
Qed.

Lemma count_eq_congr (p r : position) (hs : list position) :
  position_eqb p r = true -> count_eq r hs = count_eq p hs.
Proof.
  intros E. induction hs as [|q l IH]; simpl; [reflexivity|].
  rewrite IH. f_equal.
  rewrite (position_eqb_sym q r), (position_eqb_sym q p).
  now rewrite (position_eqb_congr p r q E).
Qed.

(** Every [remove] of the exit loop is handed a position that is in the
    list, whenever the positions still to visit are (with multiplicity). *)
Fixpoint removes_present (cur_price : Q) (ls ss : bool)
    (snapshot : list position) (acc : Q * list position) : Prop :=
  match snapshot with
  | [] => True
  | p :: rest =>
      (exit_fires cur_price ls ss p = true -> (0 < count_eq p (snd acc))%nat)
      /\ removes_present cur_price ls ss rest (exit_step cur_price ls ss acc p)
  end.

Lemma remove_present_fold cur_price ls ss (snapshot : list position) :
  forall cash hs,
    (forall r, count_eq r snapshot <= count_eq r hs)%nat ->
    removes_present cur_price ls ss snapshot (cash, hs).
Proof.
  induction snapshot as [|p rest IH]; intros cash hs Hcount; [exact I|].
  assert (Hp : (0 < count_eq p hs)%nat).
  { specialize (Hcount p). simpl in Hcount.
    rewrite position_eqb_refl in Hcount. lia. }
  split; [intros _; exact Hp|].
  rewrite exit_step_unfold.
  destruct (exit_fires cur_price ls ss p).
  - apply IH. intros r. specialize (Hcount r) as Hr. simpl in Hr.
    destruct (position_eqb p r) eqn:E.
    + rewrite (count_eq_congr p r (remove p hs) E).
      rewrite (count_eq_congr p r hs E) in Hr.
      pose proof (count_eq_remove_same p hs Hp). lia.
    + rewrite (count_eq_remove_other p r hs E). lia.
  - apply IH. intros r. specialize (Hcount r). simpl in Hcount. lia.
Qed.

Lemma remove_present cur_price ls ss cash hs :
  removes_present cur_price ls ss hs (cash, hs).
Proof. apply remove_present_fold. intros r. lia. Qed.

(** ** Mark-to-market and entries *)

Lemma unrealized_fold cur_price (hs : list position) :
  forall a,
    fold_left (fun acc p => acc + notional cur_price p) hs a
    == a + total_unrealized cur_price hs.
Proof.
  unfold total_unrealized.
  induction hs as [|p hs IH]; intros a; cbn [fold_left]; [ring|].
  rewrite (IH (a + notional cur_price p)), (IH (0 + notional cur_price p)).
  ring.
Qed.

Lemma total_unrealized_nil cur_price : total_unrealized cur_price [] = 0.
Proof. reflexivity. Qed.

Lemma total_unrealized_cons cur_price p hs :
  total_unrealized cur_price (p :: hs)
  == notional cur_price p + total_unrealized cur_price hs.
Proof.
  unfold total_unrealized at 1. cbn [fold_left].
  rewrite unrealized_fold. ring.
Qed.

Lemma total_unrealized_app cur_price hs1 hs2 :
  total_unrealized cur_price (hs1 ++ hs2)
  == total_unrealized cur_price hs1 + total_unrealized cur_price hs2.
Proof.
  induction hs1 as [|p hs1 IH]; cbn [app].
  - rewrite total_unrealized_nil. ring.
  - rewrite !total_unrealized_cons, IH. ring.
Qed.

Lemma floor_div_returns (a b : Q) :
  ~ b == 0 -> floor_div a b = Return (Qfloor (a / b)).
Proof.
  intros Hb. unfold floor_div. apply Qeq_bool_false in Hb. now rewrite Hb.
Qed.

Lemma notional_nonzero (cur_price : Q) :
  ~ cur_price == 0 -> ~ cur_price * price_multiplier == 0.
Proof.
  intros Hp H. apply Hp. rewrite price_multiplier_value in H.
  apply Qmult_integral in H. destruct H as [H|H]; [exact H | discriminate].
Qed.

(** What the entry block does, case by case. *)
Inductive entry_result (date : Z) (cur_price atr atr_multiplier : Q)
    (available_cash : Q) (short_cap : option Z) (cash : Q)
    (hs : list position) : Q * list position -> Prop :=
| entry_none :
    entry_result date cur_price atr atr_multiplier available_cash short_cap
                 cash hs (cash, hs)
| entry_long (quantity : Z) :
    hs = [] ->
    quantity = Qfloor (available_cash / (cur_price * price_multiplier)) ->
    (0 < quantity)%Z ->
    entry_result date cur_price atr atr_multiplier available_cash short_cap
                 cash hs
                 (cash - inject_Z quantity * cur_price * price_multiplier,
                  [mkPosition date LONG cur_price quantity
                     (cur_price - atr * atr_multiplier)
                     (cur_price + atr * atr_multiplier)])
| entry_short (quantity : Z) :
    hs = [] ->
    quantity = capped short_cap
                 (Qfloor (available_cash / (cur_price * price_multiplier))) ->
    (0 < quantity)%Z ->
    entry_result date cur_price atr atr_multiplier available_cash short_cap
                 cash hs
                 (cash + inject_Z quantity * cur_price * price_multiplier,
                  [mkPosition date SHORT cur_price quantity
                     (cur_price + atr * atr_multiplier)
                     (cur_price - atr * atr_multiplier)]).

Lemma open_position_result date cur_price atr atr_multiplier available_cash
    long_cond short_cond short_cap cash hs ch :
  open_position date cur_price atr atr_multiplier available_cash
                long_cond short_cond short_cap cash hs = Return ch ->
  entry_result date cur_price atr atr_multiplier available_cash short_cap
               cash hs ch.
Proof.
  unfold open_position, floor_div.
  destruct hs as [|p hs]; [|intros [= <-]; constructor].
  destruct long_cond.
  - destruct (Qeq_bool (cur_price * price_multiplier) 0); cbn [bind];
      [discriminate|].
    destruct (0 <? _)%Z eqn:Hq; intros [= <-]; [|constructor].
    apply entry_long; [reflexivity | reflexivity | now apply Z.ltb_lt].
  - destruct short_cond; [|intros [= <-]; constructor].
    destruct (Qeq_bool (cur_price * price_multiplier) 0); cbn [bind];
      [discriminate|].
    destruct (0 <? _)%Z eqn:Hq; intros [= <-]; [|constructor].
    apply entry_short; [reflexivity | reflexivity | now apply Z.ltb_lt].
Qed.

Lemma open_position_returns date cur_price atr atr_multiplier available_cash
    long_cond short_cond short_cap cash hs :
  ~ cur_price == 0 ->
  returns (open_position date cur_price atr atr_multiplier available_cash
                         long_cond short_cond short_cap cash hs).
Proof.
  intros Hp. unfold open_position.
  rewrite (floor_div_returns _ _ (notional_nonzero _ Hp)). cbn [bind].
  destruct hs; [|now eexists].
  destruct long_cond; [destruct (0 <? _)%Z; now eexists|].
  destruct short_cond; [destruct (0 <? _)%Z; now eexists|now eexists].
Qed.

(** An entry moves cash by exactly the notional it adds: cash plus
    mark-to-market at the entry price is unchanged. *)
Lemma entry_conserves date cur_price atr atr_multiplier available_cash
    short_cap cash hs ch :
  entry_result date cur_price atr atr_multiplier available_cash short_cap
               cash hs ch ->
  fst ch + total_unrealized cur_price (snd ch)
  == cash + total_unrealized cur_price hs.
Proof.
  intros [ | q -> _ _ | q -> _ _ ]; cbn [fst snd]; [reflexivity| |];
    rewrite total_unrealized_cons, total_unrealized_nil;
    unfold notional; cbn [pos_type quantity]; ring.
Qed.

Lemma entry_length date cur_price atr atr_multiplier available_cash
    short_cap cash hs ch :
  entry_result date cur_price atr atr_multiplier available_cash short_cap
               cash hs ch ->
  (length hs <= 1 -> length (snd ch) <= 1)%nat.
Proof.
  intros [ | q _ _ _ | q _ _ _ ]; cbn [snd length]; lia.
Qed.

(** ** The loop and the table, for any runner

    A runner is seen through three projections of its state (cash, every
    open position, the table) and two facts about its loop body: a bar with
    an undefined indicator leaves the state alone, a processed bar writes
    one value under its own date. *)

Lemma loop_prefix_succ {S : Type} (body : nat -> S -> outcome S) (k : nat)
    (init : S) :
  loop_prefix body (Datatypes.S k) init
  = (st <- loop_prefix body k init ;; body (Datatypes.S k) st).
Proof.
  unfold loop_prefix. rewrite seq_S, fold_left_app. reflexivity.
Qed.

Lemma loop_prefix_inv {S : Type} (body : nat -> S -> outcome S) (k : nat)
    (init st' : S) :
  loop_prefix body (Datatypes.S k) init = Return st' ->
  exists st, loop_prefix body k init = Return st
             /\ body (Datatypes.S k) st = Return st'.
Proof.
  rewrite loop_prefix_succ.
  destruct (loop_prefix body k init) as [e|st]; cbn [bind];
    [discriminate | intros H; now exists st].
Qed.

Lemma loc_set_index (date : Z) (v : Q) (t : asset_table) :
  map fst (loc_set date v t) = map fst t.
Proof.
  unfold loc_set. rewrite map_map. apply map_ext.
  intros [d a]. cbn [fst]. now destruct (d =? date)%Z.
Qed.

Lemma loc_set_nth_error (date : Z) (v : Q) (t : asset_table) (i : nat) :
  nth_error (loc_set date v t) i
  = option_map (fun r => if (fst r =? date)%Z then (fst r, v) else r)
               (nth_error t i).
Proof. unfold loc_set. apply nth_error_map. Qed.

Lemma iloc_nth_error (data : list ohlc) (i : nat) :
  (i < length data)%nat -> nth_error data i = Some (iloc data i).
Proof. intros Hi. unfold iloc. now apply nth_error_nth'. Qed.

Lemma times_differ (data : list ohlc) (i j : nat) :
  NoDup (map Time data) ->
  (i < length data)%nat -> (j < length data)%nat -> i <> j ->
  Time (iloc data i) <> Time (iloc data j).
Proof.
  intros Hnd Hi Hj Hij Heq. apply Hij.
  rewrite NoDup_nth_error in Hnd. apply Hnd.
  - now rewrite length_map.
  - rewrite !nth_error_map, (iloc_nth_error _ _ Hi), (iloc_nth_error _ _ Hj).
    cbn. now rewrite Heq.
Qed.

Section Table.

Context {S : Type}.
Variable cash_of : S -> Q.
Variable open_of : S -> list position.
Variable table_of : S -> asset_table.
Variable data : list ohlc.
Variable body : nat -> S -> outcome S.
Variable processed : nat -> bool.
Variable init : S.

Hypothesis body_skip :
  forall i st, processed i = false -> body i st = Return st.
Hypothesis body_mark :
  forall i st st',
    processed i = true -> body i st = Return st' ->
    exists v,
      table_of st' = loc_set (Time (iloc data i)) v (table_of st)
      /\ v == cash_of st' + total_unrealized (Close (iloc data i)) (open_of st').
Hypothesis init_table : table_of init = initial_table data.
Hypothesis unique_times : NoDup (map Time data).

(** The recorded value of row [i]: the initial capital until bar [i] is
    processed, cash plus mark-to-market of the state bar [i] leaves behind
    from then on. *)
Definition row_recorded (k : nat) (st_k : S) (i : nat) : Prop :=
  exists v,
    nth_error (table_of st_k) i = Some (Time (iloc data i), v)
    /\ if ((1 <=? i) && (i <=? k))%nat && processed i
       then forall st_i,
              loop_prefix body i init = Return st_i ->
              v == cash_of st_i
                   + total_unrealized (Close (iloc data i)) (open_of st_i)
       else v = ASSET_VALUE.

Lemma table_rows (k : nat) :
  forall st_k,
    (k < length data)%nat ->
    loop_prefix body k init = Return st_k ->
    forall i, (i < length data)%nat -> row_recorded k st_k i.
Proof.
  induction k as [|k IH]; intros st_k Hk Hloop i Hi.
  - injection Hloop as <-. exists ASSET_VALUE. split.
    + rewrite init_table. unfold initial_table.
      now rewrite nth_error_map, (iloc_nth_error _ _ Hi).
    + replace ((1 <=? i) && (i <=? 0))%nat with false; [reflexivity|].
      symmetry. apply andb_false_iff.
      destruct i; [now left | now right].
  - apply loop_prefix_inv in Hloop as (st & Hprev & Hbody).
    assert (Hk' : (k < length data)%nat) by lia.
    destruct (IH st Hk' Hprev i Hi) as (v & Hrow & Hv).
    destruct (processed (Datatypes.S k)) eqn:Hproc.
    + destruct (body_mark _ _ _ Hproc Hbody) as (w & Htab & Hw).
      destruct (Nat.eq_dec i (Datatypes.S k)) as [->|Hne].
      * exists w. split.
        -- rewrite Htab, loc_set_nth_error, Hrow. cbn.
           now rewrite Z.eqb_refl.
        -- rewrite Hproc, Nat.leb_refl. cbn [andb Nat.leb].
           intros st_i Hst_i.
           rewrite loop_prefix_succ, Hprev in Hst_i. cbn [bind] in Hst_i.
           rewrite Hbody in Hst_i. injection Hst_i as <-. exact Hw.
      * exists v. split.
        -- rewrite Htab, loc_set_nth_error, Hrow. cbn.
           pose proof (times_differ data i (Datatypes.S k)
                         unique_times Hi Hk Hne) as Hd.
           apply Z.eqb_neq in Hd. now rewrite Hd.
        -- replace (i <=? Datatypes.S k)%nat with (i <=? k)%nat; [exact Hv|].
           destruct (i <=? k)%nat eqn:E.
           ++ apply Nat.leb_le in E. symmetry. apply Nat.leb_le. lia.
           ++ apply Nat.leb_gt in E. symmetry. apply Nat.leb_gt. lia.
    + rewrite (body_skip _ _ Hproc) in Hbody. injection Hbody as <-.
      exists v. split; [exact Hrow|].
      destruct (Nat.eq_dec i (Datatypes.S k)) as [->|Hne].
      * rewrite Hproc, andb_false_r.
        replace (Datatypes.S k <=? k)%nat with false in Hv
          by (symmetry; apply Nat.leb_gt; lia).
        now rewrite andb_false_r in Hv.
      * replace (i <=? Datatypes.S k)%nat with (i <=? k)%nat; [exact Hv|].
        destruct (i <=? k)%nat eqn:E.
        -- apply Nat.leb_le in E. symmetry. apply Nat.leb_le. lia.
        -- apply Nat.leb_gt in E. symmetry. apply Nat.leb_gt. lia.
Qed.

(** Row 0 is never processed: it keeps the initial capital. *)
Lemma first_row_initial (k : nat) (st_k : S) :
  (k < length data)%nat ->
  loop_prefix body k init = Return st_k ->
  nth_error (table_of st_k) 0 = Some (Time (iloc data 0), ASSET_VALUE).
Proof.
  intros Hk Hloop.
  destruct (table_rows k st_k Hk Hloop 0%nat ltac:(lia)) as (v & Hrow & Hv).
  cbn in Hv. now subst v.
Qed.

End Table.

(** ** One processed bar *)

Lemma bar_body_inv date cur_price atr atr_multiplier ls ss lc sc cap st st' :
  bar_body date cur_price atr atr_multiplier ls ss lc sc cap st = Return st' ->
  exists cash1 hs1 ch,
    exit_positions cur_price ls ss (cash st) (holdings st) = (cash1, hs1)
    /\ entry_result date cur_price atr atr_multiplier (cash1 / 2) cap
                    cash1 hs1 ch
    /\ st' = mkState (fst ch) (snd ch)
               (loc_set date (cash1 + total_unrealized cur_price hs1)
                        (trading_data st)).
Proof.
  unfold bar_body.
  destruct (exit_positions cur_price ls ss (cash st) (holdings st))
    as [cash1 hs1].
  destruct (open_position _ _ _ _ _ _ _ _ _ _) as [e|ch] eqn:Hopen;
    cbn [bind]; [discriminate|].
  intros [= <-]. exists cash1, hs1, ch.
  split; [reflexivity|].
  split; [eapply open_position_result; exact Hopen|reflexivity].
Qed.

Lemma hybrid_body_inv date cur_price atr_m mult_m mls mss mlc msc
    atr_r mult_r rls rss rlc rsc st st' :
  hybrid_body date cur_price atr_m mult_m mls mss mlc msc
              atr_r mult_r rls rss rlc rsc st = Return st' ->
  exists cash1 mom1 cash2 rev1 cm cr,
    exit_positions cur_price mls mss (h_cash st) (holdings_momentum st)
    = (cash1, mom1)
    /\ exit_positions cur_price rls rss cash1 (holdings_reversion st)
       = (cash2, rev1)
    /\ entry_result date cur_price atr_m mult_m (cash2 / 2) None
                    cash2 mom1 cm
    /\ entry_result date cur_price atr_r mult_r (cash2 / 2) (Some 3%Z)
                    (fst cm) rev1 cr
    /\ st' = mkHybrid (fst cr) (snd cm) (snd cr)
               (loc_set date
                        (cash2 + total_unrealized cur_price (mom1 ++ rev1))
                        (h_trading_data st)).
Proof.
  unfold hybrid_body.
  destruct (exit_positions cur_price mls mss _ _) as [cash1 mom1] eqn:E1.
  destruct (exit_positions cur_price rls rss _ _) as [cash2 rev1] eqn:E2.
  destruct (open_position _ _ atr_m _ _ _ _ _ _ _) as [e|cm] eqn:Hm;
    cbn [bind]; [discriminate|].
  destruct (open_position _ _ atr_r _ _ _ _ _ _ _) as [e|cr] eqn:Hr;
    cbn [bind]; [discriminate|].
  intros [= <-]. exists cash1, mom1, cash2, rev1, cm, cr.
  split; [reflexivity|]. split; [exact E2|].
  split; [eapply open_position_result; exact Hm|].
  split; [eapply open_position_result; exact Hr|reflexivity].
Qed.

Lemma bar_body_returns date cur_price atr atr_multiplier ls ss lc sc cap st :
  ~ cur_price == 0 ->
  returns (bar_body date cur_price atr atr_multiplier ls ss lc sc cap st).
Proof.
  intros Hp. unfold bar_body.
  destruct (exit_positions cur_price ls ss (cash st) (holdings st))
    as [cash1 hs1].
  destruct (open_position_returns date cur_price atr atr_multiplier
              (cash1 / 2) lc sc cap cash1 hs1 Hp) as (ch & ->).
  cbn [bind]. now eexists.
Qed.

Lemma hybrid_body_returns date cur_price atr_m mult_m mls mss mlc msc
    atr_r mult_r rls rss rlc rsc st :
  ~ cur_price == 0 ->
  returns (hybrid_body date cur_price atr_m mult_m mls mss mlc msc
                       atr_r mult_r rls rss rlc rsc st).
Proof.
  intros Hp. unfold hybrid_body.
  destruct (exit_positions cur_price mls mss _ _) as [cash1 mom1].
  destruct (exit_positions cur_price rls rss _ _) as [cash2 rev1].
  destruct (open_position_returns date cur_price atr_m mult_m
              (cash2 / 2) mlc msc None cash2 mom1 Hp) as (cm & ->).
  cbn [bind].
  destruct (open_position_returns date cur_price atr_r mult_r
              (cash2 / 2) rlc rsc (Some 3%Z) (fst cm) rev1 Hp) as (cr & ->).
  cbn [bind]. now eexists.
Qed.

(** The value a processed bar writes is cash plus mark-to-market, both of
    the state after the exits (where the source computes it) and of the
    state the bar ends in. *)
Lemma bar_body_mark date cur_price atr atr_multiplier ls ss lc sc cap st st' :
  bar_body date cur_price atr atr_multiplier ls ss lc sc cap st = Return st' ->
  exists v,
    trading_data st' = loc_set date v (trading_data st)
    /\ v = fst (exit_positions cur_price ls ss (cash st) (holdings st))
           + total_unrealized cur_price
               (snd (exit_positions cur_price ls ss (cash st) (holdings st)))
    /\ v == cash st' + total_unrealized cur_price (holdings st').
Proof.
  intros H. apply bar_body_inv in H as (cash1 & hs1 & ch & -> & Hent & ->).
  eexists. split; [reflexivity|]. split; [reflexivity|]. cbn [cash holdings fst snd].
  symmetry. eapply entry_conserves. exact Hent.
Qed.

Lemma hybrid_body_mark date cur_price atr_m mult_m mls mss mlc msc
    atr_r mult_r rls rss rlc rsc st st' :
  hybrid_body date cur_price atr_m mult_m mls mss mlc msc
              atr_r mult_r rls rss rlc rsc st = Return st' ->
  exists v,
    h_trading_data st' = loc_set date v (h_trading_data st)
    /\ v == h_cash st'
            + total_unrealized cur_price
                (holdings_momentum st' ++ holdings_reversion st').
Proof.
  intros H.
  apply hybrid_body_inv in H
    as (cash1 & mom1 & cash2 & rev1 & cm & cr & _ & _ & Hm & Hr & ->).
  eexists. split; [reflexivity|].
  cbn [h_cash holdings_momentum holdings_reversion].
  pose proof (entry_conserves _ _ _ _ _ _ _ _ _ Hm) as Em.
  pose proof (entry_conserves _ _ _ _ _ _ _ _ _ Hr) as Er.
  rewrite !total_unrealized_app. qlra.
Qed.

(** The value itself, as the source computes it between exits and entries:
    the cash the exits leave plus the mark-to-market of what they leave. *)
Lemma bar_body_recorded date cur_price atr mult ls ss lc sc cap st st' :
  bar_body date cur_price atr mult ls ss lc sc cap st = Return st' ->
  trading_data st'
  = loc_set date
      (fst (exit_positions cur_price ls ss (cash st) (holdings st))
       + total_unrealized cur_price
           (snd (exit_positions cur_price ls ss (cash st) (holdings st))))
      (trading_data st).
Proof.
  intros H. apply bar_body_inv in H as (cash1 & hs1 & ch & -> & _ & ->).
  reflexivity.
Qed.

Lemma hybrid_body_recorded date cur_price atr_m mult_m mls mss mlc msc
    atr_r mult_r rls rss rlc rsc st st' :
  hybrid_body date cur_price atr_m mult_m mls mss mlc msc
              atr_r mult_r rls rss rlc rsc st = Return st' ->
  h_trading_data st'
  = loc_set date
      (fst (exit_positions cur_price rls rss
              (fst (exit_positions cur_price mls mss (h_cash st)
                                   (holdings_momentum st)))
              (holdings_reversion st))
       + total_unrealized cur_price
           (snd (exit_positions cur_price mls mss (h_cash st)
                                (holdings_momentum st))
            ++ snd (exit_positions cur_price rls rss
                      (fst (exit_positions cur_price mls mss (h_cash st)
                                           (holdings_momentum st)))
                      (holdings_reversion st))))
      (h_trading_data st).
Proof.
  intros H.
  apply hybrid_body_inv in H
    as (cash1 & mom1 & cash2 & rev1 & cm & cr & -> & E2 & _ & _ & ->).
  cbn [fst snd]. rewrite E2. reflexivity.
Qed.

(** ** The shape of the six loop bodies *)

Definition defined (c : option Q) : bool :=
  match c with
  | Some _ => true
  | None => false
  end.

(** The [pd.isna] test of a standalone runner and of a hybrid runner. *)
Definition processed3 (RSI MACD_diff ATR : option Q) : bool :=
  defined RSI && defined MACD_diff && defined ATR.

Definition processed6 (RSI_mom MACD_diff_mom ATR_mom : option Q)
    (RSI_rev MACD_diff_rev ATR_rev : option Q) : bool :=
  processed3 RSI_mom MACD_diff_mom ATR_mom
  && processed3 RSI_rev MACD_diff_rev ATR_rev.

(** A standalone loop body either skips the bar or runs [bar_body] with a
    cap of 3 on the SHORT quantity. *)
Definition standalone_bar (f : state -> outcome state) (date : Z)
    (cur_price : Q) (proc : bool) : Prop :=
  if proc
  then exists atr mult ls ss lc sc,
      forall st, f st = bar_body date cur_price atr mult ls ss lc sc
                                 (Some 3%Z) st
  else forall st, f st = Return st.

Definition hybrid_bar (f : hybrid_state -> outcome hybrid_state) (date : Z)
    (cur_price : Q) (proc : bool) : Prop :=
  if proc
  then exists atr_m mult_m mls mss mlc msc atr_r mult_r rls rss rlc rsc,
      forall st, f st = hybrid_body date cur_price
                          atr_m mult_m mls mss mlc msc
                          atr_r mult_r rls rss rlc rsc st
  else forall st, f st = Return st.

Ltac bar_shape :=
  repeat match goal with
         | c : option Q |- _ => destruct c as [?|]
         end;
  cbn; try (intros; reflexivity); repeat eexists.

Lemma momentum_bar_shape thr mult date cur_price RSI MACD_diff ATR :
  standalone_bar (momentum_bar thr mult date cur_price RSI MACD_diff ATR)
                 date cur_price (processed3 RSI MACD_diff ATR).
Proof. unfold standalone_bar, processed3, momentum_bar. bar_shape. Qed.

Lemma dynamic_momentum_bar_shape thr date cur_price RSI MACD_diff ATR
    ATR_short ATR_long :
  standalone_bar (dynamic_momentum_bar thr date cur_price RSI MACD_diff ATR
                                       ATR_short ATR_long)
                 date cur_price (processed3 RSI MACD_diff ATR).
Proof.
  unfold standalone_bar, processed3, dynamic_momentum_bar.
  destruct RSI, MACD_diff, ATR; cbn; try (intros; reflexivity).
  repeat eexists.
Qed.

Lemma reversion_bar_shape mult date cur_price RSI MACD_diff ATR :
  standalone_bar (reversion_bar mult date cur_price RSI MACD_diff ATR)
                 date cur_price (processed3 RSI MACD_diff ATR).
Proof. unfold standalone_bar, processed3, reversion_bar. bar_shape. Qed.

Lemma dynamic_reversion_bar_shape date cur_price RSI MACD_diff ATR
    ATR_short ATR_long :
  standalone_bar (dynamic_reversion_bar date cur_price RSI MACD_diff ATR
                                        ATR_short ATR_long)
                 date cur_price (processed3 RSI MACD_diff ATR).
Proof.
  unfold standalone_bar, processed3, dynamic_reversion_bar.
  destruct RSI, MACD_diff, ATR; cbn; try (intros; reflexivity).
  repeat eexists.
Qed.

Lemma algo_bar_shape thr mult_m mult_r date cur_price
    RSI_mom MACD_diff_mom ATR_mom RSI_rev MACD_diff_rev ATR_rev :
  hybrid_bar (algo_bar thr mult_m mult_r date cur_price
                       RSI_mom MACD_diff_mom ATR_mom
                       RSI_rev MACD_diff_rev ATR_rev)
             date cur_price
             (processed6 RSI_mom MACD_diff_mom ATR_mom
                         RSI_rev MACD_diff_rev ATR_rev).
Proof. unfold hybrid_bar, processed6, processed3, algo_bar. bar_shape. Qed.

Lemma dynamic_algo_bar_shape thr date cur_price
    RSI_mom MACD_diff_mom ATR_mom ATR_mom_short ATR_mom_long
    RSI_rev MACD_diff_rev ATR_rev ATR_rev_short ATR_rev_long :
  hybrid_bar (dynamic_algo_bar thr date cur_price
                RSI_mom MACD_diff_mom ATR_mom ATR_mom_short ATR_mom_long
                RSI_rev MACD_diff_rev ATR_rev ATR_rev_short ATR_rev_long)
             date cur_price
             (processed6 RSI_mom MACD_diff_mom ATR_mom
                         RSI_rev MACD_diff_rev ATR_rev).
Proof.
  unfold hybrid_bar, processed6, processed3, dynamic_algo_bar.
  destruct RSI_mom, MACD_diff_mom, ATR_mom, RSI_rev, MACD_diff_rev, ATR_rev;
    cbn; try (intros; reflexivity).
  repeat eexists.
Qed.

(** ** Loops of standalone runners *)

Section StandaloneLoop.

Variable data : list ohlc.
Variable body : nat -> state -> outcome state.
Variable processed : nat -> bool.

Hypothesis shape :
  forall i, standalone_bar (body i) (Time (iloc data i))
                           (Close (iloc data i)) (processed i).

Lemma standalone_skip i st : processed i = false -> body i st = Return st.
Proof.
  intros Hp. pose proof (shape i) as Hs. unfold standalone_bar in Hs.
  rewrite Hp in Hs. apply Hs.
Qed.

Lemma standalone_mark i st st' :
  processed i = true -> body i st = Return st' ->
  exists v,
    trading_data st' = loc_set (Time (iloc data i)) v (trading_data st)
    /\ v == cash st' + total_unrealized (Close (iloc data i)) (holdings st').
Proof.
  intros Hp Hb. pose proof (shape i) as Hs. unfold standalone_bar in Hs.
  rewrite Hp in Hs. destruct Hs as (atr & mult & ls & ss & lc & sc & Hs).
  rewrite Hs in Hb. apply bar_body_mark in Hb as (v & Ht & _ & Hv).
  now exists v.
Qed.

Lemma standalone_step_one_position i st st' :
  body i st = Return st' ->
  (length (holdings st) <= 1 -> length (holdings st') <= 1)%nat.
Proof.
  intros Hb Hlen. pose proof (shape i) as Hs. unfold standalone_bar in Hs.
  destruct (processed i).
  - destruct Hs as (atr & mult & ls & ss & lc & sc & Hs).
    rewrite Hs in Hb.
    apply bar_body_inv in Hb as (cash1 & hs1 & ch & Hex & Hent & ->).
    cbn [holdings]. eapply entry_length; [exact Hent|].
    pose proof (exit_positions_length (Close (iloc data i)) ls ss
                  (cash st) (holdings st)) as Hx.
    rewrite Hex in Hx. cbn [snd] in Hx. lia.
  - rewrite Hs in Hb. now injection Hb as <-.
Qed.

(** At most one open position after any number of bars. *)
Lemma standalone_one_position (k : nat) :
  forall st,
    loop_prefix body k (initial_state data) = Return st ->
    (length (holdings st) <= 1)%nat.
Proof.
  induction k as [|k IH]; intros st Hloop.
  - injection Hloop as <-. cbn. lia.
  - apply loop_prefix_inv in Hloop as (st0 & Hprev & Hbody).
    eapply standalone_step_one_position; [exact Hbody | now apply IH].
Qed.

(** With non-zero prices the loop runs to its end. *)
Lemma standalone_returns (k : nat) :
  (forall i, (1 <= i <= k)%nat -> ~ Close (iloc data i) == 0) ->
  returns (loop_prefix body k (initial_state data)).
Proof.
  induction k as [|k IH]; intros Hprice.
  - now eexists.
  - destruct IH as (st & Hst); [intros i Hi; apply Hprice; lia|].
    rewrite loop_prefix_succ, Hst. cbn [bind].
    pose proof (shape (S k)) as Hs. unfold standalone_bar in Hs.
    destruct (processed (S k)).
    + destruct Hs as (atr & mult & ls & ss & lc & sc & Hs). rewrite Hs.
      apply bar_body_returns. apply Hprice. lia.
    + rewrite Hs. now eexists.
Qed.

(** Every row of the table after [k] bars. *)
Lemma standalone_table (k : nat) (st_k : state) (i : nat) :
  NoDup (map Time data) ->
  (k < length data)%nat ->
  loop_prefix body k (initial_state data) = Return st_k ->
  (i < length data)%nat ->
  row_recorded cash holdings trading_data data body processed
               (initial_state data) k st_k i.
Proof.
  intros Hnd Hk Hloop Hi.
  eapply table_rows; eauto using standalone_skip, standalone_mark.
Qed.

Lemma standalone_first_row (k : nat) (st_k : state) :
  NoDup (map Time data) ->
  (k < length data)%nat ->
  loop_prefix body k (initial_state data) = Return st_k ->
  nth_error (trading_data st_k) 0 = Some (Time (iloc data 0), ASSET_VALUE).
Proof.
  intros Hnd Hk Hloop.
  eapply (first_row_initial cash holdings);
    eauto using standalone_skip, standalone_mark.
  reflexivity.
Qed.

End StandaloneLoop.

(** ** Loops of hybrid runners *)

Definition hybrid_open (st : hybrid_state) : list position :=
  holdings_momentum st ++ holdings_reversion st.

Section HybridLoop.

Variable data : list ohlc.
Variable body : nat -> hybrid_state -> outcome hybrid_state.
Variable processed : nat -> bool.

Hypothesis shape :
  forall i, hybrid_bar (body i) (Time (iloc data i))
                       (Close (iloc data i)) (processed i).

Lemma hybrid_skip i st : processed i = false -> body i st = Return st.
Proof.
  intros Hp. pose proof (shape i) as Hs. unfold hybrid_bar in Hs.
  rewrite Hp in Hs. apply Hs.
Qed.

Lemma hybrid_mark i st st' :
  processed i = true -> body i st = Return st' ->
  exists v,
    h_trading_data st' = loc_set (Time (iloc data i)) v (h_trading_data st)
    /\ v == h_cash st'
            + total_unrealized (Close (iloc data i)) (hybrid_open st').
Proof.
  intros Hp Hb. pose proof (shape i) as Hs. unfold hybrid_bar in Hs.
  rewrite Hp in Hs.
  destruct Hs as (a1 & m1 & b1 & b2 & b3 & b4 & a2 & m2 & b5 & b6 & b7 & b8
                  & Hs).
  rewrite Hs in Hb. now apply hybrid_body_mark in Hb.
Qed.

Lemma hybrid_step_one_position i st st' :
  body i st = Return st' ->
  (length (holdings_momentum st) <= 1
   /\ length (holdings_reversion st) <= 1 ->
   length (holdings_momentum st') <= 1
   /\ length (holdings_reversion st') <= 1)%nat.
Proof.
  intros Hb (Hm & Hr). pose proof (shape i) as Hs. unfold hybrid_bar in Hs.
  destruct (processed i).
  - destruct Hs as (a1 & m1 & b1 & b2 & b3 & b4 & a2 & m2 & b5 & b6 & b7 & b8
                    & Hs).
    rewrite Hs in Hb.
    apply hybrid_body_inv in Hb
      as (cash1 & mom1 & cash2 & rev1 & cm & cr & E1 & E2 & Hem & Her & ->).
    cbn [holdings_momentum holdings_reversion].
    pose proof (exit_positions_length (Close (iloc data i)) b1 b2
                  (h_cash st) (holdings_momentum st)) as X1.
    pose proof (exit_positions_length (Close (iloc data i)) b5 b6
                  cash1 (holdings_reversion st)) as X2.
    rewrite E1 in X1. rewrite E2 in X2. cbn [snd] in X1, X2.
    split; (eapply entry_length; [eassumption | lia]).
  - rewrite Hs in Hb. injection Hb as <-. now split.
Qed.

Lemma hybrid_one_position (k : nat) :
  forall st,
    loop_prefix body k (initial_hybrid data) = Return st ->
    (length (holdings_momentum st) <= 1
     /\ length (holdings_reversion st) <= 1)%nat.
Proof.
  induction k as [|k IH]; intros st Hloop.
  - injection Hloop as <-. cbn. lia.
  - apply loop_prefix_inv in Hloop as (st0 & Hprev & Hbody).
    eapply hybrid_step_one_position; [exact Hbody | now apply IH].
Qed.

Lemma hybrid_returns (k : nat) :
  (forall i, (1 <= i <= k)%nat -> ~ Close (iloc data i) == 0) ->
  returns (loop_prefix body k (initial_hybrid data)).
Proof.
  induction k as [|k IH]; intros Hprice.
  - now eexists.
  - destruct IH as (st & Hst); [intros i Hi; apply Hprice; lia|].
    rewrite loop_prefix_succ, Hst. cbn [bind].
    pose proof (shape (S k)) as Hs. unfold hybrid_bar in Hs.
    destruct (processed (S k)).
    + destruct Hs as (a1 & m1 & b1 & b2 & b3 & b4 & a2 & m2
                      & b5 & b6 & b7 & b8 & Hs).
      rewrite Hs. apply hybrid_body_returns. apply Hprice. lia.
    + rewrite Hs. now eexists.
Qed.

Lemma hybrid_table (k : nat) (st_k : hybrid_state) (i : nat) :
  NoDup (map Time data) ->
  (k < length data)%nat ->
  loop_prefix body k (initial_hybrid data) = Return st_k ->
  (i < length data)%nat ->
  row_recorded h_cash hybrid_open h_trading_data data body processed
               (initial_hybrid data) k st_k i.
Proof.
  intros Hnd Hk Hloop Hi.
  eapply table_rows; eauto using hybrid_skip, hybrid_mark.
Qed.

Lemma hybrid_first_row (k : nat) (st_k : hybrid_state) :
  NoDup (map Time data) ->
  (k < length data)%nat ->
  loop_prefix body k (initial_hybrid data) = Return st_k ->
  nth_error (h_trading_data st_k) 0 = Some (Time (iloc data 0), ASSET_VALUE).
Proof.
  intros Hnd Hk Hloop.
  eapply (first_row_initial h_cash hybrid_open);
    eauto using hybrid_skip, hybrid_mark.
  reflexivity.
Qed.

End HybridLoop.

(** ** The six runners *)

(** A property of every state the loop reaches. *)
Definition always {S : Type} (P : S -> Prop) (loop : nat -> outcome S)
  : Prop :=
  forall k st, loop k = Return st -> P st.

Definition one_position (st : state) : Prop :=
  (length (holdings st) <= 1)%nat.

Definition one_position_per_track (st : hybrid_state) : Prop :=
  (length (holdings_momentum st) <= 1)%nat
  /\ (length (holdings_reversion st) <= 1)%nat.

Section RunnerFacts.

Variable macd_diff : list Q -> Z -> Z -> Z -> list (option Q).
Variable rsi : list Q -> Z -> list (option Q).
Variable average_true_range :
  list Q -> list Q -> list Q -> Z -> list (option Q).

Variable data : list ohlc.
Variables fast_ema_window slow_ema_window ema_signal_window : Z.
Variables rsi_window rsi_threshold atr_window : Z.
Variable atr_multiplier : Q.
Variable p : hybrid_params.

Let momentum_run :=
  momentum_loop macd_diff rsi average_true_range data fast_ema_window
    slow_ema_window ema_signal_window rsi_window rsi_threshold atr_window
    atr_multiplier.
Let dynamic_momentum_run :=
  dynamic_momentum_loop macd_diff rsi average_true_range data
    fast_ema_window slow_ema_window ema_signal_window rsi_window
    rsi_threshold atr_window.
Let reversion_run :=
  reversion_loop macd_diff rsi average_true_range data fast_ema_window
    slow_ema_window ema_signal_window rsi_window atr_window atr_multiplier.
Let dynamic_reversion_run :=
  dynamic_reversion_loop macd_diff rsi average_true_range data
    fast_ema_window slow_ema_window ema_signal_window rsi_window atr_window.
Let algo_run := algo_loop macd_diff rsi average_true_range data p.
Let dynamic_algo_run :=
  dynamic_algo_loop macd_diff rsi average_true_range data p.

Lemma runners_one_position :
  always one_position momentum_run
  /\ always one_position dynamic_momentum_run
  /\ always one_position reversion_run
  /\ always one_position dynamic_reversion_run
  /\ always one_position_per_track algo_run
  /\ always one_position_per_track dynamic_algo_run.
Proof.
  unfold always, one_position, one_position_per_track.
  split; [|split; [|split; [|split; [|split]]]]; intros k st Hloop.
  - eapply standalone_one_position; [|exact Hloop].
    intros i. apply momentum_bar_shape.
  - eapply standalone_one_position; [|exact Hloop].
    intros i. apply dynamic_momentum_bar_shape.
  - eapply standalone_one_position; [|exact Hloop].
    intros i. apply reversion_bar_shape.
  - eapply standalone_one_position; [|exact Hloop].
    intros i. apply dynamic_reversion_bar_shape.
  - eapply hybrid_one_position; [|exact Hloop].
    intros i. apply algo_bar_shape.
  - eapply hybrid_one_position; [|exact Hloop].
    intros i. apply dynamic_algo_bar_shape.
Qed.

(** No runner raises on a table whose closing prices are not zero. *)
Lemma runners_return (k : nat) :
  (forall i, (1 <= i <= k)%nat -> ~ Close (iloc data i) == 0) ->
  returns (momentum_run k)
  /\ returns (dynamic_momentum_run k)
  /\ returns (reversion_run k)
  /\ returns (dynamic_reversion_run k)
  /\ returns (algo_run k)
  /\ returns (dynamic_algo_run k).
Proof.
  intros Hprice. repeat split.
  - eapply standalone_returns; [|exact Hprice].
    intros i. apply momentum_bar_shape.
  - eapply standalone_returns; [|exact Hprice].
    intros i. apply dynamic_momentum_bar_shape.
  - eapply standalone_returns; [|exact Hprice].
    intros i. apply reversion_bar_shape.
  - eapply standalone_returns; [|exact Hprice].
    intros i. apply dynamic_reversion_bar_shape.
  - eapply hybrid_returns; [|exact Hprice].
    intros i. apply algo_bar_shape.
  - eapply hybrid_returns; [|exact Hprice].
    intros i. apply dynamic_algo_bar_shape.
Qed.

End RunnerFacts.

(** ** Entries, case by case *)

Definition long_position (date : Z) (cur_price : Q) (quantity : Z)
    (atr atr_multiplier : Q) : position :=
  mkPosition date LONG cur_price quantity
             (cur_price - atr * atr_multiplier)
             (cur_price + atr * atr_multiplier).

Definition short_position (date : Z) (cur_price : Q) (quantity : Z)
    (atr atr_multiplier : Q) : position :=
  mkPosition date SHORT cur_price quantity
             (cur_price + atr * atr_multiplier)
             (cur_price - atr * atr_multiplier).

Lemma open_position_long date cur_price atr mult available_cash sc cap cash :
  ~ cur_price == 0 ->
  (0 < Qfloor (available_cash / (cur_price * price_multiplier)))%Z ->
  open_position date cur_price atr mult available_cash true sc cap cash []
  = Return
      (cash - inject_Z (Qfloor (available_cash / (cur_price * price_multiplier)))
              * cur_price * price_multiplier,
       [long_position date cur_price
          (Qfloor (available_cash / (cur_price * price_multiplier)))
          atr mult]).
Proof.
  intros Hp Hq. unfold open_position.
  rewrite (floor_div_returns _ _ (notional_nonzero _ Hp)). cbn [bind].
  apply Z.ltb_lt in Hq. now rewrite Hq.
Qed.

Lemma open_position_short date cur_price atr mult available_cash cap cash :
  ~ cur_price == 0 ->
  (0 < capped cap (Qfloor (available_cash / (cur_price * price_multiplier))))%Z ->
  open_position date cur_price atr mult available_cash false true cap cash []
  = Return
      (cash + inject_Z (capped cap (Qfloor (available_cash
                                            / (cur_price * price_multiplier))))
              * cur_price * price_multiplier,
       [short_position date cur_price
          (capped cap (Qfloor (available_cash
                               / (cur_price * price_multiplier))))
          atr mult]).
Proof.
  intros Hp Hq. unfold open_position.
  rewrite (floor_div_returns _ _ (notional_nonzero _ Hp)). cbn [bind].
  apply Z.ltb_lt in Hq. now rewrite Hq.
Qed.

Lemma open_position_idle date cur_price atr mult available_cash cap cash hs :
  open_position date cur_price atr mult available_cash false false cap cash hs
  = Return (cash, hs).
Proof. unfold open_position. now destruct hs. Qed.

(** The gate [if not holdings:]. *)
Lemma open_position_gated date cur_price atr mult available_cash lc sc cap
    cash hs :
  hs <> [] ->
  open_position date cur_price atr mult available_cash lc sc cap cash hs
  = Return (cash, hs).
Proof. unfold open_position. destruct hs; [congruence | reflexivity]. Qed.

(** ** Profit and loss of an open LONG *)

(** Projections of a state just built, and [bind] on a returned value. *)
Ltac state_simpl :=
  cbn [cash holdings trading_data h_cash holdings_momentum
       holdings_reversion h_trading_data fst snd bind].
Tactic Notation "state_simpl" "in" hyp(H) :=
  cbn [cash holdings trading_data h_cash holdings_momentum
       holdings_reversion h_trading_data fst snd bind] in H.

Lemma Return_inj {A : Type} (a b : A) : Return a = Return b -> a = b.
Proof. now intros [= ->]. Qed.

Lemma pair_inj {A B : Type} (a a' : A) (b b' : B) :
  (a, b) = (a', b') -> a = a' /\ b = b'.
Proof. now intros [= -> ->]. Qed.

(** Standalone runners.  Bar 1 finds the track flat and opens a LONG of
    [quantity] contracts; bar 2 does not close it.  The value written at
    bar 2 is the value written at bar 1 (the pre-entry asset value, all cash)
    plus [quantity * (price2 - price1) * price_multiplier]. *)
Lemma long_pnl_standalone st st1 st2
    date1 price1 atr1 mult1 ls1 ss1 sc1 cap1
    date2 price2 atr2 mult2 ls2 ss2 lc2 sc2 cap2 :
  holdings st = [] ->
  ~ price1 == 0 ->
  (0 < Qfloor (cash st / 2 / (price1 * price_multiplier)))%Z ->
  bar_body date1 price1 atr1 mult1 ls1 ss1 true sc1 cap1 st = Return st1 ->
  exit_fires price2 ls2 ss2
    (long_position date1 price1
       (Qfloor (cash st / 2 / (price1 * price_multiplier))) atr1 mult1)
  = false ->
  bar_body date2 price2 atr2 mult2 ls2 ss2 lc2 sc2 cap2 st1 = Return st2 ->
  exists v1 v2,
    trading_data st1 = loc_set date1 v1 (trading_data st)
    /\ trading_data st2 = loc_set date2 v2 (trading_data st1)
    /\ v1 == cash st
    /\ v2 == v1 + inject_Z (Qfloor (cash st / 2 / (price1 * price_multiplier)))
                  * (price2 - price1) * price_multiplier.
Proof.
  intros Hflat Hp Hq H1 Hkeep H2.
  unfold bar_body in H1. rewrite Hflat, exit_positions_nil in H1.
  rewrite (open_position_long _ _ _ _ _ _ _ _ Hp Hq) in H1.
  state_simpl in H1. apply Return_inj in H1. subst st1.
  unfold bar_body in H2. state_simpl in H2.
  rewrite exit_positions_single, Hkeep in H2.
  rewrite open_position_gated in H2 by discriminate.
  state_simpl in H2. apply Return_inj in H2. subst st2.
  state_simpl. do 2 eexists.
  split; [reflexivity|]. split; [reflexivity|]. split.
  - rewrite total_unrealized_nil. ring.
  - rewrite total_unrealized_cons, !total_unrealized_nil.
    unfold notional, long_position. cbn [pos_type quantity]. ring.
Qed.

(** Hybrid runners, momentum track; the reversion track stays out at bar 1. *)
Lemma long_pnl_hybrid st st1 st2
    date1 price1 atr_m1 mult_m1 mls1 mss1 msc1 atr_r1 mult_r1 rls1 rss1
    date2 price2 atr_m2 mult_m2 mls2 mss2 mlc2 msc2
    atr_r2 mult_r2 rls2 rss2 rlc2 rsc2 :
  holdings_momentum st = [] ->
  holdings_reversion st = [] ->
  ~ price1 == 0 ->
  (0 < Qfloor (h_cash st / 2 / (price1 * price_multiplier)))%Z ->
  hybrid_body date1 price1 atr_m1 mult_m1 mls1 mss1 true msc1
              atr_r1 mult_r1 rls1 rss1 false false st = Return st1 ->
  exit_fires price2 mls2 mss2
    (long_position date1 price1
       (Qfloor (h_cash st / 2 / (price1 * price_multiplier))) atr_m1 mult_m1)
  = false ->
  hybrid_body date2 price2 atr_m2 mult_m2 mls2 mss2 mlc2 msc2
              atr_r2 mult_r2 rls2 rss2 rlc2 rsc2 st1 = Return st2 ->
  exists v1 v2,
    h_trading_data st1 = loc_set date1 v1 (h_trading_data st)
    /\ h_trading_data st2 = loc_set date2 v2 (h_trading_data st1)
    /\ v1 == h_cash st
    /\ v2 == v1 + inject_Z (Qfloor (h_cash st / 2
                                    / (price1 * price_multiplier)))
                  * (price2 - price1) * price_multiplier.
Proof.
  intros Hm Hr Hp Hq H1 Hkeep H2.
  unfold hybrid_body in H1. rewrite Hm, Hr, !exit_positions_nil in H1.
  rewrite (open_position_long _ _ _ _ _ _ _ _ Hp Hq) in H1.
  state_simpl in H1. rewrite open_position_idle in H1.
  state_simpl in H1. apply Return_inj in H1. subst st1.
  apply hybrid_body_inv in H2
    as (cash1 & mom1 & cash2 & rev1 & cm & cr & E1 & E2 & _ & _ & ->).
  state_simpl in E1. state_simpl in E2. state_simpl.
  rewrite exit_positions_single, Hkeep in E1.
  apply pair_inj in E1 as (<- & <-).
  rewrite exit_positions_nil in E2. apply pair_inj in E2 as (<- & <-).
  do 2 eexists.
  split; [reflexivity|]. split; [reflexivity|]. split.
  - cbn [app]. rewrite total_unrealized_nil. ring.
  - cbn [app]. rewrite total_unrealized_cons, !total_unrealized_nil.
    unfold notional, long_position. cbn [pos_type quantity]. ring.
Qed.

(** ** A worked run

    Five bars; column lookups are keyed on the window so that one feed
    serves both tracks.  Momentum: MACD 12/26/9, RSI 14, threshold 30,
    ATR 14 with multiplier 2.  Reversion: MACD 10/30/9, RSI 10, ATR 10 with
    multiplier 2; its indicators never signal. *)

Definition demo_data : list ohlc :=
  [ mkOhlc 0 100 100 100 100;
    mkOhlc 1 100 100 100 100;
    mkOhlc 2 105 105 105 105;
    mkOhlc 3 120 120 120 120;
    mkOhlc 4 118 118 118 118 ].

Definition demo_macd_diff (close : list Q) (window_slow window_fast
    window_sign : Z) : list (option Q) :=
  if (window_slow =? 26)%Z
  then [None; Some 1; Some 1; Some 1; Some (-1)]
  else [None; Some 0; Some 0; Some 0; Some 0].

Definition demo_rsi (close : list Q) (window : Z) : list (option Q) :=
  if (window =? 14)%Z
  then [None; Some 60; Some 60; Some 60; Some 40]
  else [None; Some 45; Some 45; Some 45; Some 45].

Definition demo_atr (high low close : list Q) (window : Z)
  : list (option Q) :=
  [None; Some 5; Some 5; Some 5; Some 5].

Definition demo_params : hybrid_params :=
  mkParams 12 26 9 14 30 14 2 10 30 9 10 10 2.

Definition demo_loop : nat -> outcome hybrid_state :=
  algo_loop demo_macd_diff demo_rsi demo_atr demo_data demo_params.

(** Bar 1 opens a momentum LONG of 45 contracts at 100. *)
Example demo_bar1 :
  exists st,
    demo_loop 1 = Return st
    /\ holdings_momentum st = [long_position 1 100 45 5 2]
    /\ holdings_reversion st = []
    /\ h_cash st == 101562500.
Proof.
  eexists. split; [vm_compute; reflexivity|].
  split; [reflexivity|]. split; reflexivity.
Qed.

(** Bar 2 keeps it; bar 3 closes it at 120 (take-profit 110) and opens a
    new one of 41 contracts on the spot. *)
Example demo_bar3 :
  exists st,
    demo_loop 3 = Return st
    /\ map entry_date (holdings_momentum st) = [3%Z]
    /\ map quantity (holdings_momentum st) = [41%Z]
    /\ Forall2 Qeq (map snd (h_trading_data st))
                   [ASSET_VALUE; ASSET_VALUE; 204921875; 217572500;
                    ASSET_VALUE].
Proof.
  eexists. split; [vm_compute; reflexivity|].
  split; [reflexivity|]. split; [reflexivity|].
  repeat constructor.
Qed.

(** Bar 4 closes that LONG on a negative MACD and opens a momentum SHORT:
    41 contracts. *)
Example demo_bar4 :
  exists st,
    demo_loop 4 = Return st
    /\ map pos_type (holdings_momentum st) = [SHORT]
    /\ map quantity (holdings_momentum st) = [41%Z].
Proof.
  eexists. split; [vm_compute; reflexivity|].
  split; reflexivity.
Qed.

(** ** The cap on SHORT quantities *)

(** Whatever the entry block opens on the short side has the runner's
    capped quantity. *)
Lemma short_entry_quantity date cur_price atr mult available_cash cap cash
    hs ch pos :
  entry_result date cur_price atr mult available_cash cap cash hs ch ->
  hs = [] -> In pos (snd ch) -> pos_type pos = SHORT ->
  quantity pos
  = capped cap (Qfloor (available_cash / (cur_price * price_multiplier))).
Proof.
  intros [ | q _ -> _ | q _ -> _ ] Hnil; cbn [snd].
  - now rewrite Hnil.
  - intros [<-|[]]. discriminate.
  - intros [<-|[]] _. reflexivity.
Qed.

(** Standalone runners and the reversion track of the hybrid runners:
    [min(floor(available / (price * price_multiplier)), 3)]. *)
Lemma standalone_short_capped date cur_price atr mult ls ss lc sc st st' pos :
  holdings st = [] ->
  bar_body date cur_price atr mult ls ss lc sc (Some 3%Z) st = Return st' ->
  In pos (holdings st') -> pos_type pos = SHORT ->
  quantity pos
  = Z.min (Qfloor (cash st / 2 / (cur_price * price_multiplier))) 3.
Proof.
  intros Hflat Hb Hin Hs.
  apply bar_body_inv in Hb as (cash1 & hs1 & ch & Hex & Hent & ->).
  rewrite Hflat, exit_positions_nil in Hex.
  apply pair_inj in Hex as (<- & <-).
  exact (short_entry_quantity _ _ _ _ _ _ _ _ _ _ Hent eq_refl Hin Hs).
Qed.

Lemma hybrid_reversion_short_capped date cur_price atr_m mult_m mls mss mlc msc
    atr_r mult_r rls rss rlc rsc st st' pos :
  holdings_momentum st = [] -> holdings_reversion st = [] ->
  hybrid_body date cur_price atr_m mult_m mls mss mlc msc
              atr_r mult_r rls rss rlc rsc st = Return st' ->
  In pos (holdings_reversion st') -> pos_type pos = SHORT ->
  quantity pos
  = Z.min (Qfloor (h_cash st / 2 / (cur_price * price_multiplier))) 3.
Proof.
  intros Hm Hr Hb Hin Hs.
  apply hybrid_body_inv in Hb
    as (cash1 & mom1 & cash2 & rev1 & cm & cr & E1 & E2 & _ & Her & ->).
  rewrite Hm, exit_positions_nil in E1. apply pair_inj in E1 as (<- & <-).
  rewrite Hr, exit_positions_nil in E2. apply pair_inj in E2 as (<- & <-).
  exact (short_entry_quantity _ _ _ _ _ _ _ _ _ _ Her eq_refl Hin Hs).
Qed.

(** The momentum track of the hybrid runners: the bare floor. *)
Lemma hybrid_momentum_short_bare date cur_price atr_m mult_m mls mss mlc msc
    atr_r mult_r rls rss rlc rsc st st' pos :
  holdings_momentum st = [] -> holdings_reversion st = [] ->
  hybrid_body date cur_price atr_m mult_m mls mss mlc msc
              atr_r mult_r rls rss rlc rsc st = Return st' ->
  In pos (holdings_momentum st') -> pos_type pos = SHORT ->
  quantity pos = Qfloor (h_cash st / 2 / (cur_price * price_multiplier)).
Proof.
  intros Hm Hr Hb Hin Hs.
  apply hybrid_body_inv in Hb
    as (cash1 & mom1 & cash2 & rev1 & cm & cr & E1 & E2 & Hem & _ & ->).
  rewrite Hm, exit_positions_nil in E1. apply pair_inj in E1 as (<- & <-).
  rewrite Hr, exit_positions_nil in E2. apply pair_inj in E2 as (<- & <-).
  exact (short_entry_quantity _ _ _ _ _ _ _ _ _ _ Hem eq_refl Hin Hs).
Qed.

(** Two rows, the second at 457 with a falling MACD and an RSI of 40: half
    of the initial capital buys ten contracts. *)
Definition short_data : list ohlc :=
  [ mkOhlc 0 460 460 460 460; mkOhlc 1 457 457 457 457 ].

Definition short_macd_diff (close : list Q) (window_slow window_fast
    window_sign : Z) : list (option Q) :=
  if (window_slow =? 30)%Z then [None; Some 0] else [None; Some (-1)].

Definition short_rsi (close : list Q) (window : Z) : list (option Q) :=
  if (window =? 10)%Z then [None; Some 45] else [None; Some 40].

Definition short_atr (high low close : list Q) (window : Z)
  : list (option Q) :=
  [None; Some 5].

(** C1 at a failing input.  With capital for ten contracts the SHORT that
    [algo] opens on its momentum track has quantity 10, and so has the one
    [dynamic_algo] opens; [momentum_algo] and [dynamic_momentum_algo] on the
    same bar open 3. *)
Theorem hybrid_momentum_short_uncapped :
  Qfloor (ASSET_VALUE / 2 / (457 * price_multiplier)) = 10%Z
  /\ (exists st,
        algo_loop short_macd_diff short_rsi short_atr short_data
                  demo_params 1 = Return st
        /\ holdings_momentum st = [short_position 1 457 10 5 2])
  /\ (exists st,
        dynamic_algo_loop short_macd_diff short_rsi short_atr short_data
                          demo_params 1 = Return st
        /\ holdings_momentum st = [short_position 1 457 10 5 2.0])
  /\ (exists st,
        momentum_loop short_macd_diff short_rsi short_atr short_data
                      12 26 9 14 30 14 2 1 = Return st
        /\ holdings st = [short_position 1 457 3 5 2])
  /\ (exists st,
        dynamic_momentum_loop short_macd_diff short_rsi short_atr short_data
                              12 26 9 14 30 14 1 = Return st
        /\ holdings st = [short_position 1 457 3 5 1.5]).
Proof.
  split; [reflexivity|].
  repeat split; eexists; (split; [vm_compute; reflexivity | reflexivity]).
Qed.

(** ** Exits before entries *)

(** A standalone bar that closes the track's only position hands the entry
    block the flat track and the settled cash. *)
Lemma exit_then_entry_standalone date cur_price atr mult ls ss lc sc cap
    st st' pos :
  holdings st = [pos] ->
  exit_fires cur_price ls ss pos = true ->
  bar_body date cur_price atr mult ls ss lc sc cap st = Return st' ->
  open_position date cur_price atr mult
                (settle cur_price (cash st) pos / 2) lc sc cap
                (settle cur_price (cash st) pos) []
  = Return (cash st', holdings st').
Proof.
  intros Hone Hfire Hb. unfold bar_body in Hb.
  rewrite Hone, exit_positions_single, Hfire in Hb.
  destruct (open_position _ _ _ _ _ _ _ _ _ _) as [e|[c hs]];
    state_simpl in Hb; [discriminate|].
  apply Return_inj in Hb. subst st'. reflexivity.
Qed.

(** The same for the momentum track of a hybrid bar: [cash2] is the cash
    after the exits of both tracks. *)
Lemma exit_then_entry_momentum date cur_price atr_m mult_m mls mss mlc msc
    atr_r mult_r rls rss rlc rsc st st' pos :
  holdings_momentum st = [pos] ->
  exit_fires cur_price mls mss pos = true ->
  hybrid_body date cur_price atr_m mult_m mls mss mlc msc
              atr_r mult_r rls rss rlc rsc st = Return st' ->
  exists cash2 rev1 cash3,
    exit_positions cur_price rls rss (settle cur_price (h_cash st) pos)
                   (holdings_reversion st) = (cash2, rev1)
    /\ open_position date cur_price atr_m mult_m (cash2 / 2) mlc msc None
                     cash2 []
       = Return (cash3, holdings_momentum st').
Proof.
  intros Hone Hfire Hb. unfold hybrid_body in Hb.
  rewrite Hone, exit_positions_single, Hfire in Hb.
  destruct (exit_positions cur_price rls rss _ _) as [cash2 rev1] eqn:E2.
  destruct (open_position _ _ atr_m _ _ _ _ _ _ _) as [e|[c3 hs]] eqn:Em;
    state_simpl in Hb; [discriminate|].
  destruct (open_position _ _ atr_r _ _ _ _ _ _ _) as [e|[c4 hs']] eqn:Er;
    state_simpl in Hb; [discriminate|].
  apply Return_inj in Hb. subst st'.
  exists cash2, rev1, c3. split; [reflexivity | exact Em].
Qed.

(** And for its reversion track, which enters after the momentum track. *)
Lemma exit_then_entry_reversion date cur_price atr_m mult_m mls mss mlc msc
    atr_r mult_r rls rss rlc rsc st st' pos :
  holdings_reversion st = [pos] ->
  exit_fires cur_price rls rss pos = true ->
  hybrid_body date cur_price atr_m mult_m mls mss mlc msc
              atr_r mult_r rls rss rlc rsc st = Return st' ->
  exists cash1 mom1 cash3,
    exit_positions cur_price mls mss (h_cash st) (holdings_momentum st)
    = (cash1, mom1)
    /\ open_position date cur_price atr_m mult_m
                     (settle cur_price cash1 pos / 2) mlc msc None
                     (settle cur_price cash1 pos) mom1
       = Return (cash3, holdings_momentum st')
    /\ open_position date cur_price atr_r mult_r
                     (settle cur_price cash1 pos / 2) rlc rsc (Some 3%Z)
                     cash3 []
       = Return (h_cash st', holdings_reversion st').
Proof.
  intros Hone Hfire Hb. unfold hybrid_body in Hb.
  destruct (exit_positions cur_price mls mss _ _) as [cash1 mom1] eqn:E1.
  rewrite Hone, exit_positions_single, Hfire in Hb.
  destruct (open_position _ _ atr_m _ _ _ _ _ _ _) as [e|[c3 hs]] eqn:Em;
    state_simpl in Hb; [discriminate|].
  destruct (open_position _ _ atr_r _ _ _ _ _ _ _) as [e|[c4 hs']] eqn:Er;
    state_simpl in Hb; [discriminate|].
  apply Return_inj in Hb. subst st'.
  exists cash1, mom1, c3.
  split; [reflexivity|]. split; [exact Em | exact Er].
Qed.

(** The state the worked run is in after bar 2, and bar 3 of that run. *)
Definition demo_state2 : hybrid_state :=
  mkHybrid 101562500 [long_position 1 100 45 5 2] []
           [(0%Z, ASSET_VALUE); (1%Z, ASSET_VALUE); (2%Z, 204921875);
            (3%Z, ASSET_VALUE); (4%Z, ASSET_VALUE)].

Definition demo_bar3_body (st : hybrid_state) : outcome hybrid_state :=
  algo_bar 30 2 2 3 120 (Some 60) (Some 1) (Some 5)
           (Some 45) (Some 0) (Some 5) st.

(** C3: in every processed bar the entry block of a track runs on what the
    exits left.  When the bar closes the track's only position, the
    position list and cash with which the bar ends are those the entry block
    returns from the empty list and the post-exit cash (standalone runners;
    momentum and reversion track of the hybrid runners); and such a bar can
    end in a new position: bar 3 of the worked run closes the LONG of bar 1
    and opens one dated 3. *)
Theorem exits_before_entries :
  (forall date cur_price atr mult ls ss lc sc cap st st' pos,
      holdings st = [pos] ->
      exit_fires cur_price ls ss pos = true ->
      bar_body date cur_price atr mult ls ss lc sc cap st = Return st' ->
      open_position date cur_price atr mult
                    (settle cur_price (cash st) pos / 2) lc sc cap
                    (settle cur_price (cash st) pos) []
      = Return (cash st', holdings st'))
  /\ (forall date cur_price atr_m mult_m mls mss mlc msc
             atr_r mult_r rls rss rlc rsc st st' pos,
         holdings_momentum st = [pos] ->
         exit_fires cur_price mls mss pos = true ->
         hybrid_body date cur_price atr_m mult_m mls mss mlc msc
                     atr_r mult_r rls rss rlc rsc st = Return st' ->
         exists cash2 rev1 cash3,
           exit_positions cur_price rls rss (settle cur_price (h_cash st) pos)
                          (holdings_reversion st) = (cash2, rev1)
           /\ open_position date cur_price atr_m mult_m (cash2 / 2) mlc msc
                            None cash2 []
              = Return (cash3, holdings_momentum st'))
  /\ (forall date cur_price atr_m mult_m mls mss mlc msc
             atr_r mult_r rls rss rlc rsc st st' pos,
         holdings_reversion st = [pos] ->
         exit_fires cur_price rls rss pos = true ->
         hybrid_body date cur_price atr_m mult_m mls mss mlc msc
                     atr_r mult_r rls rss rlc rsc st = Return st' ->
         exists cash1 mom1 cash3,
           exit_positions cur_price mls mss (h_cash st) (holdings_momentum st)
           = (cash1, mom1)
           /\ open_position date cur_price atr_m mult_m
                            (settle cur_price cash1 pos / 2) mlc msc None
                            (settle cur_price cash1 pos) mom1
              = Return (cash3, holdings_momentum st')
           /\ open_position date cur_price atr_r mult_r
                            (settle cur_price cash1 pos / 2) rlc rsc
                            (Some 3%Z) cash3 []
              = Return (h_cash st', holdings_reversion st'))
  /\ (exists st',
         demo_bar3_body demo_state2 = Return st'
         /\ holdings_momentum demo_state2 = [long_position 1 100 45 5 2]
         /\ holdings_momentum st' = [long_position 3 120 41 5 2]).
Proof.
  split; [exact exit_then_entry_standalone|].
  split; [exact exit_then_entry_momentum|].
  split; [exact exit_then_entry_reversion|].
  eexists. split; [vm_compute; reflexivity|]. split; reflexivity.
Qed.

(** The first part at bar 3 of the worked run, seen from a standalone
    momentum runner in the same position. *)
Lemma exits_before_entries_witness :
  open_position 3 120 5 2
    (settle 120 101562500 (long_position 1 100 45 5 2) / 2) true false
    (Some 3%Z) (settle 120 101562500 (long_position 1 100 45 5 2)) []
  = Return (settle 120 101562500 (long_position 1 100 45 5 2)
            - inject_Z 41 * 120 * price_multiplier,
            [long_position 3 120 41 5 2]).
Proof.
  destruct exits_before_entries as (H & _).
  exact (H 3%Z 120 5 2 false false true false (Some 3%Z)
           (mkState 101562500 [long_position 1 100 45 5 2] [])
           (mkState (settle 120 101562500 (long_position 1 100 45 5 2)
                     - inject_Z 41 * 120 * price_multiplier)
                    [long_position 3 120 41 5 2]
                    (loc_set 3
                       (settle 120 101562500 (long_position 1 100 45 5 2)
                        + total_unrealized 120 []) []))
           (long_position 1 100 45 5 2) eq_refl eq_refl eq_refl).
Defined.

(** ** A LONG round trip *)

(** C4: on the momentum track of a hybrid runner, a bar that finds both
    tracks flat and opens a LONG of [q] contracts at [price1] takes
    [q * price1 * price_multiplier] out of cash; a later bar that closes it at
    [price2] (and opens nothing) puts back
    [q * price2 * price_multiplier - q * TAX * MULTIPLIER].  Entry at 100
    with 5 contracts and exit at 120 is the instance below. *)
Theorem long_round_trip st st1 st2
    date1 price1 atr_m1 mult_m1 mls1 mss1 msc1 atr_r1 mult_r1 rls1 rss1
    date2 price2 atr_m2 mult_m2 mls2 mss2 atr_r2 mult_r2 rls2 rss2 :
  holdings_momentum st = [] ->
  holdings_reversion st = [] ->
  ~ price1 == 0 ->
  (0 < Qfloor (h_cash st / 2 / (price1 * price_multiplier)))%Z ->
  hybrid_body date1 price1 atr_m1 mult_m1 mls1 mss1 true msc1
              atr_r1 mult_r1 rls1 rss1 false false st = Return st1 ->
  exit_fires price2 mls2 mss2
    (long_position date1 price1
       (Qfloor (h_cash st / 2 / (price1 * price_multiplier))) atr_m1 mult_m1)
  = true ->
  hybrid_body date2 price2 atr_m2 mult_m2 mls2 mss2 false false
              atr_r2 mult_r2 rls2 rss2 false false st1 = Return st2 ->
  holdings_momentum st1
  = [long_position date1 price1
       (Qfloor (h_cash st / 2 / (price1 * price_multiplier))) atr_m1 mult_m1]
  /\ h_cash st1
     == h_cash st
        - inject_Z (Qfloor (h_cash st / 2 / (price1 * price_multiplier)))
          * price1 * price_multiplier
  /\ holdings_momentum st2 = []
  /\ h_cash st2
     == h_cash st1
        + inject_Z (Qfloor (h_cash st / 2 / (price1 * price_multiplier)))
          * price2 * price_multiplier
        - inject_Z (Qfloor (h_cash st / 2 / (price1 * price_multiplier)))
          * TAX * MULTIPLIER
  /\ h_cash st2
     == h_cash st
        - inject_Z (Qfloor (h_cash st / 2 / (price1 * price_multiplier)))
          * price1 * price_multiplier
        + inject_Z (Qfloor (h_cash st / 2 / (price1 * price_multiplier)))
          * price2 * price_multiplier
        - inject_Z (Qfloor (h_cash st / 2 / (price1 * price_multiplier)))
          * TAX * MULTIPLIER.
Proof.
  intros Hm Hr Hp Hq H1 Hfire H2.
  unfold hybrid_body in H1. rewrite Hm, Hr, !exit_positions_nil in H1.
  rewrite (open_position_long _ _ _ _ _ _ _ _ Hp Hq) in H1.
  state_simpl in H1. rewrite open_position_idle in H1.
  state_simpl in H1. apply Return_inj in H1. subst st1.
  unfold hybrid_body in H2. state_simpl in H2.
  rewrite exit_positions_single, Hfire, exit_positions_nil in H2.
  rewrite !open_position_idle in H2. state_simpl in H2.
  apply Return_inj in H2. subst st2. state_simpl.
  split; [reflexivity|]. split; [reflexivity|]. split; [reflexivity|].
  unfold settle, long_position. cbn [pos_type quantity]. split; ring.
Qed.

(** Cash of 24 000 000 sizes the entry at 100 to 5 contracts. *)
Definition trip_state : hybrid_state := mkHybrid 24000000 [] [] [].

Definition trip_state1 : hybrid_state :=
  mkHybrid (24000000 - inject_Z 5 * 100 * price_multiplier)
           [long_position 1 100 5 5 2] []
           (loc_set 1 (24000000 + total_unrealized 100 ([] ++ [])) []).

Definition trip_state2 : hybrid_state :=
  mkHybrid (settle 120 (24000000 - inject_Z 5 * 100 * price_multiplier)
                   (long_position 1 100 5 5 2))
           [] []
           (loc_set 2
              (settle 120 (24000000 - inject_Z 5 * 100 * price_multiplier)
                      (long_position 1 100 5 5 2)
               + total_unrealized 120 ([] ++ []))
              (h_trading_data trip_state1)).

Lemma long_round_trip_witness :
  h_cash trip_state2
  == h_cash trip_state
     - inject_Z 5 * 100 * price_multiplier
     + inject_Z 5 * 120 * price_multiplier
     - inject_Z 5 * TAX * MULTIPLIER.
Proof.
  assert (Hp : ~ 100 == 0) by discriminate.
  assert (Hq : (0 < Qfloor (h_cash trip_state / 2
                            / (100 * price_multiplier)))%Z) by reflexivity.
  pose proof (long_round_trip trip_state trip_state1 trip_state2
                1 100 5 2 false false false 5 2 false false
                2 120 5 2 false false 5 2 false false
                eq_refl eq_refl Hp Hq eq_refl eq_refl eq_refl)
    as (_ & _ & _ & _ & H).
  exact H.
Defined.

(** ** The asset column *)

(** The rows a runner processes: those where its [pd.isna] test finds all
    of its indicators defined. *)
Definition standalone_processed
    (macd_diff : list Q -> Z -> Z -> Z -> list (option Q))
    (rsi : list Q -> Z -> list (option Q))
    (average_true_range : list Q -> list Q -> list Q -> Z -> list (option Q))
    (data : list ohlc)
    (fast_ema_window slow_ema_window ema_signal_window rsi_window : Z)
    (atr_window : Z) (i : nat) : bool :=
  processed3
    (cell (rsi (map Close data) rsi_window) i)
    (cell (macd_diff (map Close data) fast_ema_window slow_ema_window
                     ema_signal_window) i)
    (cell (atr_column average_true_range data atr_window) i).

Definition hybrid_processed
    (macd_diff : list Q -> Z -> Z -> Z -> list (option Q))
    (rsi : list Q -> Z -> list (option Q))
    (average_true_range : list Q -> list Q -> list Q -> Z -> list (option Q))
    (data : list ohlc) (p : hybrid_params) (i : nat) : bool :=
  processed6
    (cell (rsi (map Close data) (momentum_rsi_window p)) i)
    (cell (macd_diff (map Close data) (momentum_slow_ema p)
                     (momentum_fast_ema p) (momentum_signal_ema p)) i)
    (cell (atr_column average_true_range data (momentum_atr_window p)) i)
    (cell (rsi (map Close data) (reversion_rsi_window p)) i)
    (cell (macd_diff (map Close data) (reversion_slow_ema p)
                     (reversion_fast_ema p) (reversion_signal_ema p)) i)
    (cell (atr_column average_true_range data (reversion_atr_window p)) i).

(** Row [i] of the ['Asset'] column built from the table after [k] bars
    ([k = len(data) - 1] for the returned frame) holds, for every processed
    bar [i] up to [k], the cash plus the signed current notional of every
    open position, taken at the close of bar [i] in the state bar [i] ends
    in. *)
Definition records_value {S : Type} (cash_of : S -> Q)
    (open_of : S -> list position) (table_of : S -> asset_table)
    (data : list ohlc) (loop : nat -> outcome S) (processed : nat -> bool)
  : Prop :=
  forall k st_k i st_i,
    (1 <= i <= k)%nat -> (k < length data)%nat ->
    processed i = true ->
    loop k = Return st_k -> loop i = Return st_i ->
    exists v,
      nth_error (Asset (finish (table_of st_k))) i = Some v
      /\ v == cash_of st_i
              + total_unrealized (Close (iloc data i)) (open_of st_i).

Lemma row_recorded_value {S : Type} (cash_of : S -> Q)
    (open_of : S -> list position) (table_of : S -> asset_table)
    (data : list ohlc) (body : nat -> S -> outcome S)
    (processed : nat -> bool) (init : S) :
  (forall k st_k i,
      (k < length data)%nat -> loop_prefix body k init = Return st_k ->
      (i < length data)%nat ->
      row_recorded cash_of open_of table_of data body processed init
                   k st_k i) ->
  records_value cash_of open_of table_of data
                (fun k => loop_prefix body k init) processed.
Proof.
  intros Hrows k st_k i st_i Hi Hk Hproc Hloop Hst_i.
  destruct (Hrows k st_k i Hk Hloop ltac:(lia)) as (v & Hrow & Hv).
  exists v. split.
  - unfold finish. cbn [Asset]. now rewrite nth_error_map, Hrow.
  - assert (Hc : ((1 <=? i) && (i <=? k))%nat = true).
    { apply andb_true_iff. split; apply Nat.leb_le; lia. }
    rewrite Hc, Hproc in Hv. now apply Hv.
Qed.

(** A frame whose asset column starts at the initial capital. *)
Definition starts_at_initial_capital (out : outcome frame) : Prop :=
  forall f, out = Return f -> nth_error (Asset f) 0 = Some ASSET_VALUE.

Lemma finish_first_row (t : asset_table) (d : Z) (v : Q) :
  nth_error t 0 = Some (d, v) -> nth_error (Asset (finish t)) 0 = Some v.
Proof.
  intros H. unfold finish. cbn [Asset]. now rewrite nth_error_map, H.
Qed.

Section AssetColumn.

Variable macd_diff : list Q -> Z -> Z -> Z -> list (option Q).
Variable rsi : list Q -> Z -> list (option Q).
Variable average_true_range :
  list Q -> list Q -> list Q -> Z -> list (option Q).

Variable data : list ohlc.
Variables fast_ema_window slow_ema_window ema_signal_window : Z.
Variables rsi_window rsi_threshold atr_window : Z.
Variable atr_multiplier : Q.
Variable p : hybrid_params.

Hypothesis unique_times : NoDup (map Time data).

Let processed :=
  standalone_processed macd_diff rsi average_true_range data
    fast_ema_window slow_ema_window ema_signal_window rsi_window atr_window.
Let processed_h :=
  hybrid_processed macd_diff rsi average_true_range data p.

Lemma runners_record_value :
  records_value cash holdings trading_data data
    (momentum_loop macd_diff rsi average_true_range data fast_ema_window
       slow_ema_window ema_signal_window rsi_window rsi_threshold
       atr_window atr_multiplier) processed
  /\ records_value cash holdings trading_data data
       (dynamic_momentum_loop macd_diff rsi average_true_range data
          fast_ema_window slow_ema_window ema_signal_window rsi_window
          rsi_threshold atr_window) processed
  /\ records_value cash holdings trading_data data
       (reversion_loop macd_diff rsi average_true_range data
          fast_ema_window slow_ema_window ema_signal_window rsi_window
          atr_window atr_multiplier) processed
  /\ records_value cash holdings trading_data data
       (dynamic_reversion_loop macd_diff rsi average_true_range data
          fast_ema_window slow_ema_window ema_signal_window rsi_window
          atr_window) processed
  /\ records_value h_cash hybrid_open h_trading_data data
       (algo_loop macd_diff rsi average_true_range data p) processed_h
  /\ records_value h_cash hybrid_open h_trading_data data
       (dynamic_algo_loop macd_diff rsi average_true_range data p)
       processed_h.
Proof.
  split; [|split; [|split; [|split; [|split]]]];
    apply row_recorded_value; intros k st_k i Hk Hloop Hi.
  - apply standalone_table; trivial. intros j. apply momentum_bar_shape.
  - apply standalone_table; trivial.
    intros j. apply dynamic_momentum_bar_shape.
  - apply standalone_table; trivial. intros j. apply reversion_bar_shape.
  - apply standalone_table; trivial.
    intros j. apply dynamic_reversion_bar_shape.
  - apply hybrid_table; trivial. intros j. apply algo_bar_shape.
  - apply hybrid_table; trivial. intros j. apply dynamic_algo_bar_shape.
Qed.

Hypothesis not_empty : data <> [].

Lemma last_bar_in_range : (length data - 1 < length data)%nat.
Proof. destruct data; [congruence | cbn; lia]. Qed.

Ltac first_row shape_lemma table_lemma :=
  match goal with
  | Hf : (st <- ?loop ;; _) = Return ?f |- _ =>
      destruct loop as [e|st] eqn:E; cbn [bind] in Hf; [discriminate|];
      apply Return_inj in Hf; subst f;
      eapply finish_first_row;
      eapply table_lemma;
      [intros j; apply shape_lemma | exact unique_times
       | exact last_bar_in_range | exact E]
  end.

(** With distinct timestamps, every returned frame starts at the initial
    capital: row 0 is never processed. *)
Lemma runners_start_at_initial_capital :
  starts_at_initial_capital
    (momentum_algo macd_diff rsi average_true_range data fast_ema_window
       slow_ema_window ema_signal_window rsi_window rsi_threshold
       atr_window atr_multiplier)
  /\ starts_at_initial_capital
       (dynamic_momentum_algo macd_diff rsi average_true_range data
          fast_ema_window slow_ema_window ema_signal_window rsi_window
          rsi_threshold atr_window)
  /\ starts_at_initial_capital
       (reversion_algo macd_diff rsi average_true_range data
          fast_ema_window slow_ema_window ema_signal_window rsi_window
          atr_window atr_multiplier)
  /\ starts_at_initial_capital
       (dynamic_reversion_algo macd_diff rsi average_true_range data
          fast_ema_window slow_ema_window ema_signal_window rsi_window
          atr_window)
  /\ starts_at_initial_capital
       (algo macd_diff rsi average_true_range data p)
  /\ starts_at_initial_capital
       (dynamic_algo macd_diff rsi average_true_range data p).
Proof.
  unfold starts_at_initial_capital, momentum_algo, dynamic_momentum_algo,
    reversion_algo, dynamic_reversion_algo, algo, dynamic_algo.
  split; [|split; [|split; [|split; [|split]]]]; intros f Hf.
  - first_row momentum_bar_shape standalone_first_row.
  - first_row dynamic_momentum_bar_shape standalone_first_row.
  - first_row reversion_bar_shape standalone_first_row.
  - first_row dynamic_reversion_bar_shape standalone_first_row.
  - first_row algo_bar_shape hybrid_first_row.
  - first_row dynamic_algo_bar_shape hybrid_first_row.
Qed.

End AssetColumn.

(** C2: with distinct timestamps, every runner's asset column holds at each
    processed bar the cash plus the sum of the signed current notionals of
    all open positions ([+price * price_multiplier * quantity] for a LONG,
    the opposite for a SHORT; both tracks together in the hybrid runners):
    that of the state the bar ends in and, as the bar computes it, that of
    the state its exits leave.  With the cash flow of the entry this is the pre-entry asset value plus
    the unrealized gain: after a LONG of [q] contracts opened at [price1]
    from a flat book, a bar at [price2] that keeps it records the value
    recorded at the entry bar plus [q * (price2 - price1) * price_multiplier]. *)
Theorem asset_value_accounting
    (macd_diff : list Q -> Z -> Z -> Z -> list (option Q))
    (rsi : list Q -> Z -> list (option Q))
    (average_true_range : list Q -> list Q -> list Q -> Z -> list (option Q))
    (data : list ohlc)
    (fast_ema_window slow_ema_window ema_signal_window rsi_window : Z)
    (rsi_threshold atr_window : Z) (atr_multiplier : Q) (p : hybrid_params) :
  NoDup (map Time data) ->
  (records_value cash holdings trading_data data
     (momentum_loop macd_diff rsi average_true_range data fast_ema_window
        slow_ema_window ema_signal_window rsi_window rsi_threshold
        atr_window atr_multiplier)
     (standalone_processed macd_diff rsi average_true_range data
        fast_ema_window slow_ema_window ema_signal_window rsi_window
        atr_window)
   /\ records_value cash holdings trading_data data
        (dynamic_momentum_loop macd_diff rsi average_true_range data
           fast_ema_window slow_ema_window ema_signal_window rsi_window
           rsi_threshold atr_window)
        (standalone_processed macd_diff rsi average_true_range data
           fast_ema_window slow_ema_window ema_signal_window rsi_window
           atr_window)
   /\ records_value cash holdings trading_data data
        (reversion_loop macd_diff rsi average_true_range data
           fast_ema_window slow_ema_window ema_signal_window rsi_window
           atr_window atr_multiplier)
        (standalone_processed macd_diff rsi average_true_range data
           fast_ema_window slow_ema_window ema_signal_window rsi_window
           atr_window)
   /\ records_value cash holdings trading_data data
        (dynamic_reversion_loop macd_diff rsi average_true_range data
           fast_ema_window slow_ema_window ema_signal_window rsi_window
           atr_window)
        (standalone_processed macd_diff rsi average_true_range data
           fast_ema_window slow_ema_window ema_signal_window rsi_window
           atr_window)
   /\ records_value h_cash hybrid_open h_trading_data data
        (algo_loop macd_diff rsi average_true_range data p)
        (hybrid_processed macd_diff rsi average_true_range data p)
   /\ records_value h_cash hybrid_open h_trading_data data
        (dynamic_algo_loop macd_diff rsi average_true_range data p)
        (hybrid_processed macd_diff rsi average_true_range data p))
  /\ (forall date cur_price atr mult ls ss lc sc cap st st',
         bar_body date cur_price atr mult ls ss lc sc cap st = Return st' ->
         trading_data st'
         = loc_set date
             (fst (exit_positions cur_price ls ss (cash st) (holdings st))
              + total_unrealized cur_price
                  (snd (exit_positions cur_price ls ss (cash st)
                                       (holdings st))))
             (trading_data st))
  /\ (forall date cur_price atr_m mult_m mls mss mlc msc
             atr_r mult_r rls rss rlc rsc st st',
         hybrid_body date cur_price atr_m mult_m mls mss mlc msc
                     atr_r mult_r rls rss rlc rsc st = Return st' ->
         h_trading_data st'
         = loc_set date
             (fst (exit_positions cur_price rls rss
                     (fst (exit_positions cur_price mls mss (h_cash st)
                                          (holdings_momentum st)))
                     (holdings_reversion st))
              + total_unrealized cur_price
                  (snd (exit_positions cur_price mls mss (h_cash st)
                                       (holdings_momentum st))
                   ++ snd (exit_positions cur_price rls rss
                             (fst (exit_positions cur_price mls mss
                                     (h_cash st) (holdings_momentum st)))
                             (holdings_reversion st))))
             (h_trading_data st))
  /\ (forall st st1 st2 date1 price1 atr1 mult1 ls1 ss1 sc1 cap1
             date2 price2 atr2 mult2 ls2 ss2 lc2 sc2 cap2,
         holdings st = [] ->
         ~ price1 == 0 ->
         (0 < Qfloor (cash st / 2 / (price1 * price_multiplier)))%Z ->
         bar_body date1 price1 atr1 mult1 ls1 ss1 true sc1 cap1 st
         = Return st1 ->
         exit_fires price2 ls2 ss2
           (long_position date1 price1
              (Qfloor (cash st / 2 / (price1 * price_multiplier)))
              atr1 mult1) = false ->
         bar_body date2 price2 atr2 mult2 ls2 ss2 lc2 sc2 cap2 st1
         = Return st2 ->
         exists v1 v2,
           trading_data st1 = loc_set date1 v1 (trading_data st)
           /\ trading_data st2 = loc_set date2 v2 (trading_data st1)
           /\ v1 == cash st
           /\ v2 == v1 + inject_Z (Qfloor (cash st / 2
                                           / (price1 * price_multiplier)))
                         * (price2 - price1) * price_multiplier)
  /\ (forall st st1 st2 date1 price1 atr_m1 mult_m1 mls1 mss1 msc1
             atr_r1 mult_r1 rls1 rss1
             date2 price2 atr_m2 mult_m2 mls2 mss2 mlc2 msc2
             atr_r2 mult_r2 rls2 rss2 rlc2 rsc2,
         holdings_momentum st = [] ->
         holdings_reversion st = [] ->
         ~ price1 == 0 ->
         (0 < Qfloor (h_cash st / 2 / (price1 * price_multiplier)))%Z ->
         hybrid_body date1 price1 atr_m1 mult_m1 mls1 mss1 true msc1
                     atr_r1 mult_r1 rls1 rss1 false false st = Return st1 ->
         exit_fires price2 mls2 mss2
           (long_position date1 price1
              (Qfloor (h_cash st / 2 / (price1 * price_multiplier)))
              atr_m1 mult_m1) = false ->
         hybrid_body date2 price2 atr_m2 mult_m2 mls2 mss2 mlc2 msc2
                     atr_r2 mult_r2 rls2 rss2 rlc2 rsc2 st1 = Return st2 ->
         exists v1 v2,
           h_trading_data st1 = loc_set date1 v1 (h_trading_data st)
           /\ h_trading_data st2 = loc_set date2 v2 (h_trading_data st1)
           /\ v1 == h_cash st
           /\ v2 == v1 + inject_Z (Qfloor (h_cash st / 2
                                           / (price1 * price_multiplier)))
                         * (price2 - price1) * price_multiplier).
Proof.
  intros Hnd. split; [|split; [|split; [|split]]].
  - now apply runners_record_value.
  - exact bar_body_recorded.
  - exact hybrid_body_recorded.
  - exact long_pnl_standalone.
  - exact long_pnl_hybrid.
Qed.

Lemma demo_times_distinct : NoDup (map Time demo_data).
Proof.
  cbn. repeat (constructor; [cbn; intuition discriminate|]). constructor.
Qed.

(** In the worked run: row 2 of the final column is the cash after bar 2
    plus 45 contracts at 105, which is the initial capital plus
    [45 * (105 - 100) * price_multiplier]. *)
Lemma asset_value_accounting_witness :
  exists st4 st2 v,
    demo_loop 4 = Return st4
    /\ demo_loop 2 = Return st2
    /\ nth_error (Asset (finish (h_trading_data st4))) 2 = Some v
    /\ v == h_cash st2 + total_unrealized 105 (hybrid_open st2)
    /\ v == ASSET_VALUE + inject_Z 45 * (105 - 100) * price_multiplier.
Proof.
  destruct (asset_value_accounting demo_macd_diff demo_rsi demo_atr
              demo_data 12 26 9 14 30 14 2 demo_params demo_times_distinct)
    as ((_ & _ & _ & _ & Halgo & _) & _).
  destruct (demo_loop 4) as [e|st4] eqn:E4; [vm_compute in E4; discriminate|].
  destruct (demo_loop 2) as [e|st2] eqn:E2; [vm_compute in E2; discriminate|].
  destruct (Halgo 4%nat st4 2%nat st2) as (v & Hn & Hv);
    [lia | cbn; lia | reflexivity | exact E4 | exact E2 |].
  exists st4, st2, v.
  split; [reflexivity|]. split; [reflexivity|]. split; [exact Hn|].
  split; [exact Hv|].
  rewrite Hv. vm_compute in E2. apply Return_inj in E2. subst st2.
  reflexivity.
Defined.

(** ** One position per track *)

(** C8: every state a runner's loop reaches from the initial (flat) one
    holds at most one open position per track.  The exits only take
    positions away and the entry block leaves a non-empty track alone. *)
Theorem at_most_one_open_position
    (macd_diff : list Q -> Z -> Z -> Z -> list (option Q))
    (rsi : list Q -> Z -> list (option Q))
    (average_true_range : list Q -> list Q -> list Q -> Z -> list (option Q))
    (data : list ohlc)
    (fast_ema_window slow_ema_window ema_signal_window rsi_window : Z)
    (rsi_threshold atr_window : Z) (atr_multiplier : Q) (p : hybrid_params) :
  (always one_position
     (momentum_loop macd_diff rsi average_true_range data fast_ema_window
        slow_ema_window ema_signal_window rsi_window rsi_threshold
        atr_window atr_multiplier)
   /\ always one_position
        (dynamic_momentum_loop macd_diff rsi average_true_range data
           fast_ema_window slow_ema_window ema_signal_window rsi_window
           rsi_threshold atr_window)
   /\ always one_position
        (reversion_loop macd_diff rsi average_true_range data
           fast_ema_window slow_ema_window ema_signal_window rsi_window
           atr_window atr_multiplier)
   /\ always one_position
        (dynamic_reversion_loop macd_diff rsi average_true_range data
           fast_ema_window slow_ema_window ema_signal_window rsi_window
           atr_window)
   /\ always one_position_per_track
        (algo_loop macd_diff rsi average_true_range data p)
   /\ always one_position_per_track
        (dynamic_algo_loop macd_diff rsi average_true_range data p))
  /\ (forall cur_price ls ss cash hs,
         (length (snd (exit_positions cur_price ls ss cash hs))
          <= length hs)%nat)
  /\ (forall date cur_price atr mult available_cash lc sc cap cash hs,
         hs <> [] ->
         open_position date cur_price atr mult available_cash lc sc cap
                       cash hs = Return (cash, hs)).
Proof.
  split; [apply runners_one_position|].
  split; [exact exit_positions_length | exact open_position_gated].
Qed.

(** ** Determinism *)







Section Store.

Variable macd_diff : list Q -> Z -> Z -> Z -> list (option Q).
Variable rsi : list Q -> Z -> list (option Q).
Variable average_true_range :
  list Q -> list Q -> list Q -> Z -> list (option Q).








End Store.


















(** * Further properties of the metrics *)

(** ** Rounding is monotone *)

Lemma rint_between (x : Q) :
  (Qfloor x <= rint x <= Qfloor x + 1)%Z.
Proof.
  unfold rint. destruct (Qltb _ (1 # 2)); [lia|].
  destruct (Qltb (1 # 2) _); [lia|]. destruct (Z.even _); lia.
Qed.

Lemma rint_mono (x y : Q) : x <= y -> (rint x <= rint y)%Z.
Proof.
  intros Hxy. pose proof (Qfloor_resp_le _ _ Hxy) as Hf.
  pose proof (rint_between x) as Bx. pose proof (rint_between y) as By.
  destruct (Z.eq_dec (Qfloor x) (Qfloor y)) as [E|NE]; [|lia].
  unfold rint in *. rewrite <- E.
  assert (Hd : x - inject_Z (Qfloor x) <= y - inject_Z (Qfloor x)) by qlra.
  destruct (Qltb (x - inject_Z (Qfloor x)) (1 # 2)) eqn:X1.
  - destruct (Qltb (y - inject_Z (Qfloor x)) (1 # 2)); [lia|].
    destruct (Qltb (1 # 2) (y - inject_Z (Qfloor x))); [lia|].
    destruct (Z.even (Qfloor x)); lia.
  - apply Qltb_ge in X1.
    destruct (Qltb (y - inject_Z (Qfloor x)) (1 # 2)) eqn:Y1.
    { apply Qltb_lt in Y1. exfalso. qlra. }
    destruct (Qltb (1 # 2) (x - inject_Z (Qfloor x))) eqn:X2.
    + apply Qltb_lt in X2.
      destruct (Qltb (1 # 2) (y - inject_Z (Qfloor x))) eqn:Y2; [lia|].
      apply Qltb_ge in Y2. exfalso. qlra.
    + destruct (Qltb (1 # 2) (y - inject_Z (Qfloor x))); [|lia].
      destruct (Z.even (Qfloor x)); lia.
Qed.

Lemma round6_mono (x y : Q) : x <= y -> round6 x <= round6 y.
Proof.
  intros Hxy. unfold round6.
  assert (H : (rint (x * 1000000) <= rint (y * 1000000))%Z).
  { apply rint_mono. qlra. }
  apply Qmult_le_compat_r; [|discriminate].
  now rewrite <- Zle_Qle.
Qed.

(** ** The range of the drawdown metrics *)

Lemma Qdiv_le_one (c p : Q) : 0 < p -> c <= p -> c / p <= 1.
Proof. intros Hp Hc. apply Qle_shift_div_r; [exact Hp | qlra]. Qed.

Lemma Qdiv_nonneg (c p : Q) : 0 < p -> 0 <= c -> 0 <= c / p.
Proof. intros Hp Hc. apply Qle_shift_div_l; [exact Hp | qlra]. Qed.

Lemma pymax_cases (a b : Q) :
  (a < b /\ pymax a b = b) \/ (b <= a /\ pymax a b = a).
Proof.
  unfold pymax. destruct (Qltb a b) eqn:E.
  - left. split; [now apply Qltb_lt | reflexivity].
  - right. split; [now apply Qltb_ge | reflexivity].
Qed.

Lemma pymin_cases (a b : Q) :
  (b < a /\ pymin a b = b) \/ (a <= b /\ pymin a b = a).
Proof.
  unfold pymin. destruct (Qltb b a) eqn:E.
  - left. split; [now apply Qltb_lt | reflexivity].
  - right. split; [now apply Qltb_ge | reflexivity].
Qed.

(** The running peak never drops below its start, the index never exceeds
    it, and the running minimum is never positive. *)
Lemma mdd_fold_upper (rs : list Q) :
  forall cur peak mdd,
    0 < peak -> cur <= peak -> mdd <= 0 ->
    exists cur' peak' mdd',
      fold_left mdd_step rs (cur, peak, mdd) = (cur', peak', mdd')
      /\ 0 < peak' /\ cur' <= peak' /\ mdd' <= 0.
Proof.
  induction rs as [|v rs IH]; intros cur peak mdd Hp Hc Hm.
  - now exists cur, peak, mdd.
  - cbn [fold_left mdd_step]. apply IH.
    + destruct (pymax_cases peak (cur * (1 + v))) as [[H ->]|[H ->]]; qlra.
    + destruct (pymax_cases peak (cur * (1 + v))) as [[H ->]|[H ->]]; qlra.
    + assert (Hx : - (1 - cur * (1 + v) / pymax peak (cur * (1 + v))) <= 0).
      { assert (cur * (1 + v) / pymax peak (cur * (1 + v)) <= 1); [|qlra].
        apply Qdiv_le_one;
          destruct (pymax_cases peak (cur * (1 + v))) as [[H ->]|[H ->]];
          qlra. }
      destruct (pymin_cases mdd
                  (- (1 - cur * (1 + v) / pymax peak (cur * (1 + v)))))
        as [[H ->]|[H ->]]; qlra.
Qed.

(** With no return below -1 the index stays non-negative and the running
    minimum stays above -1. *)
Lemma mdd_fold_lower (rs : list Q) :
  Forall (fun v => -1 <= v) rs ->
  forall cur peak mdd,
    0 < peak -> 0 <= cur -> -1 <= mdd ->
    exists cur' peak' mdd',
      fold_left mdd_step rs (cur, peak, mdd) = (cur', peak', mdd')
      /\ 0 < peak' /\ 0 <= cur' /\ -1 <= mdd'.
Proof.
  induction 1 as [|v rs Hv _ IH]; intros cur peak mdd Hp Hc Hm.
  - now exists cur, peak, mdd.
  - cbn [fold_left mdd_step].
    assert (Hc' : 0 <= cur * (1 + v)) by (apply Qmult_le_0_compat; qlra).
    assert (Hp' : 0 < pymax peak (cur * (1 + v))).
    { destruct (pymax_cases peak (cur * (1 + v))) as [[H ->]|[H ->]]; qlra. }
    apply IH; trivial.
    pose proof (Qdiv_nonneg _ _ Hp' Hc') as Hd.
    destruct (pymin_cases mdd
                (- (1 - cur * (1 + v) / pymax peak (cur * (1 + v)))))
      as [[H ->]|[H ->]]; qlra.
Qed.

Lemma maximum_drawdown_value (data : frame) (v : Q) :
  maximum_drawdown data = Return v ->
  exists cur peak mdd,
    fold_left mdd_step (dropna (Return_ data)) (1, 1, 0) = (cur, peak, mdd)
    /\ v = round6 (mdd * 100).
Proof.
  unfold maximum_drawdown.
  destruct (dropna (Return_ data)) as [|r rs]; [discriminate|].
  destruct (has_total_loss (r :: rs)); [discriminate|].
  destruct (fold_left mdd_step (r :: rs) (1, 1, 0)) as [[cur peak] mdd].
  intros H. apply Return_inj in H. now exists cur, peak, mdd.
Qed.

(** A frame with returns of +5% and then -10%. *)
Definition dip_frame : frame :=
  mkFrame [0; 1; 2]%Z [100; 105; 94.5] (pct_change [100; 105; 94.5]).

(** X1: [maximum_drawdown] never returns a positive number, and never less than
    -100 when no period return is below -1. *)
Theorem maximum_drawdown_range (data : frame) (v : Q) :
  maximum_drawdown data = Return v ->
  v <= 0
  /\ (Forall (fun r => -1 <= r) (dropna (Return_ data)) -> -100 <= v).
Proof.
  intros H. apply maximum_drawdown_value in H as (cur & peak & mdd & Hf & ->).
  split.
  - destruct (mdd_fold_upper (dropna (Return_ data)) 1 1 0)
      as (c & p & m & Hf' & _ & _ & Hm); try qlra.
    rewrite Hf in Hf'. injection Hf' as _ _ <-.
    rewrite <- round6_zero. apply round6_mono. qlra.
  - intros Hall.
    destruct (mdd_fold_lower _ Hall 1 1 0)
      as (c & p & m & Hf' & _ & _ & Hm); try qlra.
    rewrite Hf in Hf'. injection Hf' as _ _ <-.
    assert (E : round6 (-100) == -100) by reflexivity.
    rewrite <- E. apply round6_mono. qlra.
Qed.

Lemma maximum_drawdown_range_witness :
  maximum_drawdown dip_frame = Return (round6 (-10))
  /\ round6 (-10) <= 0 /\ -100 <= round6 (-10).
Proof.
  assert (H : maximum_drawdown dip_frame = Return (round6 (-10))).
  { unfold maximum_drawdown. cbn [dropna Return_ dip_frame pct_change
                                   pct_change_from].
    vm_compute. reflexivity. }
  destruct (maximum_drawdown_range dip_frame _ H) as (H1 & H2).
  split; [exact H|]. split; [exact H1|]. apply H2.
  vm_compute. repeat constructor; discriminate.
Defined.

Lemma longest_drawdown_value (data : frame) (n : nat) :
  longest_drawdown data = Return n ->
  exists cur peak count ldd,
    fold_left ldd_step (dropna (Return_ data)) (1, 1, 0%nat, 0%nat)
    = (cur, peak, count, ldd)
    /\ n = Nat.max ldd count.
Proof.
  unfold longest_drawdown.
  destruct (dropna (Return_ data)) as [|r rs]; [discriminate|].
  destruct (has_total_loss (r :: rs)); [discriminate|].
  destruct (fold_left ldd_step (r :: rs) (1, 1, 0%nat, 0%nat))
    as [[[cur peak] count] ldd].
  intros H. apply Return_inj in H. now exists cur, peak, count, ldd.
Qed.

Lemma ldd_fold_bound (rs : list Q) :
  forall cur peak count ldd,
    exists cur' peak' count' ldd',
      fold_left ldd_step rs (cur, peak, count, ldd)
      = (cur', peak', count', ldd')
      /\ (Nat.max ldd' count' <= Nat.max ldd count + length rs)%nat.
Proof.
  induction rs as [|v rs IH]; intros cur peak count ldd.
  - exists cur, peak, count, ldd. split; [reflexivity | cbn; lia].
  - cbn [fold_left ldd_step length].
    destruct (Qle_bool peak (cur * (1 + v))).
    + destruct (IH (cur * (1 + v)) (cur * (1 + v)) 0%nat (Nat.max ldd count))
        as (c & p & n & l & -> & Hb).
      exists c, p, n, l. split; [reflexivity | lia].
    + destruct (IH (cur * (1 + v)) peak (S count) ldd)
        as (c & p & n & l & -> & Hb).
      exists c, p, n, l. split; [reflexivity | lia].
Qed.

(** X2: [longest_drawdown] never exceeds the number of periods. *)
Theorem longest_drawdown_at_most_length (data : frame) (n : nat) :
  longest_drawdown data = Return n ->
  (n <= length (dropna (Return_ data)))%nat.
Proof.
  intros H. apply longest_drawdown_value in H as (c & p & k & l & Hf & ->).
  destruct (ldd_fold_bound (dropna (Return_ data)) 1 1 0%nat 0%nat)
    as (c' & p' & k' & l' & Hf' & Hb).
  rewrite Hf in Hf'. injection Hf' as _ _ <- <-. cbn in Hb. lia.
Qed.

Lemma longest_drawdown_at_most_length_witness :
  longest_drawdown dip_frame = Return 1%nat
  /\ (1 <= length (dropna (Return_ dip_frame)))%nat.
Proof.
  assert (H : longest_drawdown dip_frame = Return 1%nat)
    by (vm_compute; reflexivity).
  split; [exact H|].
  exact (longest_drawdown_at_most_length dip_frame 1%nat H).
Defined.

(** ** Rising and falling series *)

Lemma Qmult_grow (cur v : Q) : 0 < cur -> 0 <= v -> cur <= cur * (1 + v).
Proof.
  intros Hc Hv. assert (0 <= cur * v) by (apply Qmult_le_0_compat; qlra).
  qlra.
Qed.

Lemma Qmult_shrink (cur v : Q) :
  0 < cur -> -1 < v -> v < 0 -> 0 < cur * (1 + v) /\ cur * (1 + v) < cur.
Proof.
  intros Hc Hv1 Hv2. split.
  - apply Qmult_lt_0_compat; qlra.
  - assert (0 < cur * (- v)) by (apply Qmult_lt_0_compat; qlra). qlra.
Qed.

Lemma nonneg_no_total_loss (rs : list Q) :
  Forall (fun v => 0 <= v) rs -> has_total_loss rs = false.
Proof.
  intros Hall. apply not_true_iff_false. rewrite has_total_loss_spec.
  intros (v & Hin & Hv). rewrite Forall_forall in Hall.
  specialize (Hall v Hin). rewrite Hv in Hall. now apply Hall.
Qed.

Lemma ldd_rising (rs : list Q) :
  Forall (fun v => 0 <= v) rs ->
  forall cur peak,
    0 < cur -> peak <= cur ->
    exists cur' peak',
      fold_left ldd_step rs (cur, peak, 0%nat, 0%nat)
      = (cur', peak', 0%nat, 0%nat).
Proof.
  induction 1 as [|v rs Hv _ IH]; intros cur peak Hc Hp.
  - now exists cur, peak.
  - cbn [fold_left ldd_step].
    pose proof (Qmult_grow cur v Hc Hv) as Hg.
    assert (Hle : Qle_bool peak (cur * (1 + v)) = true)
      by (apply Qle_bool_iff; qlra).
    rewrite Hle. apply IH; qlra.
Qed.

Lemma mdd_rising (rs : list Q) :
  Forall (fun v => 0 <= v) rs ->
  forall cur peak,
    0 < cur -> 0 < peak -> peak <= cur ->
    exists cur' peak',
      fold_left mdd_step rs (cur, peak, 0) = (cur', peak', 0).
Proof.
  induction 1 as [|v rs Hv _ IH]; intros cur peak Hc Hp Hpc.
  - now exists cur, peak.
  - cbn [fold_left mdd_step].
    pose proof (Qmult_grow cur v Hc Hv) as Hg.
    assert (Hpk : pymax peak (cur * (1 + v)) == cur * (1 + v)).
    { destruct (pymax_cases peak (cur * (1 + v))) as [[H ->]|[H ->]];
        [reflexivity | qlra]. }
    assert (Hx : - (1 - cur * (1 + v) / pymax peak (cur * (1 + v))) == 0).
    { rewrite Hpk. field. split; intros E; qlra. }
    assert (Hmin : pymin 0 (- (1 - cur * (1 + v)
                                   / pymax peak (cur * (1 + v)))) = 0).
    { destruct (pymin_cases 0 (- (1 - cur * (1 + v)
                                      / pymax peak (cur * (1 + v)))))
        as [[H _]|[_ ->]]; [exfalso; qlra | reflexivity]. }
    rewrite Hmin. apply IH; qlra.
Qed.

(** X3: On a series whose returns are never negative (and not empty) the
    drawdown is [round(0 * 100, 6)], which is 0, and the longest drawdown
    is 0. *)
Theorem rising_series_has_no_drawdown (data : frame) :
  dropna (Return_ data) <> [] ->
  Forall (fun v => 0 <= v) (dropna (Return_ data)) ->
  maximum_drawdown data = Return (round6 (0 * 100))
  /\ round6 (0 * 100) == 0
  /\ longest_drawdown data = Return 0%nat.
Proof.
  intros Hne Hall. unfold maximum_drawdown, longest_drawdown.
  destruct (dropna (Return_ data)) as [|r rs] eqn:E; [congruence|].
  rewrite (nonneg_no_total_loss _ Hall).
  destruct (mdd_rising _ Hall 1 1) as (c & p & ->); try qlra.
  destruct (ldd_rising _ Hall 1 1) as (c' & p' & ->); try qlra.
  split; [reflexivity|]. split; reflexivity.
Qed.

Definition rising_frame : frame :=
  mkFrame [0; 1; 2]%Z [100; 105; 105] (pct_change [100; 105; 105]).

Lemma rising_series_has_no_drawdown_witness :
  maximum_drawdown rising_frame = Return (round6 (0 * 100))
  /\ round6 (0 * 100) == 0
  /\ longest_drawdown rising_frame = Return 0%nat.
Proof.
  apply rising_series_has_no_drawdown.
  - vm_compute. discriminate.
  - vm_compute. repeat constructor; discriminate.
Defined.

Lemma falling_no_total_loss (rs : list Q) :
  Forall (fun v => -1 < v /\ v < 0) rs -> has_total_loss rs = false.
Proof.
  intros Hall. apply not_true_iff_false. rewrite has_total_loss_spec.
  intros (v & Hin & Hv). rewrite Forall_forall in Hall.
  destruct (Hall v Hin) as (H1 & _). rewrite Hv in H1.
  now apply Qlt_irrefl in H1.
Qed.

Lemma ldd_falling (rs : list Q) :
  Forall (fun v => -1 < v /\ v < 0) rs ->
  forall cur count,
    0 < cur -> cur <= 1 ->
    exists cur',
      fold_left ldd_step rs (cur, 1, count, 0%nat)
      = (cur', 1, (count + length rs)%nat, 0%nat).
Proof.
  induction 1 as [|v rs (Hv1 & Hv2) _ IH]; intros cur count Hc Hc1.
  - exists cur. cbn. now rewrite Nat.add_0_r.
  - cbn [fold_left ldd_step length].
    destruct (Qmult_shrink cur v Hc Hv1 Hv2) as (Hpos & Hlt).
    assert (Hle : Qle_bool 1 (cur * (1 + v)) = false).
    { apply not_true_iff_false. rewrite Qle_bool_iff. intros H. qlra. }
    rewrite Hle.
    destruct (IH (cur * (1 + v)) (S count) Hpos) as (c & ->); [qlra|].
    exists c. f_equal. f_equal. lia.
Qed.

(** X4: On a series whose returns are all negative (above -1, and not empty)
    every period is in drawdown: the longest drawdown is the number of
    periods. *)
Theorem falling_series_longest_drawdown (data : frame) :
  dropna (Return_ data) <> [] ->
  Forall (fun v => -1 < v /\ v < 0) (dropna (Return_ data)) ->
  longest_drawdown data = Return (length (dropna (Return_ data))).
Proof.
  intros Hne Hall. unfold longest_drawdown.
  destruct (dropna (Return_ data)) as [|r rs] eqn:E; [congruence|].
  rewrite (falling_no_total_loss _ Hall).
  destruct (ldd_falling _ Hall 1 0%nat) as (c & ->); try qlra.
  reflexivity.
Qed.

Definition falling_frame : frame :=
  mkFrame [0; 1; 2]%Z [100; 95; 90] (pct_change [100; 95; 90]).

Lemma falling_series_longest_drawdown_witness :
  longest_drawdown falling_frame
  = Return (length (dropna (Return_ falling_frame))).
Proof.
  apply falling_series_longest_drawdown.
  - vm_compute. discriminate.
  - vm_compute. repeat constructor; reflexivity.
Defined.

(** * visualize.py: the drawdown of the chart

    [visualize_trades] computes its own maximum drawdown from the asset
    column: [rolling_max = nav.cummax()], [drawdown = nav / rolling_max - 1],
    [mdd = drawdown.min()].  Those three locals are embedded here (the rest
    of the function draws). *)

(** [Series.cummax()]. *)
Fixpoint cummax_from (m : Q) (l : list Q) : list Q :=
  match l with
  | [] => []
  | a :: rest => pymax m a :: cummax_from (pymax m a) rest
  end.

Definition cummax (l : list Q) : list Q :=
  match l with
  | [] => []
  | a :: rest => a :: cummax_from a rest
  end.

(** [nav / rolling_max - 1], element by element. *)
Definition drawdown_series (nav rolling_max : list Q) : list Q :=
  map (fun am => fst am / snd am - 1) (combine nav rolling_max).

(** [Series.min()]; NaN ([None]) on the empty series. *)
Definition series_min (l : list Q) : option Q :=
  match l with
  | [] => None
  | a :: rest => Some (fold_left pymin rest a)
  end.

Definition visualize_mdd (nav : list Q) : option Q :=
  series_min (drawdown_series nav (cummax nav)).

(** ** It agrees with [maximum_drawdown] *)

Lemma pymax_comp (a a' b b' : Q) :
  a == a' -> b == b' -> pymax a b == pymax a' b'.
Proof.
  intros Ha Hb. unfold pymax, Qltb.
  rewrite (Qleb_comp _ _ Hb _ _ Ha). now destruct (Qle_bool b' a').
Qed.

Lemma pymin_comp (a a' b b' : Q) :
  a == a' -> b == b' -> pymin a b == pymin a' b'.
Proof.
  intros Ha Hb. unfold pymin, Qltb.
  rewrite (Qleb_comp _ _ Ha _ _ Hb). now destruct (Qle_bool a' b').
Qed.

Lemma pymax_scale (m a s : Q) :
  0 < s -> pymax (m / s) (a / s) == pymax m a / s.
Proof.
  intros Hs. unfold pymax.
  assert (Hlt : m / s < a / s <-> m < a).
  { unfold Qdiv. split; intros H.
    - apply Qmult_lt_r in H; [exact H | now apply Qinv_lt_0_compat].
    - apply Qmult_lt_r; [now apply Qinv_lt_0_compat | exact H]. }
  destruct (Qltb (m / s) (a / s)) eqn:E1, (Qltb m a) eqn:E2;
    try reflexivity.
  - apply Qltb_lt in E1. apply Hlt in E1. apply Qltb_ge in E2. exfalso. qlra.
  - apply Qltb_lt in E2. apply Hlt in E2. apply Qltb_ge in E1. exfalso. qlra.
Qed.

Lemma pymax_pos (m a : Q) : 0 < m -> 0 < pymax m a.
Proof.
  intros Hm. destruct (pymax_cases m a) as [[H ->]|[H ->]]; qlra.
Qed.

(** The returns [pct_change] puts after its leading NaN. *)
Fixpoint rets (prev : Q) (l : list Q) : list Q :=
  match l with
  | [] => []
  | a :: rest => (a / prev - 1) :: rets a rest
  end.

Lemma dropna_pct_change (prev : Q) (l : list Q) :
  Forall (fun a => 0 < a) (prev :: l) ->
  dropna (pct_change_from prev l) = rets prev l.
Proof.
  revert prev. induction l as [|a l IH]; intros prev Hall; [reflexivity|].
  inversion Hall as [|? ? Hp Hrest]; subst.
  cbn [pct_change_from rets].
  assert (E : Qeq_bool prev 0 = false).
  { apply Qeq_bool_false. intros H. rewrite H in Hp.
    now apply Qlt_irrefl in Hp. }
  rewrite E. cbn [dropna]. f_equal. now apply IH.
Qed.

Lemma rets_no_total_loss (prev : Q) (l : list Q) :
  Forall (fun a => 0 < a) (prev :: l) -> has_total_loss (rets prev l) = false.
Proof.
  revert prev. induction l as [|a l IH]; intros prev Hall; [reflexivity|].
  inversion Hall as [|? ? Hp Hrest]; subst.
  inversion Hrest as [|? ? Ha _]; subst.
  unfold has_total_loss in *. cbn [rets existsb].
  rewrite (IH a Hrest), orb_false_r.
  apply Qeq_bool_false. intros H.
  assert (Hq : a / prev == 0) by qlra.
  assert (Ha0 : a == 0).
  { setoid_replace a with (a / prev * prev) by (field; intros E; qlra).
    rewrite Hq. ring. }
  rewrite Ha0 in Ha. now apply Qlt_irrefl in Ha.
Qed.

(** One invariant ties the two loops: the index is the asset over the first
    asset, the peak is the running maximum over the first asset, and the
    running minima are equal. *)
Lemma mdd_matches_chart (a0 : Q) (l : list Q) :
  0 < a0 ->
  Forall (fun a => 0 < a) l ->
  forall prev big cur peak mdd low,
    0 < prev -> 0 < big ->
    cur == prev / a0 -> peak == big / a0 -> mdd == low ->
    snd (fold_left mdd_step (rets prev l) (cur, peak, mdd))
    == fold_left pymin (drawdown_series l (cummax_from big l)) low.
Proof.
  intros Ha0. induction 1 as [|a l Ha _ IH];
    intros prev big cur peak mdd low Hprev Hbig Hcur Hpeak Hmdd.
  - exact Hmdd.
  - cbn [rets fold_left mdd_step cummax_from drawdown_series combine map
         fst snd].
    fold (drawdown_series l (cummax_from (pymax big a) l)).
    pose proof (pymax_pos big a Hbig) as Hbig'.
    assert (Hcur' : cur * (1 + (a / prev - 1)) == a / a0).
    { rewrite Hcur. field. split; intros E; qlra. }
    assert (Hpeak' : pymax peak (cur * (1 + (a / prev - 1)))
                     == pymax big a / a0).
    { rewrite (pymax_comp _ (big / a0) _ (a / a0) Hpeak Hcur').
      now apply pymax_scale. }
    apply (IH a (pymax big a)); trivial.
    apply pymin_comp; [exact Hmdd|].
    rewrite Hpeak', Hcur'. field. split; intros E; qlra.
Qed.

(** The value of [mdd] when the loop of [maximum_drawdown] ends, before
    [round(mdd * 100, 6)]. *)
Definition peak_to_trough (period_returns : list Q) : Q :=
  snd (fold_left mdd_step period_returns (1, 1, 0)).

Lemma rounded_to_six_comp (x y v : Q) :
  x == y -> rounded_to_six x v -> rounded_to_six y v.
Proof.
  intros E (Hk & Hlo & Hhi). split; [exact Hk|]. split; qlra.
Qed.

(** X5: On a frame a runner returns (the return column is [pct_change] of the
    asset column) with at least two rows and positive asset values, the
    loop of [maximum_drawdown] ends on the drawdown the chart computes
    ([min] of [nav / nav.cummax() - 1]), in exact arithmetic; what
    [maximum_drawdown] returns is that value times 100 rounded to six
    decimals, a whole number of millionths within half a millionth of
    it. *)
Theorem maximum_drawdown_matches_chart (data : frame) (a0 a1 : Q)
    (rest : list Q) :
  Asset data = a0 :: a1 :: rest ->
  Return_ data = pct_change (Asset data) ->
  Forall (fun a => 0 < a) (Asset data) ->
  exists low v,
    visualize_mdd (Asset data) = Some low
    /\ peak_to_trough (dropna (Return_ data)) == low
    /\ maximum_drawdown data = Return v
    /\ rounded_to_six (low * 100) v.
Proof.
  intros HA HR Hall. rewrite HA in *.
  inversion Hall as [|? ? Ha0 Hrest]; subst.
  assert (Hm : peak_to_trough (rets a0 (a1 :: rest))
               == fold_left pymin
                    (drawdown_series (a1 :: rest)
                       (cummax_from a0 (a1 :: rest)))
                    (a0 / a0 - 1)).
  { apply (mdd_matches_chart a0 (a1 :: rest) Ha0 Hrest a0 a0 1 1 0
             (a0 / a0 - 1) Ha0 Ha0); field; intros E'; qlra. }
  unfold maximum_drawdown. rewrite HR. cbn [pct_change dropna].
  rewrite (dropna_pct_change a0 (a1 :: rest) Hall).
  eexists. exists (round6 (peak_to_trough (rets a0 (a1 :: rest)) * 100)).
  split; [reflexivity|]. split; [exact Hm|]. split.
  - destruct (rets a0 (a1 :: rest)) as [|r rs] eqn:E; [discriminate|].
    rewrite <- E, (rets_no_total_loss a0 (a1 :: rest) Hall).
    unfold peak_to_trough.
    now destruct (fold_left mdd_step (rets a0 (a1 :: rest)) (1, 1, 0))
      as [[c p] m].
  - apply (rounded_to_six_comp (peak_to_trough (rets a0 (a1 :: rest)) * 100));
      [now rewrite Hm|].
    apply round6_nearest.
Qed.

Lemma maximum_drawdown_matches_chart_witness :
  exists low v,
    visualize_mdd (Asset dip_frame) = Some low
    /\ peak_to_trough (dropna (Return_ dip_frame)) == low
    /\ maximum_drawdown dip_frame = Return v
    /\ rounded_to_six (low * 100) v.
Proof.
  apply (maximum_drawdown_matches_chart dip_frame 100 105 [94.5]);
    [reflexivity | reflexivity |].
  vm_compute. repeat constructor; reflexivity.
Defined.

(** * Further properties of the two ratios *)

Section RatioFacts.

Local Open Scope R_scope.

Lemma Rsum_const (c : R) (l : list R) :
  Forall (fun x => x = c) l -> Rsum l = INR (length l) * c.
Proof.
  induction 1 as [|x l Hx _ IH].
  - cbn. lra.
  - change (Rsum (x :: l)) with (x + Rsum l).
    rewrite IH, Hx. cbn [length]. rewrite S_INR. lra.
Qed.

Lemma Rmean_const (c : R) (l : list R) :
  l <> [] -> Forall (fun x => x = c) l -> Rmean l = c.
Proof.
  intros Hne Hall. unfold Rmean. rewrite (Rsum_const c l Hall).
  field. apply not_0_INR. destruct l; [congruence | discriminate].
Qed.

Lemma Rsum_zero (l : list R) : Forall (fun x => x = 0) l -> Rsum l = 0.
Proof. intros H. rewrite (Rsum_const 0 l H). lra. Qed.

Lemma Forall_map_Q2R (c : Q) (l : list Q) :
  Forall (fun v => (v == c)%Q) l -> Forall (fun x => x = Q2R c) (map Q2R l).
Proof.
  induction 1 as [|v l Hv _ IH]; cbn [map]; constructor; trivial.
  now apply Qeq_eqR.
Qed.

End RatioFacts.

(** X6: On a flat asset column (every period return is 0) the sample deviation
    is 0 and [sharpe_ratio] returns 0 as soon as there are two periods; with
    a single period the deviation, and with it the ratio, is NaN. *)
Theorem sharpe_ratio_of_flat_series (data : frame) (rf : Q) :
  Forall (fun v => v == 0) (dropna (Return_ data)) ->
  ((2 <= length (dropna (Return_ data)))%nat ->
   sharpe_ratio data rf = Return (Some 0%R))
  /\ (length (dropna (Return_ data)) = 1%nat ->
      sharpe_ratio data rf = Return None).
Proof.
  intros Hall. apply Forall_map_Q2R in Hall. unfold sharpe_ratio.
  destruct (dropna (Return_ data)) as [|v [|w rs]]; split; cbn [length];
    try lia; intros _; [reflexivity|].
  remember (map Q2R (v :: w :: rs)) as l eqn:El.
  assert (Hne : l <> []) by (subst l; discriminate).
  assert (Hstd : sample_std l = Some 0%R).
  { unfold sample_std. rewrite (Rmean_const (Q2R 0) l Hne Hall).
    rewrite Rsum_zero.
    - subst l. cbn [map]. f_equal. unfold Rdiv. rewrite Rmult_0_l.
      apply sqrt_0.
    - clear -Hall. induction Hall as [|x l Hx _ IH]; cbn [map];
        constructor; trivial. rewrite Hx. cbn. lra. }
  rewrite Hstd. subst l. cbn [map].
  destruct (Req_dec_T 0 0) as [_|H]; [reflexivity | now elim H].
Qed.

Definition level_frame : frame :=
  mkFrame [0; 1; 2]%Z [100; 100; 100] (pct_change [100; 100; 100]).

Lemma sharpe_ratio_of_flat_series_witness :
  sharpe_ratio level_frame default_risk_free_return = Return (Some 0%R).
Proof.
  destruct (sharpe_ratio_of_flat_series level_frame
              default_risk_free_return) as (H & _).
  - vm_compute. repeat constructor; reflexivity.
  - apply H. vm_compute. lia.
Defined.

(** X7: When every period return exceeds the risk-free rate there is no
    downside: the deviation is 0 and [sortino_ratio] returns 0. *)
Theorem sortino_ratio_without_downside (data : frame) (rf : Q) :
  dropna (Return_ data) <> [] ->
  Forall (fun v => rf < v) (dropna (Return_ data)) ->
  sortino_ratio data rf = Return 0%R.
Proof.
  intros Hne Hall. unfold sortino_ratio.
  destruct (dropna (Return_ data)) as [|v rs]; [congruence|].
  remember (map Q2R (v :: rs)) as l eqn:El.
  assert (Hz : Forall (fun x => x = 0%R) (map (downside_term (Q2R rf)) l)).
  { subst l. clear -Hall.
    induction Hall as [|x l Hx _ IH]; cbn [map]; constructor; trivial.
    unfold downside_term. apply Qlt_Rlt in Hx.
    now destruct (Rlt_dec (Q2R rf) (Q2R x)). }
  assert (Hd : sqrt (Rmean (map (downside_term (Q2R rf)) l)) = 0%R).
  { unfold Rmean. rewrite (Rsum_zero _ Hz). unfold Rdiv.
    rewrite Rmult_0_l. apply sqrt_0. }
  subst l. cbn [map] in *. rewrite Hd.
  destruct (Req_dec_T 0 0) as [_|H]; [reflexivity | now elim H].
Qed.

Definition steady_frame : frame :=
  mkFrame [0; 1; 2]%Z [100; 105; 110.25] (pct_change [100; 105; 110.25]).

Lemma sortino_ratio_without_downside_witness :
  sortino_ratio steady_frame 0.03093 = Return 0%R.
Proof.
  apply sortino_ratio_without_downside.
  - vm_compute. discriminate.
  - vm_compute. repeat constructor; reflexivity.
Defined.

(** * Further properties of the runners *)

(** ** Rows that are not processed *)

(** What a returned frame looks like outside the processed bars: the index
    is the input's, the asset column is as long, and row 0 and every row
    with an undefined indicator hold the initial capital. *)
Definition warm_up_untouched (data : list ohlc) (processed : nat -> bool)
    (out : outcome frame) : Prop :=
  forall f,
    out = Return f ->
    Index f = map Time data
    /\ length (Asset f) = length data
    /\ forall i, (i < length data)%nat ->
                 i = 0%nat \/ processed i = false ->
                 nth_error (Asset f) i = Some ASSET_VALUE.

Section FrameRows.

Context {S : Type}.
Variable cash_of : S -> Q.
Variable open_of : S -> list position.
Variable table_of : S -> asset_table.
Variable data : list ohlc.
Variable body : nat -> S -> outcome S.
Variable processed : nat -> bool.
Variable init : S.

Hypothesis body_skip :
  forall i st, processed i = false -> body i st = Return st.
Hypothesis body_mark :
  forall i st st',
    processed i = true -> body i st = Return st' ->
    exists v,
      table_of st' = loc_set (Time (iloc data i)) v (table_of st)
      /\ v == cash_of st' + total_unrealized (Close (iloc data i)) (open_of st').
Hypothesis init_table : table_of init = initial_table data.
Hypothesis unique_times : NoDup (map Time data).

Lemma loop_index (k : nat) :
  forall st,
    loop_prefix body k init = Return st ->
    map fst (table_of st) = map Time data.
Proof.
  induction k as [|k IH]; intros st Hloop.
  - apply Return_inj in Hloop. subst st. rewrite init_table.
    unfold initial_table. rewrite map_map. reflexivity.
  - apply loop_prefix_inv in Hloop as (st0 & Hprev & Hbody).
    destruct (processed (Datatypes.S k)) eqn:Hp.
    + destruct (body_mark _ _ _ Hp Hbody) as (v & -> & _).
      rewrite loc_set_index. now apply IH.
    + rewrite (body_skip _ _ Hp) in Hbody. apply Return_inj in Hbody.
      subst st. now apply IH.
Qed.

Lemma final_rows (st : S) :
  loop_prefix body (length data - 1) init = Return st ->
  Index (finish (table_of st)) = map Time data
  /\ length (Asset (finish (table_of st))) = length data
  /\ forall i, (i < length data)%nat ->
               i = 0%nat \/ processed i = false ->
               nth_error (Asset (finish (table_of st))) i = Some ASSET_VALUE.
Proof.
  intros Hloop. pose proof (loop_index _ _ Hloop) as Hidx.
  unfold finish. cbn [Index Asset]. split; [exact Hidx|]. split.
  - rewrite length_map, <- (length_map fst), Hidx. apply length_map.
  - intros i Hi Hcase.
    assert (Hk : (length data - 1 < length data)%nat) by lia.
    destruct (table_rows cash_of open_of table_of data body processed init
                body_skip body_mark init_table unique_times
                (length data - 1) st Hk Hloop i Hi) as (v & Hrow & Hv).
    rewrite nth_error_map, Hrow. cbn [option_map snd]. f_equal.
    destruct Hcase as [-> | Hp].
    + cbn in Hv. exact Hv.
    + rewrite Hp, andb_false_r in Hv. exact Hv.
Qed.

End FrameRows.

Section WarmUp.

Variable macd_diff : list Q -> Z -> Z -> Z -> list (option Q).
Variable rsi : list Q -> Z -> list (option Q).
Variable average_true_range :
  list Q -> list Q -> list Q -> Z -> list (option Q).

Variable data : list ohlc.
Variables fast_ema_window slow_ema_window ema_signal_window : Z.
Variables rsi_window rsi_threshold atr_window : Z.
Variable atr_multiplier : Q.
Variable p : hybrid_params.

Hypothesis unique_times : NoDup (map Time data).

Ltac warm_up shape_lemma skip_lemma mark_lemma cash_of open_of start :=
  intros f Hf;
  match type of Hf with
  | (st <- ?loop ;; _) = Return _ =>
      destruct loop as [e|st] eqn:E; cbn [bind] in Hf; [discriminate|];
      apply Return_inj in Hf; subst f;
      eapply (final_rows cash_of open_of _ data _ _ start);
      [ intros i st0 Hp; eapply skip_lemma; [|exact Hp];
        intros j; apply shape_lemma
      | intros i st0 st' Hp Hb; eapply mark_lemma; [|exact Hp|exact Hb];
        intros j; apply shape_lemma
      | reflexivity
      | exact unique_times
      | exact E ]
  end.

(** X8: With distinct timestamps, the frame of every runner keeps the input's
    index and length, and row 0 and the rows with an undefined indicator
    hold the initial capital. *)
Lemma runners_leave_warm_up :
  warm_up_untouched data
    (standalone_processed macd_diff rsi average_true_range data
       fast_ema_window slow_ema_window ema_signal_window rsi_window
       atr_window)
    (momentum_algo macd_diff rsi average_true_range data fast_ema_window
       slow_ema_window ema_signal_window rsi_window rsi_threshold
       atr_window atr_multiplier)
  /\ warm_up_untouched data
       (standalone_processed macd_diff rsi average_true_range data
          fast_ema_window slow_ema_window ema_signal_window rsi_window
          atr_window)
       (dynamic_momentum_algo macd_diff rsi average_true_range data
          fast_ema_window slow_ema_window ema_signal_window rsi_window
          rsi_threshold atr_window)
  /\ warm_up_untouched data
       (standalone_processed macd_diff rsi average_true_range data
          fast_ema_window slow_ema_window ema_signal_window rsi_window
          atr_window)
       (reversion_algo macd_diff rsi average_true_range data
          fast_ema_window slow_ema_window ema_signal_window rsi_window
          atr_window atr_multiplier)
  /\ warm_up_untouched data
       (standalone_processed macd_diff rsi average_true_range data
          fast_ema_window slow_ema_window ema_signal_window rsi_window
          atr_window)
       (dynamic_reversion_algo macd_diff rsi average_true_range data
          fast_ema_window slow_ema_window ema_signal_window rsi_window
          atr_window)
  /\ warm_up_untouched data
       (hybrid_processed macd_diff rsi average_true_range data p)
       (algo macd_diff rsi average_true_range data p)
  /\ warm_up_untouched data
       (hybrid_processed macd_diff rsi average_true_range data p)
       (dynamic_algo macd_diff rsi average_true_range data p).
Proof.
  unfold warm_up_untouched, momentum_algo, dynamic_momentum_algo,
    reversion_algo, dynamic_reversion_algo, algo, dynamic_algo.
  split; [|split; [|split; [|split; [|split]]]].
  - warm_up momentum_bar_shape standalone_skip standalone_mark
            cash holdings (initial_state data).
  - warm_up dynamic_momentum_bar_shape standalone_skip standalone_mark
            cash holdings (initial_state data).
  - warm_up reversion_bar_shape standalone_skip standalone_mark
            cash holdings (initial_state data).
  - warm_up dynamic_reversion_bar_shape standalone_skip standalone_mark
            cash holdings (initial_state data).
  - warm_up algo_bar_shape hybrid_skip hybrid_mark
            h_cash hybrid_open (initial_hybrid data).
  - warm_up dynamic_algo_bar_shape hybrid_skip hybrid_mark
            h_cash hybrid_open (initial_hybrid data).
Qed.

End WarmUp.

Lemma runners_leave_warm_up_witness :
  exists f,
    algo demo_macd_diff demo_rsi demo_atr demo_data demo_params = Return f
    /\ Index f = [0; 1; 2; 3; 4]%Z
    /\ length (Asset f) = 5%nat
    /\ nth_error (Asset f) 0 = Some ASSET_VALUE.
Proof.
  destruct (runners_leave_warm_up demo_macd_diff demo_rsi demo_atr demo_data
              12 26 9 14 30 14 2 demo_params demo_times_distinct)
    as (_ & _ & _ & _ & Halgo & _).
  destruct (algo demo_macd_diff demo_rsi demo_atr demo_data demo_params)
    as [e|f] eqn:E; [vm_compute in E; discriminate|].
  destruct (Halgo f eq_refl) as (Hi & Hl & Hrow).
  exists f. split; [reflexivity|]. split; [exact Hi|]. split; [exact Hl|].
  apply Hrow; [cbn; lia | now left].
Defined.

(** ** When a runner raises *)

Section Raising.

Variable macd_diff : list Q -> Z -> Z -> Z -> list (option Q).
Variable rsi : list Q -> Z -> list (option Q).
Variable average_true_range :
  list Q -> list Q -> list Q -> Z -> list (option Q).

Variable data : list ohlc.
Variables fast_ema_window slow_ema_window ema_signal_window : Z.
Variables rsi_window rsi_threshold atr_window : Z.
Variable atr_multiplier : Q.
Variable p : hybrid_params.

Hypothesis nonzero_closes :
  forall i, (1 <= i < length data)%nat -> ~ Close (iloc data i) == 0.

(** X9: No runner raises on a table whose closing prices (from the second row
    on) are all non-zero. *)
Lemma runners_never_raise :
  returns (momentum_algo macd_diff rsi average_true_range data
             fast_ema_window slow_ema_window ema_signal_window rsi_window
             rsi_threshold atr_window atr_multiplier)
  /\ returns (dynamic_momentum_algo macd_diff rsi average_true_range data
                fast_ema_window slow_ema_window ema_signal_window rsi_window
                rsi_threshold atr_window)
  /\ returns (reversion_algo macd_diff rsi average_true_range data
                fast_ema_window slow_ema_window ema_signal_window rsi_window
                atr_window atr_multiplier)
  /\ returns (dynamic_reversion_algo macd_diff rsi average_true_range data
                fast_ema_window slow_ema_window ema_signal_window rsi_window
                atr_window)
  /\ returns (algo macd_diff rsi average_true_range data p)
  /\ returns (dynamic_algo macd_diff rsi average_true_range data p).
Proof.
  assert (Hprice : forall i, (1 <= i <= length data - 1)%nat ->
                             ~ Close (iloc data i) == 0)
    by (intros i Hi; apply nonzero_closes; lia).
  destruct (runners_return macd_diff rsi average_true_range data
              fast_ema_window slow_ema_window ema_signal_window rsi_window
              rsi_threshold atr_window atr_multiplier p
              (length data - 1) Hprice)
    as ((s1 & H1) & (s2 & H2) & (s3 & H3) & (s4 & H4) & (s5 & H5)
        & (s6 & H6)).
  unfold momentum_algo, dynamic_momentum_algo, reversion_algo,
    dynamic_reversion_algo, algo, dynamic_algo.
  rewrite H1, H2, H3, H4, H5, H6. cbn [bind].
  repeat split; eexists; reflexivity.
Qed.

End Raising.

Lemma runners_never_raise_witness :
  returns (algo demo_macd_diff demo_rsi demo_atr demo_data demo_params).
Proof.
  assert (H : forall i, (1 <= i < length demo_data)%nat ->
                        ~ Close (iloc demo_data i) == 0).
  { intros i Hi. cbn in Hi.
    destruct i as [|[|[|[|[|i]]]]]; try lia; cbn; discriminate. }
  destruct (runners_never_raise demo_macd_diff demo_rsi demo_atr demo_data
              12 26 9 14 30 14 2 demo_params H) as (_ & _ & _ & _ & Ha & _).
  exact Ha.
Defined.

(** X10: A processed bar whose close is zero raises as soon as a track that is
    flat after the exits has an entry signal: [math.floor] gets an infinite
    quotient, or NaN when there is no cash either. *)
Theorem zero_close_with_signal_raises date cur_price atr mult ls ss lc sc cap
    st :
  cur_price == 0 ->
  holdings st = [] ->
  lc || sc = true ->
  bar_body date cur_price atr mult ls ss lc sc cap st
  = Raise (if Qeq_bool (cash st / 2) 0 then ValueError nan_msg
           else OverflowError).
Proof.
  intros Hp Hflat Hsig. unfold bar_body.
  rewrite Hflat, exit_positions_nil. unfold open_position, floor_div.
  assert (E : Qeq_bool (cur_price * price_multiplier) 0 = true).
  { apply Qeq_bool_iff. rewrite Hp. ring. }
  rewrite E. destruct lc; [reflexivity|].
  destruct sc; [reflexivity | discriminate].
Qed.

Lemma zero_close_with_signal_raises_witness :
  bar_body 1 0 5 2 false false true false (Some 3%Z)
           (mkState ASSET_VALUE [] [])
  = Raise OverflowError.
Proof.
  exact (zero_close_with_signal_raises 1 0 5 2 false false true false
           (Some 3%Z) (mkState ASSET_VALUE [] [])
           (Qeq_refl 0) eq_refl eq_refl).
Defined.

(** ** What a bar costs *)

(** The number of contracts in a list of positions. *)
Definition total_quantity (hs : list position) : Z :=
  fold_right (fun p acc => (quantity p + acc)%Z) 0%Z hs.

Lemma inject_Z_sub (a b : Z) : inject_Z (a - b) == inject_Z a - inject_Z b.
Proof.
  unfold Z.sub. rewrite inject_Z_plus, inject_Z_opp. ring.
Qed.

Lemma position_eqb_facts (p q : position) :
  position_eqb q p = true ->
  pos_type q = pos_type p /\ quantity q = quantity p.
Proof.
  unfold position_eqb. rewrite !andb_true_iff.
  intros (((((_ & Hs) & _) & Hq) & _) & _).
  split; [now destruct (pos_type q), (pos_type p) | now apply Z.eqb_eq].
Qed.

Lemma total_quantity_cons (p : position) (hs : list position) :
  total_quantity (p :: hs) = (quantity p + total_quantity hs)%Z.
Proof. reflexivity. Qed.

Lemma remove_effect cur_price (p : position) (hs : list position) :
  (0 < count_eq p hs)%nat ->
  total_unrealized cur_price (remove p hs)
  == total_unrealized cur_price hs - notional cur_price p
  /\ total_quantity (remove p hs) = (total_quantity hs - quantity p)%Z.
Proof.
  induction hs as [|q hs IH]; cbn [count_eq remove]; [lia|].
  intros Hc. destruct (position_eqb q p) eqn:E.
  - destruct (position_eqb_facts p q E) as (Hs & Hq).
    rewrite total_unrealized_cons, total_quantity_cons.
    split; [|lia].
    unfold notional. rewrite Hs, Hq. ring.
  - destruct (IH Hc) as (H1 & H2).
    rewrite !total_unrealized_cons, H1, !total_quantity_cons, H2.
    split; [ring | lia].
Qed.

Lemma settle_value cur_price cash (p : position) :
  settle cur_price cash p
  == cash + notional cur_price p - inject_Z (quantity p) * TAX * MULTIPLIER.
Proof. unfold settle, notional. destruct (pos_type p); ring. Qed.

Lemma count_dominates_step cur_price ls ss p rest cash hs :
  (forall r, count_eq r (p :: rest) <= count_eq r hs)%nat ->
  forall r,
    (count_eq r rest
     <= count_eq r (snd (exit_step cur_price ls ss (cash, hs) p)))%nat.
Proof.
  intros Hcount r. rewrite exit_step_unfold.
  assert (Hp : (0 < count_eq p hs)%nat).
  { specialize (Hcount p). cbn [count_eq] in Hcount.
    rewrite position_eqb_refl in Hcount. lia. }
  specialize (Hcount r) as Hr. cbn [count_eq] in Hr.
  destruct (exit_fires cur_price ls ss p); cbn [snd]; [|lia].
  destruct (position_eqb p r) eqn:E.
  - rewrite (count_eq_congr p r (remove p hs) E).
    rewrite (count_eq_congr p r hs E) in Hr.
    pose proof (count_eq_remove_same p hs Hp). lia.
  - rewrite (count_eq_remove_other p r hs E). lia.
Qed.

Lemma exit_fold_cost cur_price ls ss (snapshot : list position) :
  forall cash hs,
    (forall r, count_eq r snapshot <= count_eq r hs)%nat ->
    fst (fold_left (exit_step cur_price ls ss) snapshot (cash, hs))
    + total_unrealized cur_price
        (snd (fold_left (exit_step cur_price ls ss) snapshot (cash, hs)))
    == cash + total_unrealized cur_price hs
       - inject_Z (total_quantity hs
                   - total_quantity
                       (snd (fold_left (exit_step cur_price ls ss) snapshot
                                       (cash, hs))))
         * TAX * MULTIPLIER.
Proof.
  induction snapshot as [|p rest IH]; intros cash hs Hcount.
  - cbn [fold_left fst snd]. rewrite Z.sub_diag. ring.
  - cbn [fold_left].
    pose proof (count_dominates_step cur_price ls ss p rest cash hs Hcount)
      as Hdom.
    assert (Hp : (0 < count_eq p hs)%nat).
    { specialize (Hcount p). cbn [count_eq] in Hcount.
      rewrite position_eqb_refl in Hcount. lia. }
    rewrite exit_step_unfold in *.
    destruct (exit_fires cur_price ls ss p); cbn [snd] in Hdom.
    + rewrite (IH _ _ Hdom).
      destruct (remove_effect cur_price p hs Hp) as (H1 & H2).
      pose proof (settle_value cur_price cash p) as Hs.
      rewrite H2, !inject_Z_sub.
      unfold TAX, MULTIPLIER in *. qlra.
    + apply IH. exact Hdom.
Qed.

(** Closing positions changes cash plus mark-to-market, taken at the
    current price, by nothing but the tax on the contracts closed. *)
Lemma exit_positions_cost cur_price ls ss cash hs :
  fst (exit_positions cur_price ls ss cash hs)
  + total_unrealized cur_price (snd (exit_positions cur_price ls ss cash hs))
  == cash + total_unrealized cur_price hs
     - inject_Z (total_quantity hs
                 - total_quantity
                     (snd (exit_positions cur_price ls ss cash hs)))
       * TAX * MULTIPLIER.
Proof. apply exit_fold_cost. intros r. lia. Qed.

(** X11: Over a whole processed bar, entries included: the account value at the
    bar's close differs from the value the bar started with (at the same
    close) by the tax on the contracts its exits closed.  First the
    standalone runners, then the hybrid ones with both tracks. *)
Theorem bar_costs_only_exit_tax :
  (forall date cur_price atr mult ls ss lc sc cap st st',
      bar_body date cur_price atr mult ls ss lc sc cap st = Return st' ->
      cash st' + total_unrealized cur_price (holdings st')
      == cash st + total_unrealized cur_price (holdings st)
         - inject_Z (total_quantity (holdings st)
                     - total_quantity
                         (snd (exit_positions cur_price ls ss (cash st)
                                              (holdings st))))
           * TAX * MULTIPLIER)
  /\ (forall date cur_price atr_m mult_m mls mss mlc msc
             atr_r mult_r rls rss rlc rsc st st',
         hybrid_body date cur_price atr_m mult_m mls mss mlc msc
                     atr_r mult_r rls rss rlc rsc st = Return st' ->
         h_cash st' + total_unrealized cur_price (hybrid_open st')
         == h_cash st + total_unrealized cur_price (hybrid_open st)
            - inject_Z
                (total_quantity (holdings_momentum st)
                 - total_quantity
                     (snd (exit_positions cur_price mls mss (h_cash st)
                                          (holdings_momentum st)))
                 + (total_quantity (holdings_reversion st)
                    - total_quantity
                        (snd (exit_positions cur_price rls rss
                                (fst (exit_positions cur_price mls mss
                                        (h_cash st) (holdings_momentum st)))
                                (holdings_reversion st)))))
              * TAX * MULTIPLIER).
Proof.
  split.
  - intros date cur_price atr mult ls ss lc sc cap st st' H.
    apply bar_body_inv in H as (cash1 & hs1 & ch & Hex & Hent & ->).
    cbn [cash holdings].
    rewrite (entry_conserves _ _ _ _ _ _ _ _ _ Hent).
    pose proof (exit_positions_cost cur_price ls ss (cash st) (holdings st))
      as Hc.
    rewrite Hex in *. cbn [fst snd] in *. exact Hc.
  - intros date cur_price atr_m mult_m mls mss mlc msc
           atr_r mult_r rls rss rlc rsc st st' H.
    apply hybrid_body_inv in H
      as (cash1 & mom1 & cash2 & rev1 & cm & cr & E1 & E2 & Hm & Hr & ->).
    unfold hybrid_open. cbn [h_cash holdings_momentum holdings_reversion].
    pose proof (entry_conserves _ _ _ _ _ _ _ _ _ Hm) as Cm.
    pose proof (entry_conserves _ _ _ _ _ _ _ _ _ Hr) as Cr.
    pose proof (exit_positions_cost cur_price mls mss (h_cash st)
                  (holdings_momentum st)) as X1.
    rewrite E1 in *. cbn [fst snd] in *.
    pose proof (exit_positions_cost cur_price rls rss cash1
                  (holdings_reversion st)) as X2.
    rewrite E2 in *. cbn [fst snd] in *.
    rewrite !total_unrealized_app, inject_Z_plus, !inject_Z_sub.
    rewrite !inject_Z_sub in X1, X2. qlra.
Qed.

(** Bar 3 of the worked run closes 45 contracts. *)
Lemma bar_costs_only_exit_tax_witness :
  exists st',
    demo_bar3_body demo_state2 = Return st'
    /\ h_cash st' + total_unrealized 120 (hybrid_open st')
       == h_cash demo_state2 + total_unrealized 120 (hybrid_open demo_state2)
          - inject_Z 45 * TAX * MULTIPLIER.
Proof.
  destruct bar_costs_only_exit_tax as (_ & H).
  destruct (demo_bar3_body demo_state2) as [e|st'] eqn:E;
    [vm_compute in E; discriminate|].
  exists st'. split; [reflexivity|].
  unfold demo_bar3_body, algo_bar in E.
  rewrite (H _ _ _ _ _ _ _ _ _ _ _ _ _ _ _ _ E).
  vm_compute. reflexivity.
Defined.

(** ** Invariants of the open positions *)

Section PositionInvariant.

(** [P] holds of every LONG the entry block can open and of every SHORT of
    at most [3] contracts; [Pm] of every LONG and every SHORT. *)
Variables P Pm : position -> Prop.

Hypothesis P_long :
  forall date cur_price q atr mult,
    (0 < q)%Z -> P (long_position date cur_price q atr mult).
Hypothesis P_short :
  forall date cur_price q atr mult,
    (0 < q)%Z -> (q <= 3)%Z -> P (short_position date cur_price q atr mult).
Hypothesis Pm_long :
  forall date cur_price q atr mult,
    (0 < q)%Z -> Pm (long_position date cur_price q atr mult).
Hypothesis Pm_short :
  forall date cur_price q atr mult,
    (0 < q)%Z -> Pm (short_position date cur_price q atr mult).

Lemma remove_forall (Q0 : position -> Prop) (p : position)
    (hs : list position) :
  Forall Q0 hs -> Forall Q0 (remove p hs).
Proof.
  induction 1 as [|q hs Hq Hrest IH]; cbn [remove]; [constructor|].
  destruct (position_eqb q p); [assumption | now constructor].
Qed.

Lemma exit_fold_forall (Q0 : position -> Prop) cur_price ls ss
    (snapshot : list position) :
  forall cash hs,
    Forall Q0 hs ->
    Forall Q0 (snd (fold_left (exit_step cur_price ls ss) snapshot
                              (cash, hs))).
Proof.
  induction snapshot as [|p rest IH]; intros cash hs Hall; [exact Hall|].
  cbn [fold_left]. rewrite exit_step_unfold.
  destruct (exit_fires cur_price ls ss p); apply IH; trivial.
  now apply remove_forall.
Qed.

Lemma exit_forall (Q0 : position -> Prop) cur_price ls ss cash hs :
  Forall Q0 hs -> Forall Q0 (snd (exit_positions cur_price ls ss cash hs)).
Proof. apply exit_fold_forall. Qed.

Lemma entry_capped_forall date cur_price atr mult available_cash cash hs ch :
  entry_result date cur_price atr mult available_cash (Some 3%Z)
               cash hs ch ->
  Forall P hs -> Forall P (snd ch).
Proof.
  intros [ | q _ _ Hq | q _ Hcap Hq ] Hall; cbn [snd]; trivial;
    constructor; try constructor.
  - now apply P_long.
  - apply P_short; [exact Hq|]. rewrite Hcap. cbn [capped]. lia.
Qed.

Lemma entry_bare_forall date cur_price atr mult available_cash cash hs ch :
  entry_result date cur_price atr mult available_cash None cash hs ch ->
  Forall Pm hs -> Forall Pm (snd ch).
Proof.
  intros [ | q _ _ Hq | q _ _ Hq ] Hall; cbn [snd]; trivial;
    constructor; try constructor.
  - now apply Pm_long.
  - now apply Pm_short.
Qed.

Lemma standalone_positions (data : list ohlc)
    (body : nat -> state -> outcome state) (processed : nat -> bool) :
  (forall i, standalone_bar (body i) (Time (iloc data i))
                            (Close (iloc data i)) (processed i)) ->
  always (fun st => Forall P (holdings st))
         (fun k => loop_prefix body k (initial_state data)).
Proof.
  intros shape k. induction k as [|k IH]; intros st Hloop.
  - apply Return_inj in Hloop. subst st. constructor.
  - apply loop_prefix_inv in Hloop as (st0 & Hprev & Hbody).
    specialize (IH st0 Hprev). pose proof (shape (S k)) as Hs.
    unfold standalone_bar in Hs. destruct (processed (S k)).
    + destruct Hs as (atr & mult & ls & ss & lc & sc & Hs).
      rewrite Hs in Hbody.
      apply bar_body_inv in Hbody as (cash1 & hs1 & ch & Hex & Hent & ->).
      cbn [holdings]. eapply entry_capped_forall; [exact Hent|].
      pose proof (exit_forall P (Close (iloc data (S k))) ls ss (cash st0)
                    (holdings st0) IH) as Hx.
      now rewrite Hex in Hx.
    + rewrite Hs in Hbody. apply Return_inj in Hbody. now subst st.
Qed.

Lemma hybrid_positions (data : list ohlc)
    (body : nat -> hybrid_state -> outcome hybrid_state)
    (processed : nat -> bool) :
  (forall i, hybrid_bar (body i) (Time (iloc data i))
                        (Close (iloc data i)) (processed i)) ->
  always (fun st => Forall Pm (holdings_momentum st)
                    /\ Forall P (holdings_reversion st))
         (fun k => loop_prefix body k (initial_hybrid data)).
Proof.
  intros shape k. induction k as [|k IH]; intros st Hloop.
  - apply Return_inj in Hloop. subst st. split; constructor.
  - apply loop_prefix_inv in Hloop as (st0 & Hprev & Hbody).
    destruct (IH st0 Hprev) as (IHm & IHr). pose proof (shape (S k)) as Hs.
    unfold hybrid_bar in Hs. destruct (processed (S k)).
    + destruct Hs as (a1 & m1 & b1 & b2 & b3 & b4 & a2 & m2
                      & b5 & b6 & b7 & b8 & Hs).
      rewrite Hs in Hbody.
      apply hybrid_body_inv in Hbody
        as (cash1 & mom1 & cash2 & rev1 & cm & cr & E1 & E2 & Hem & Her & ->).
      cbn [holdings_momentum holdings_reversion].
      pose proof (exit_forall Pm (Close (iloc data (S k))) b1 b2 (h_cash st0)
                    (holdings_momentum st0) IHm) as X1.
      pose proof (exit_forall P (Close (iloc data (S k))) b5 b6 cash1
                    (holdings_reversion st0) IHr) as X2.
      rewrite E1 in X1. rewrite E2 in X2. cbn [snd] in X1, X2. split.
      * eapply entry_bare_forall; eassumption.
      * eapply entry_capped_forall; eassumption.
    + rewrite Hs in Hbody. apply Return_inj in Hbody. now subst st.
Qed.

End PositionInvariant.

Definition positive_quantity (pos : position) : Prop := (0 < quantity pos)%Z.

Definition short_at_most_three (pos : position) : Prop :=
  pos_type pos = SHORT -> (quantity pos <= 3)%Z.

(** X12: Every position a runner ever holds has a positive quantity. *)
Theorem open_positions_have_positive_quantity
    (macd_diff : list Q -> Z -> Z -> Z -> list (option Q))
    (rsi : list Q -> Z -> list (option Q))
    (average_true_range : list Q -> list Q -> list Q -> Z -> list (option Q))
    (data : list ohlc)
    (fast_ema_window slow_ema_window ema_signal_window rsi_window : Z)
    (rsi_threshold atr_window : Z) (atr_multiplier : Q) (p : hybrid_params) :
  always (fun st => Forall positive_quantity (holdings st))
    (momentum_loop macd_diff rsi average_true_range data fast_ema_window
       slow_ema_window ema_signal_window rsi_window rsi_threshold
       atr_window atr_multiplier)
  /\ always (fun st => Forall positive_quantity (holdings st))
       (dynamic_momentum_loop macd_diff rsi average_true_range data
          fast_ema_window slow_ema_window ema_signal_window rsi_window
          rsi_threshold atr_window)
  /\ always (fun st => Forall positive_quantity (holdings st))
       (reversion_loop macd_diff rsi average_true_range data
          fast_ema_window slow_ema_window ema_signal_window rsi_window
          atr_window atr_multiplier)
  /\ always (fun st => Forall positive_quantity (holdings st))
       (dynamic_reversion_loop macd_diff rsi average_true_range data
          fast_ema_window slow_ema_window ema_signal_window rsi_window
          atr_window)
  /\ always (fun st => Forall positive_quantity (holdings_momentum st)
                       /\ Forall positive_quantity (holdings_reversion st))
       (algo_loop macd_diff rsi average_true_range data p)
  /\ always (fun st => Forall positive_quantity (holdings_momentum st)
                       /\ Forall positive_quantity (holdings_reversion st))
       (dynamic_algo_loop macd_diff rsi average_true_range data p).
Proof.
  assert (HL : forall date cur_price q atr mult, (0 < q)%Z ->
               positive_quantity (long_position date cur_price q atr mult))
    by (intros; assumption).
  assert (HS : forall date cur_price q atr mult, (0 < q)%Z ->
               positive_quantity (short_position date cur_price q atr mult))
    by (intros; assumption).
  assert (HS3 : forall date cur_price q atr mult, (0 < q)%Z -> (q <= 3)%Z ->
                positive_quantity (short_position date cur_price q atr mult))
    by (intros; assumption).
  split; [|split; [|split; [|split; [|split]]]].
  - eapply (standalone_positions positive_quantity HL HS3).
    intros i. apply momentum_bar_shape.
  - eapply (standalone_positions positive_quantity HL HS3).
    intros i. apply dynamic_momentum_bar_shape.
  - eapply (standalone_positions positive_quantity HL HS3).
    intros i. apply reversion_bar_shape.
  - eapply (standalone_positions positive_quantity HL HS3).
    intros i. apply dynamic_reversion_bar_shape.
  - eapply (hybrid_positions positive_quantity positive_quantity HL HS3 HL HS).
    intros i. apply algo_bar_shape.
  - eapply (hybrid_positions positive_quantity positive_quantity HL HS3 HL HS).
    intros i. apply dynamic_algo_bar_shape.
Qed.

(** X13: In every state of the four standalone runners, and on the reversion
    track of the two hybrid ones, a SHORT position holds at most 3
    contracts. *)
Theorem short_positions_capped_where_capped
    (macd_diff : list Q -> Z -> Z -> Z -> list (option Q))
    (rsi : list Q -> Z -> list (option Q))
    (average_true_range : list Q -> list Q -> list Q -> Z -> list (option Q))
    (data : list ohlc)
    (fast_ema_window slow_ema_window ema_signal_window rsi_window : Z)
    (rsi_threshold atr_window : Z) (atr_multiplier : Q) (p : hybrid_params) :
  always (fun st => Forall short_at_most_three (holdings st))
    (momentum_loop macd_diff rsi average_true_range data fast_ema_window
       slow_ema_window ema_signal_window rsi_window rsi_threshold
       atr_window atr_multiplier)
  /\ always (fun st => Forall short_at_most_three (holdings st))
       (dynamic_momentum_loop macd_diff rsi average_true_range data
          fast_ema_window slow_ema_window ema_signal_window rsi_window
          rsi_threshold atr_window)
  /\ always (fun st => Forall short_at_most_three (holdings st))
       (reversion_loop macd_diff rsi average_true_range data
          fast_ema_window slow_ema_window ema_signal_window rsi_window
          atr_window atr_multiplier)
  /\ always (fun st => Forall short_at_most_three (holdings st))
       (dynamic_reversion_loop macd_diff rsi average_true_range data
          fast_ema_window slow_ema_window ema_signal_window rsi_window
          atr_window)
  /\ always (fun st => Forall short_at_most_three (holdings_reversion st))
       (algo_loop macd_diff rsi average_true_range data p)
  /\ always (fun st => Forall short_at_most_three (holdings_reversion st))
       (dynamic_algo_loop macd_diff rsi average_true_range data p).
Proof.
  assert (HL : forall date cur_price q atr mult, (0 < q)%Z ->
               short_at_most_three (long_position date cur_price q atr mult))
    by (intros; discriminate).
  assert (HS3 : forall date cur_price q atr mult, (0 < q)%Z -> (q <= 3)%Z ->
                short_at_most_three
                  (short_position date cur_price q atr mult))
    by (intros; intros _; assumption).
  assert (HT : forall (date : Z) (cur_price : Q) (q : Z) (atr mult : Q),
               (0 < q)%Z -> True) by trivial.
  split; [|split; [|split; [|split; [|split]]]].
  - eapply (standalone_positions short_at_most_three HL HS3).
    intros i. apply momentum_bar_shape.
  - eapply (standalone_positions short_at_most_three HL HS3).
    intros i. apply dynamic_momentum_bar_shape.
  - eapply (standalone_positions short_at_most_three HL HS3).
    intros i. apply reversion_bar_shape.
  - eapply (standalone_positions short_at_most_three HL HS3).
    intros i. apply dynamic_reversion_bar_shape.
  - intros k st Hloop.
    eapply (hybrid_positions short_at_most_three (fun _ => True) HL HS3
              HT HT); [|exact Hloop].
    intros i. apply algo_bar_shape.
  - intros k st Hloop.
    eapply (hybrid_positions short_at_most_three (fun _ => True) HL HS3
              HT HT); [|exact Hloop].
    intros i. apply dynamic_algo_bar_shape.
Qed.

(** ** Entries and cash *)

Lemma floor_quantity_cost (available_cash cur_price : Q) :
  0 < cur_price ->
  inject_Z (Qfloor (available_cash / (cur_price * price_multiplier)))
  * cur_price * price_multiplier <= available_cash.
Proof.
  intros Hp.
  assert (Hc : 0 < cur_price * price_multiplier).
  { rewrite price_multiplier_value. qlra. }
  pose proof (Qfloor_le (available_cash / (cur_price * price_multiplier)))
    as Hf.
  apply (Qmult_le_compat_r _ _ (cur_price * price_multiplier)) in Hf;
    [|qlra].
  setoid_replace (available_cash / (cur_price * price_multiplier)
                  * (cur_price * price_multiplier))
    with available_cash in Hf
    by (field; split; [exact price_multiplier_nonzero | intros E; qlra]).
  eapply Qle_trans; [|exact Hf]. apply Qle_lteq. right. ring.
Qed.

Lemma Qhalf (x : Q) : x / 2 == x * (1 # 2).
Proof. reflexivity. Qed.

Lemma entry_cash_bound date cur_price atr mult available_cash cap cash hs ch :
  entry_result date cur_price atr mult available_cash cap cash hs ch ->
  0 < cur_price -> 0 <= available_cash ->
  cash - available_cash <= fst ch.
Proof.
  intros [ | q _ Hq _ | q _ _ Hq ] Hp Ha; cbn [fst].
  - qlra.
  - pose proof (floor_quantity_cost available_cash cur_price Hp) as Hc.
    rewrite <- Hq in Hc. qlra.
  - assert (0 <= inject_Z q * cur_price * price_multiplier); [|qlra].
    rewrite price_multiplier_value.
    assert (0 <= inject_Z q) by (rewrite <- (Zle_Qle 0); lia).
    assert (0 <= inject_Z q * cur_price)
      by (apply Qmult_le_0_compat; qlra).
    apply Qmult_le_0_compat; [assumption | discriminate].
Qed.

(** X14: Entries never overdraw the account.  At a positive close, when the cash
    left by the exits is not negative, a standalone bar ends with at least
    half of it, and a hybrid bar, whose two tracks may each commit the same
    half, ends with cash that is not negative. *)
Theorem entries_never_overdraw :
  (forall date cur_price atr mult ls ss lc sc cap st st',
      bar_body date cur_price atr mult ls ss lc sc cap st = Return st' ->
      0 < cur_price ->
      0 <= fst (exit_positions cur_price ls ss (cash st) (holdings st)) ->
      fst (exit_positions cur_price ls ss (cash st) (holdings st)) / 2
      <= cash st')
  /\ (forall date cur_price atr_m mult_m mls mss mlc msc
             atr_r mult_r rls rss rlc rsc st st',
         hybrid_body date cur_price atr_m mult_m mls mss mlc msc
                     atr_r mult_r rls rss rlc rsc st = Return st' ->
         0 < cur_price ->
         0 <= fst (exit_positions cur_price rls rss
                     (fst (exit_positions cur_price mls mss (h_cash st)
                                          (holdings_momentum st)))
                     (holdings_reversion st)) ->
         0 <= h_cash st').
Proof.
  split.
  - intros date cur_price atr mult ls ss lc sc cap st st' H Hp Hc.
    apply bar_body_inv in H as (cash1 & hs1 & ch & Hex & Hent & ->).
    rewrite Hex in *. cbn [fst cash] in *.
    pose proof (entry_cash_bound _ _ _ _ _ _ _ _ _ Hent Hp) as Hb.
    pose proof (Qhalf cash1) as Hh. rewrite Hh in Hb |- *. qlra.
  - intros date cur_price atr_m mult_m mls mss mlc msc
           atr_r mult_r rls rss rlc rsc st st' H Hp Hc.
    apply hybrid_body_inv in H
      as (cash1 & mom1 & cash2 & rev1 & cm & cr & E1 & E2 & Hm & Hr & ->).
    rewrite E1 in *. cbn [fst] in *. rewrite E2 in *. cbn [fst h_cash] in *.
    pose proof (Qhalf cash2) as Hh.
    pose proof (entry_cash_bound _ _ _ _ _ _ _ _ _ Hm Hp) as Bm.
    pose proof (entry_cash_bound _ _ _ _ _ _ _ _ _ Hr Hp) as Br.
    rewrite Hh in Bm, Br. qlra.
Qed.

Lemma entries_never_overdraw_witness :
  exists st',
    demo_bar3_body demo_state2 = Return st' /\ 0 <= h_cash st'.
Proof.
  destruct entries_never_overdraw as (_ & H).
  destruct (demo_bar3_body demo_state2) as [e|st'] eqn:E;
    [vm_compute in E; discriminate|].
  exists st'. split; [reflexivity|].
  unfold demo_bar3_body, algo_bar in E.
  apply (H _ _ _ _ _ _ _ _ _ _ _ _ _ _ _ _ E); [reflexivity|].
  vm_compute. discriminate.
Defined.

(** ** The dynamic runners against the static ones *)

Lemma loop_prefix_ext {S : Type} (body1 body2 : nat -> S -> outcome S)
    (k : nat) (init : S) :
  (forall i st, (1 <= i <= k)%nat -> body1 i st = body2 i st) ->
  loop_prefix body1 k init = loop_prefix body2 k init.
Proof.
  induction k as [|k IH]; intros Hext; [reflexivity|].
  rewrite !loop_prefix_succ, IH by (intros i st Hi; apply Hext; lia).
  destruct (loop_prefix body2 k init) as [e|st]; cbn [bind]; [reflexivity|].
  apply Hext. lia.
Qed.

(** [p] with its two ATR multipliers replaced. *)
Definition with_multipliers (p : hybrid_params) (m r : Q) : hybrid_params :=
  mkParams (momentum_fast_ema p) (momentum_slow_ema p)
           (momentum_signal_ema p) (momentum_rsi_window p)
           (momentum_rsi_threshold p) (momentum_atr_window p) m
           (reversion_fast_ema p) (reversion_slow_ema p)
           (reversion_signal_ema p) (reversion_rsi_window p)
           (reversion_atr_window p) r.

(** The multiplier a dynamic runner picks in a regime. *)
Definition regime_multiplier (higher : bool) : Q :=
  if higher then 2.0 else 1.5.

(** X15: While the comparison of the short with the long volatility column comes
    out the same way on every bar of the loop, a dynamic runner returns what
    its static counterpart returns with the multiplier of that regime.  In
    [dynamic_algo] only the reversion comparison matters: the momentum
    multiplier is 2.0 in both regimes. *)
Theorem dynamic_runner_in_one_regime
    (macd_diff : list Q -> Z -> Z -> Z -> list (option Q))
    (rsi : list Q -> Z -> list (option Q))
    (average_true_range : list Q -> list Q -> list Q -> Z -> list (option Q))
    (data : list ohlc)
    (fast_ema_window slow_ema_window ema_signal_window rsi_window : Z)
    (rsi_threshold atr_window : Z) (p : hybrid_params) (higher : bool) :
  ((forall i, (1 <= i < length data)%nat ->
              cell_gt (cell (atr_column average_true_range data 10) i)
                      (cell (atr_column average_true_range data 50) i)
              = higher) ->
   dynamic_momentum_algo macd_diff rsi average_true_range data
     fast_ema_window slow_ema_window ema_signal_window rsi_window
     rsi_threshold atr_window
   = momentum_algo macd_diff rsi average_true_range data
       fast_ema_window slow_ema_window ema_signal_window rsi_window
       rsi_threshold atr_window (regime_multiplier higher)
   /\ dynamic_reversion_algo macd_diff rsi average_true_range data
        fast_ema_window slow_ema_window ema_signal_window rsi_window
        atr_window
      = reversion_algo macd_diff rsi average_true_range data
          fast_ema_window slow_ema_window ema_signal_window rsi_window
          atr_window (regime_multiplier higher))
  /\ ((forall i, (1 <= i < length data)%nat ->
                 cell_gt (cell (atr_column average_true_range data 7) i)
                         (cell (atr_column average_true_range data 14) i)
                 = higher) ->
      dynamic_algo macd_diff rsi average_true_range data p
      = algo macd_diff rsi average_true_range data
          (with_multipliers p 2.0 (regime_multiplier higher))).
Proof.
  split.
  - intros Hreg.
    unfold dynamic_momentum_algo, momentum_algo, dynamic_reversion_algo,
      reversion_algo, dynamic_momentum_loop, momentum_loop,
      dynamic_reversion_loop, reversion_loop.
    split; f_equal; apply loop_prefix_ext; intros i st Hi;
      unfold dynamic_momentum_bar, momentum_bar, dynamic_reversion_bar,
        reversion_bar;
      rewrite Hreg by lia; reflexivity.
  - intros Hreg. unfold dynamic_algo, algo, dynamic_algo_loop, algo_loop.
    f_equal. apply loop_prefix_ext. intros i st Hi.
    unfold dynamic_algo_bar, algo_bar. cbn [with_multipliers
      momentum_fast_ema momentum_slow_ema momentum_signal_ema
      momentum_rsi_window momentum_rsi_threshold momentum_atr_window
      momentum_atr_multiplier reversion_fast_ema reversion_slow_ema
      reversion_signal_ema reversion_rsi_window reversion_atr_window
      reversion_atr_multiplier].
    rewrite Hreg by lia.
    destruct (cell_gt _ _); reflexivity.
Qed.

(** In the worked run the volatility columns do not depend on the window,
    so no short reading exceeds the long one. *)
Lemma dynamic_runner_in_one_regime_witness :
  dynamic_algo demo_macd_diff demo_rsi demo_atr demo_data demo_params
  = algo demo_macd_diff demo_rsi demo_atr demo_data
      (with_multipliers demo_params 2.0 1.5).
Proof.
  destruct (dynamic_runner_in_one_regime demo_macd_diff demo_rsi demo_atr
              demo_data 12 26 9 14 30 14 demo_params false) as (_ & H).
  apply H. intros i Hi. cbn in Hi.
  destruct i as [|[|[|[|[|i]]]]]; try lia; reflexivity.
Defined.

(** ** Runs without an entry signal *)

(** What the metrics make of a frame that never left the initial capital. *)
Definition flat_report (rows : nat) (f : frame) : Prop :=
  length (Asset f) = rows
  /\ Forall (fun a => a == ASSET_VALUE) (Asset f)
  /\ ((2 <= rows)%nat ->
      holding_period_returns f = Return (Some (round6 0))
      /\ maximum_drawdown f = Return (round6 (0 * 100))
      /\ longest_drawdown f = Return 0%nat).

Lemma loc_set_flat (date : Z) (v : Q) (t : asset_table) :
  v == ASSET_VALUE ->
  Forall (fun r => snd r == ASSET_VALUE) t ->
  Forall (fun r => snd r == ASSET_VALUE) (loc_set date v t).
Proof.
  intros Hv Hall. unfold loc_set. apply Forall_map.
  eapply Forall_impl; [|exact Hall].
  intros [d a] Ha. cbn [fst snd] in *. now destruct (d =? date)%Z.
Qed.

Lemma flat_returns (prev : Q) (l : list Q) :
  prev == ASSET_VALUE ->
  Forall (fun a => a == ASSET_VALUE) l ->
  Forall (fun v => v == 0) (dropna (pct_change_from prev l))
  /\ length (dropna (pct_change_from prev l)) = length l.
Proof.
  intros Hp Hall. revert prev Hp.
  induction Hall as [|a l Ha _ IH]; intros prev Hp; [now split|].
  cbn [pct_change_from].
  assert (E : Qeq_bool prev 0 = false).
  { apply Qeq_bool_false. rewrite Hp. discriminate. }
  rewrite E. cbn [dropna length]. destruct (IH a Ha) as (H1 & H2).
  split; [|now rewrite H2]. constructor; [|exact H1].
  rewrite Ha, Hp. reflexivity.
Qed.

Lemma zero_returns_nonneg (rs : list Q) :
  Forall (fun v => v == 0) rs -> Forall (fun v => 0 <= v) rs.
Proof.
  intros H. eapply Forall_impl; [|exact H]. intros v Hv. rewrite Hv.
  apply Qle_refl.
Qed.

Lemma last_flat (l : list Q) (d : Q) :
  d == ASSET_VALUE -> Forall (fun a => a == ASSET_VALUE) l ->
  last l d == ASSET_VALUE.
Proof.
  intros Hd Hall. induction Hall as [|a l Ha Hl IH]; [exact Hd|].
  destruct l as [|b l]; [exact Ha | exact IH].
Qed.

Lemma flat_frame_metrics (f : frame) :
  Forall (fun a => a == ASSET_VALUE) (Asset f) ->
  Return_ f = pct_change (Asset f) ->
  (2 <= length (Asset f))%nat ->
  holding_period_returns f = Return (Some (round6 0))
  /\ maximum_drawdown f = Return (round6 (0 * 100))
  /\ longest_drawdown f = Return 0%nat
  /\ Forall (fun v => v == 0) (dropna (Return_ f))
  /\ S (length (dropna (Return_ f))) = length (Asset f).
Proof.
  intros HA HR Hlen.
  unfold holding_period_returns, maximum_drawdown, longest_drawdown.
  rewrite HR.
  destruct (Asset f) as [|a0 [|a1 rest]]; try (cbn in Hlen; lia).
  inversion HA as [|? ? Ha0 Hrest]; subst.
  destruct (flat_returns a0 (a1 :: rest) Ha0 Hrest) as (Hz & Hl).
  cbn [pct_change dropna].
  split; [|split; [|split; [|split]]].
  - assert (E0 : Qeq_bool a0 0 = false).
    { apply Qeq_bool_false. rewrite Ha0. discriminate. }
    rewrite E0. do 2 f_equal. apply round6_comp.
    rewrite (last_flat (a0 :: a1 :: rest) a0 Ha0 HA), Ha0. reflexivity.
  - destruct (dropna (pct_change_from a0 (a1 :: rest))) as [|r rs] eqn:Er;
      [discriminate|].
    pose proof (zero_returns_nonneg _ Hz) as Hn.
    rewrite (nonneg_no_total_loss _ Hn).
    destruct (mdd_rising _ Hn 1 1) as (c & p & ->); try qlra.
    reflexivity.
  - destruct (dropna (pct_change_from a0 (a1 :: rest))) as [|r rs] eqn:Er;
      [discriminate|].
    rewrite (flat_no_total_loss _ Hz).
    destruct (ldd_flat _ Hz 1 1 (Qle_refl 1)) as (c & p & -> & _).
    reflexivity.
  - exact Hz.
  - now rewrite Hl.
Qed.

Lemma flat_table_report (t : asset_table) :
  Forall (fun r => snd r == ASSET_VALUE) t ->
  flat_report (length t) (finish t).
Proof.
  intros Hall.
  assert (HA : Forall (fun a => a == ASSET_VALUE) (Asset (finish t)))
    by (unfold finish; cbn [Asset]; apply Forall_map; exact Hall).
  assert (HL : length (Asset (finish t)) = length t)
    by (unfold finish; cbn [Asset]; apply length_map).
  unfold flat_report. split; [exact HL|]. split; [exact HA|].
  intros Hlen.
  destruct (flat_frame_metrics (finish t) HA eq_refl ltac:(lia))
    as (H1 & H2 & H3 & _).
  now repeat split.
Qed.

Lemma initial_table_flat (data : list ohlc) :
  Forall (fun r => snd r == ASSET_VALUE) (initial_table data)
  /\ length (initial_table data) = length data.
Proof.
  unfold initial_table. split; [|apply length_map].
  apply Forall_map. apply Forall_forall. intros r _. reflexivity.
Qed.

Lemma loc_set_length (date : Z) (v : Q) (t : asset_table) :
  length (loc_set date v t) = length t.
Proof. unfold loc_set. apply length_map. Qed.

(** A standalone loop whose processed bars carry no entry signal stays
    flat and never raises. *)
Lemma standalone_idle_loop (data : list ohlc)
    (body : nat -> state -> outcome state) (k : nat) :
  (forall i st, (1 <= i <= k)%nat ->
     body i st = Return st
     \/ exists atr mult ls ss cap,
          body i st = bar_body (Time (iloc data i)) (Close (iloc data i))
                               atr mult ls ss false false cap st) ->
  exists t,
    loop_prefix body k (initial_state data)
    = Return (mkState ASSET_VALUE [] t)
    /\ Forall (fun r => snd r == ASSET_VALUE) t
    /\ length t = length data.
Proof.
  induction k as [|k IH]; intros Hidle.
  - exists (initial_table data). split; [reflexivity|].
    apply initial_table_flat.
  - destruct IH as (t & Hloop & Hflat & Hlen);
      [intros i st Hi; apply Hidle; lia|].
    rewrite loop_prefix_succ, Hloop. cbn [bind].
    destruct (Hidle (S k) (mkState ASSET_VALUE [] t) ltac:(lia))
      as [-> | (atr & mult & ls & ss & cap & ->)].
    + now exists t.
    + unfold bar_body. cbn [cash holdings trading_data].
      rewrite exit_positions_nil, open_position_idle. cbn [bind fst snd].
      eexists. split; [reflexivity|]. split.
      * apply loc_set_flat; [|exact Hflat].
        rewrite total_unrealized_nil. ring.
      * now rewrite loc_set_length.
Qed.

Lemma hybrid_idle_loop (data : list ohlc)
    (body : nat -> hybrid_state -> outcome hybrid_state) (k : nat) :
  (forall i st, (1 <= i <= k)%nat ->
     body i st = Return st
     \/ exists atr_m mult_m mls mss atr_r mult_r rls rss,
          body i st = hybrid_body (Time (iloc data i)) (Close (iloc data i))
                        atr_m mult_m mls mss false false
                        atr_r mult_r rls rss false false st) ->
  exists t,
    loop_prefix body k (initial_hybrid data)
    = Return (mkHybrid ASSET_VALUE [] [] t)
    /\ Forall (fun r => snd r == ASSET_VALUE) t
    /\ length t = length data.
Proof.
  induction k as [|k IH]; intros Hidle.
  - exists (initial_table data). split; [reflexivity|].
    apply initial_table_flat.
  - destruct IH as (t & Hloop & Hflat & Hlen);
      [intros i st Hi; apply Hidle; lia|].
    rewrite loop_prefix_succ, Hloop. cbn [bind].
    destruct (Hidle (S k) (mkHybrid ASSET_VALUE [] [] t) ltac:(lia))
      as [-> | (a1 & m1 & b1 & b2 & a2 & m2 & b3 & b4 & ->)].
    + now exists t.
    + unfold hybrid_body.
      cbn [h_cash holdings_momentum holdings_reversion h_trading_data].
      rewrite !exit_positions_nil, !open_position_idle. cbn [bind fst snd].
      rewrite open_position_idle. cbn [bind fst snd].
      eexists. split; [reflexivity|]. split.
      * apply loc_set_flat; [|exact Hflat].
        cbn [app]. rewrite total_unrealized_nil. ring.
      * now rewrite loc_set_length.
Qed.

Definition cell_zero (c : option Q) : Prop :=
  match c with Some m => m == 0 | None => True end.

Lemma zero_is_unsigned (m : Q) :
  m == 0 -> Qltb 0 m = false /\ Qltb m 0 = false.
Proof.
  intros H. split; apply Qltb_ge; rewrite H; apply Qle_refl.
Qed.

Lemma idle_frame (S : Type) (table_of : S -> asset_table)
    (loop : outcome S) (rows : nat) :
  (exists st, loop = Return st
              /\ Forall (fun r => snd r == ASSET_VALUE) (table_of st)
              /\ length (table_of st) = rows) ->
  exists f, (st <- loop ;; Return (finish (table_of st))) = Return f
            /\ flat_report rows f.
Proof.
  intros (st & -> & Hflat & <-). cbn [bind]. eexists. split; [reflexivity|].
  now apply flat_table_report.
Qed.

Lemma standalone_idle (data : list ohlc)
    (body : nat -> state -> outcome state) (k : nat) :
  (forall i st, (1 <= i <= k)%nat ->
     body i st = Return st
     \/ exists atr mult ls ss cap,
          body i st = bar_body (Time (iloc data i)) (Close (iloc data i))
                               atr mult ls ss false false cap st) ->
  exists st, loop_prefix body k (initial_state data) = Return st
             /\ Forall (fun r => snd r == ASSET_VALUE) (trading_data st)
             /\ length (trading_data st) = length data.
Proof.
  intros H. destruct (standalone_idle_loop data body k H)
    as (t & Hloop & Hflat & Hlen).
  eexists. split; [exact Hloop|]. now split.
Qed.

Lemma hybrid_idle (data : list ohlc)
    (body : nat -> hybrid_state -> outcome hybrid_state) (k : nat) :
  (forall i st, (1 <= i <= k)%nat ->
     body i st = Return st
     \/ exists atr_m mult_m mls mss atr_r mult_r rls rss,
          body i st = hybrid_body (Time (iloc data i)) (Close (iloc data i))
                        atr_m mult_m mls mss false false
                        atr_r mult_r rls rss false false st) ->
  exists st, loop_prefix body k (initial_hybrid data) = Return st
             /\ Forall (fun r => snd r == ASSET_VALUE) (h_trading_data st)
             /\ length (h_trading_data st) = length data.
Proof.
  intros H. destruct (hybrid_idle_loop data body k H)
    as (t & Hloop & Hflat & Hlen).
  eexists. split; [exact Hloop|]. now split.
Qed.

Section FlatHistogram.

Variable macd_diff : list Q -> Z -> Z -> Z -> list (option Q).
Variable rsi : list Q -> Z -> list (option Q).
Variable average_true_range :
  list Q -> list Q -> list Q -> Z -> list (option Q).

Variable data : list ohlc.
Variables fast_ema_window slow_ema_window ema_signal_window : Z.
Variables rsi_window rsi_threshold atr_window : Z.
Variable atr_multiplier : Q.
Variable p : hybrid_params.

Definition flat_histogram (window_slow window_fast window_sign : Z) : Prop :=
  forall i,
    cell_zero (cell (macd_diff (map Close data) window_slow window_fast
                               window_sign) i).

(** X16: Every entry condition of every runner tests the sign of the MACD
    histogram: where the histogram is zero on every row, no runner ever
    trades, none raises (whatever the closing prices), the asset column
    stays at the initial capital and the report is 0 % return, 0 % maximum
    drawdown and a longest drawdown of 0 periods. *)
Theorem flat_histogram_never_trades :
  (flat_histogram fast_ema_window slow_ema_window ema_signal_window ->
   (exists f, momentum_algo macd_diff rsi average_true_range data
                fast_ema_window slow_ema_window ema_signal_window rsi_window
                rsi_threshold atr_window atr_multiplier = Return f
              /\ flat_report (length data) f)
   /\ (exists f, dynamic_momentum_algo macd_diff rsi average_true_range data
                   fast_ema_window slow_ema_window ema_signal_window
                   rsi_window rsi_threshold atr_window = Return f
                 /\ flat_report (length data) f)
   /\ (exists f, reversion_algo macd_diff rsi average_true_range data
                   fast_ema_window slow_ema_window ema_signal_window
                   rsi_window atr_window atr_multiplier = Return f
                 /\ flat_report (length data) f)
   /\ (exists f, dynamic_reversion_algo macd_diff rsi average_true_range
                   data fast_ema_window slow_ema_window ema_signal_window
                   rsi_window atr_window = Return f
                 /\ flat_report (length data) f))
  /\ (flat_histogram (momentum_slow_ema p) (momentum_fast_ema p)
                     (momentum_signal_ema p) ->
      flat_histogram (reversion_slow_ema p) (reversion_fast_ema p)
                     (reversion_signal_ema p) ->
      (exists f, algo macd_diff rsi average_true_range data p = Return f
                 /\ flat_report (length data) f)
      /\ (exists f, dynamic_algo macd_diff rsi average_true_range data p
                    = Return f
                    /\ flat_report (length data) f)).
Proof.
  split.
  - intros Hflat0.
    assert (Hz : forall i m,
               cell (macd_diff (map Close data) fast_ema_window
                               slow_ema_window ema_signal_window) i = Some m ->
               Qltb 0 m = false /\ Qltb m 0 = false).
    { intros i m E. apply zero_is_unsigned. specialize (Hflat0 i).
      now rewrite E in Hflat0. }
    repeat split.
    + apply (idle_frame state trading_data).
      unfold momentum_loop. apply standalone_idle.
      intros i st _. cbv beta. unfold momentum_bar.
      destruct (cell (rsi _ _) i); [|now left].
      destruct (cell (macd_diff _ _ _ _) i) as [m|] eqn:E; [|now left].
      destruct (cell (atr_column _ _ _) i); [|now left].
      destruct (Hz i m E) as (-> & ->). right.
      do 5 eexists. reflexivity.
    + apply (idle_frame state trading_data).
      unfold dynamic_momentum_loop. apply standalone_idle.
      intros i st _. cbv beta. unfold dynamic_momentum_bar.
      destruct (cell (rsi _ _) i); [|now left].
      destruct (cell (macd_diff _ _ _ _) i) as [m|] eqn:E; [|now left].
      destruct (cell (atr_column _ _ atr_window) i); [|now left].
      destruct (Hz i m E) as (-> & ->). right.
      do 5 eexists. reflexivity.
    + apply (idle_frame state trading_data).
      unfold reversion_loop. apply standalone_idle.
      intros i st _. cbv beta. unfold reversion_bar.
      destruct (cell (rsi _ _) i); [|now left].
      destruct (cell (macd_diff _ _ _ _) i) as [m|] eqn:E; [|now left].
      destruct (cell (atr_column _ _ _) i); [|now left].
      destruct (Hz i m E) as (-> & ->). right.
      do 5 eexists. reflexivity.
    + apply (idle_frame state trading_data).
      unfold dynamic_reversion_loop. apply standalone_idle.
      intros i st _. cbv beta. unfold dynamic_reversion_bar.
      destruct (cell (rsi _ _) i); [|now left].
      destruct (cell (macd_diff _ _ _ _) i) as [m|] eqn:E; [|now left].
      destruct (cell (atr_column _ _ atr_window) i); [|now left].
      destruct (Hz i m E) as (-> & ->). right.
      do 5 eexists. reflexivity.
  - intros Hm Hr.
    assert (Hzm : forall i m,
               cell (macd_diff (map Close data) (momentum_slow_ema p)
                       (momentum_fast_ema p) (momentum_signal_ema p)) i
               = Some m ->
               Qltb 0 m = false /\ Qltb m 0 = false).
    { intros i m E. apply zero_is_unsigned. specialize (Hm i).
      now rewrite E in Hm. }
    assert (Hzr : forall i m,
               cell (macd_diff (map Close data) (reversion_slow_ema p)
                       (reversion_fast_ema p) (reversion_signal_ema p)) i
               = Some m ->
               Qltb 0 m = false /\ Qltb m 0 = false).
    { intros i m E. apply zero_is_unsigned. specialize (Hr i).
      now rewrite E in Hr. }
    split.
    + apply (idle_frame hybrid_state h_trading_data).
      unfold algo_loop. apply hybrid_idle.
      intros i st _. cbv beta. unfold algo_bar.
      destruct (cell (rsi _ (momentum_rsi_window p)) i); [|now left].
      destruct (cell (macd_diff _ (momentum_slow_ema p) _ _) i) as [m|] eqn:E;
        [|now left].
      destruct (cell (atr_column _ _ (momentum_atr_window p)) i); [|now left].
      destruct (cell (rsi _ (reversion_rsi_window p)) i); [|now left].
      destruct (cell (macd_diff _ (reversion_slow_ema p) _ _) i) as [r|] eqn:F;
        [|now left].
      destruct (cell (atr_column _ _ (reversion_atr_window p)) i);
        [|now left].
      destruct (Hzm i m E) as (-> & ->). destruct (Hzr i r F) as (-> & ->).
      right. do 8 eexists. reflexivity.
    + apply (idle_frame hybrid_state h_trading_data).
      unfold dynamic_algo_loop. apply hybrid_idle.
      intros i st _. cbv beta. unfold dynamic_algo_bar.
      destruct (cell (rsi _ (momentum_rsi_window p)) i); [|now left].
      destruct (cell (macd_diff _ (momentum_slow_ema p) _ _) i) as [m|] eqn:E;
        [|now left].
      destruct (cell (atr_column _ _ (momentum_atr_window p)) i); [|now left].
      destruct (cell (rsi _ (reversion_rsi_window p)) i); [|now left].
      destruct (cell (macd_diff _ (reversion_slow_ema p) _ _) i) as [r|] eqn:F;
        [|now left].
      destruct (cell (atr_column _ _ (reversion_atr_window p)) i);
        [|now left].
      destruct (Hzm i m E) as (-> & ->). destruct (Hzr i r F) as (-> & ->).
      right. do 8 eexists. reflexivity.
Qed.

End FlatHistogram.

Lemma flat_histogram_never_trades_witness :
  exists f,
    reversion_algo demo_macd_diff demo_rsi demo_atr demo_data 10 30 9 10 10 2
    = Return f
    /\ flat_report (length demo_data) f.
Proof.
  assert (H : flat_histogram demo_macd_diff demo_data 10 30 9).
  { intros i. destruct i as [|[|[|[|[|[|i]]]]]]; cbn; try reflexivity;
      exact I. }
  destruct (flat_histogram_never_trades demo_macd_diff demo_rsi demo_atr
              demo_data 10 30 9 10 30 10 2 demo_params)
    as (Hs & _).
  destruct (Hs H) as (_ & _ & Hr & _). exact Hr.
Defined.

(** ** A momentum threshold of 50 or more *)

(** The momentum LONG entry needs [50 < RSI < 100 - threshold] and the
    SHORT entry [threshold < RSI < 50]: both windows are empty from 50 on. *)
Lemma momentum_window_empty (threshold : Z) (rsi_value macd : Q) :
  (50 <= threshold)%Z ->
  Qltb 0 macd
  && (Qltb 50 rsi_value && Qltb rsi_value (100 - inject_Z threshold)) = false
  /\ Qltb macd 0
     && (Qltb (inject_Z threshold) rsi_value && Qltb rsi_value 50) = false.
Proof.
  intros Ht.
  assert (Hq : 50 <= inject_Z threshold).
  { change 50 with (inject_Z 50). now rewrite <- Zle_Qle. }
  split.
  - destruct (Qltb 0 macd); [|reflexivity]. cbn [andb].
    destruct (Qltb 50 rsi_value) eqn:E; [|reflexivity]. cbn [andb].
    apply Qltb_lt in E. apply Qltb_ge. qlra.
  - destruct (Qltb macd 0); [|reflexivity]. cbn [andb].
    destruct (Qltb (inject_Z threshold) rsi_value) eqn:E; [|reflexivity].
    cbn [andb]. apply Qltb_lt in E. apply Qltb_ge. qlra.
Qed.

Lemma hybrid_body_momentum_idle date cur_price atr_m mult_m mls mss
    atr_r mult_r rls rss rlc rsc st st' :
  holdings_momentum st = [] ->
  hybrid_body date cur_price atr_m mult_m mls mss false false
              atr_r mult_r rls rss rlc rsc st = Return st' ->
  holdings_momentum st' = [].
Proof.
  intros Hflat H. unfold hybrid_body in H.
  rewrite Hflat, exit_positions_nil in H.
  destruct (exit_positions cur_price rls rss (h_cash st)
              (holdings_reversion st)) as [cash2 rev1].
  rewrite open_position_idle in H. state_simpl in H.
  destruct (open_position date cur_price atr_r mult_r (cash2 / 2) rlc rsc
              (Some 3%Z) cash2 rev1) as [e|cr]; [discriminate|].
  state_simpl in H. apply Return_inj in H. now subst st'.
Qed.

Lemma momentum_track_stays_empty (data : list ohlc)
    (body : nat -> hybrid_state -> outcome hybrid_state) :
  (forall i st,
     body i st = Return st
     \/ exists atr_m mult_m mls mss atr_r mult_r rls rss rlc rsc,
          body i st = hybrid_body (Time (iloc data i)) (Close (iloc data i))
                        atr_m mult_m mls mss false false
                        atr_r mult_r rls rss rlc rsc st) ->
  always (fun st => holdings_momentum st = [])
         (fun k => loop_prefix body k (initial_hybrid data)).
Proof.
  intros Hbody k. induction k as [|k IH]; intros st' H.
  - cbn in H. apply Return_inj in H. now subst st'.
  - apply loop_prefix_inv in H. destruct H as (st & Hk & Hstep).
    specialize (IH st Hk). cbv beta in IH.
    destruct (Hbody (S k) st)
      as [E | (a1 & m1 & b1 & b2 & a2 & m2 & b3 & b4 & b5 & b6 & E)];
      rewrite E in Hstep.
    + apply Return_inj in Hstep. now subst st'.
    + eapply hybrid_body_momentum_idle; [exact IH | exact Hstep].
Qed.

Section HighThreshold.

Variable macd_diff : list Q -> Z -> Z -> Z -> list (option Q).
Variable rsi : list Q -> Z -> list (option Q).
Variable average_true_range :
  list Q -> list Q -> list Q -> Z -> list (option Q).

Variable data : list ohlc.
Variables fast_ema_window slow_ema_window ema_signal_window : Z.
Variables rsi_window rsi_threshold atr_window : Z.
Variable atr_multiplier : Q.
Variable p : hybrid_params.

(** X17: With an RSI threshold of 50 or more the momentum strategy has no
    entry window left: the two standalone momentum runners never trade
    (flat asset column, 0 % return, no drawdown, no error on any price
    table), and the momentum track of the hybrid runners never holds a
    position. *)
Theorem momentum_threshold_from_fifty_never_trades :
  ((50 <= rsi_threshold)%Z ->
   (exists f, momentum_algo macd_diff rsi average_true_range data
                fast_ema_window slow_ema_window ema_signal_window rsi_window
                rsi_threshold atr_window atr_multiplier = Return f
              /\ flat_report (length data) f)
   /\ (exists f, dynamic_momentum_algo macd_diff rsi average_true_range data
                   fast_ema_window slow_ema_window ema_signal_window
                   rsi_window rsi_threshold atr_window = Return f
                 /\ flat_report (length data) f))
  /\ ((50 <= momentum_rsi_threshold p)%Z ->
      always (fun st => holdings_momentum st = [])
             (algo_loop macd_diff rsi average_true_range data p)
      /\ always (fun st => holdings_momentum st = [])
                (dynamic_algo_loop macd_diff rsi average_true_range data p)).
Proof.
  split; intros Ht; split.
  - apply (idle_frame state trading_data).
    unfold momentum_loop. apply standalone_idle.
    intros i st _. cbv beta. unfold momentum_bar.
    destruct (cell (rsi _ _) i) as [r|]; [|now left].
    destruct (cell (macd_diff _ _ _ _) i) as [m|]; [|now left].
    destruct (cell (atr_column _ _ _) i); [|now left].
    destruct (momentum_window_empty rsi_threshold r m Ht) as (-> & ->).
    right. do 5 eexists. reflexivity.
  - apply (idle_frame state trading_data).
    unfold dynamic_momentum_loop. apply standalone_idle.
    intros i st _. cbv beta. unfold dynamic_momentum_bar.
    destruct (cell (rsi _ _) i) as [r|]; [|now left].
    destruct (cell (macd_diff _ _ _ _) i) as [m|]; [|now left].
    destruct (cell (atr_column _ _ atr_window) i); [|now left].
    destruct (momentum_window_empty rsi_threshold r m Ht) as (-> & ->).
    right. do 5 eexists. reflexivity.
  - unfold algo_loop. apply momentum_track_stays_empty.
    intros i st. unfold algo_bar.
    destruct (cell (rsi _ (momentum_rsi_window p)) i) as [r|]; [|now left].
    destruct (cell (macd_diff _ (momentum_slow_ema p) _ _) i) as [m|];
      [|now left].
    destruct (cell (atr_column _ _ (momentum_atr_window p)) i); [|now left].
    destruct (cell (rsi _ (reversion_rsi_window p)) i); [|now left].
    destruct (cell (macd_diff _ (reversion_slow_ema p) _ _) i); [|now left].
    destruct (cell (atr_column _ _ (reversion_atr_window p)) i); [|now left].
    destruct (momentum_window_empty (momentum_rsi_threshold p) r m Ht)
      as (-> & ->).
    right. do 10 eexists. reflexivity.
  - unfold dynamic_algo_loop. apply momentum_track_stays_empty.
    intros i st. unfold dynamic_algo_bar.
    destruct (cell (rsi _ (momentum_rsi_window p)) i) as [r|]; [|now left].
    destruct (cell (macd_diff _ (momentum_slow_ema p) _ _) i) as [m|];
      [|now left].
    destruct (cell (atr_column _ _ (momentum_atr_window p)) i); [|now left].
    destruct (cell (rsi _ (reversion_rsi_window p)) i); [|now left].
    destruct (cell (macd_diff _ (reversion_slow_ema p) _ _) i); [|now left].
    destruct (cell (atr_column _ _ (reversion_atr_window p)) i); [|now left].
    destruct (momentum_window_empty (momentum_rsi_threshold p) r m Ht)
      as (-> & ->).
    right. do 10 eexists. reflexivity.
Qed.

End HighThreshold.

Lemma momentum_threshold_from_fifty_never_trades_witness :
  exists f,
    momentum_algo demo_macd_diff demo_rsi demo_atr demo_data 12 26 9 14 50 14
                  2 = Return f
    /\ flat_report (length demo_data) f.
Proof.
  destruct (momentum_threshold_from_fifty_never_trades demo_macd_diff
              demo_rsi demo_atr demo_data 12 26 9 14 50 14 2 demo_params)
    as (Hs & _).
  destruct (Hs ltac:(lia)) as (Hm & _). exact Hm.
Defined.

(** * optimize.py: the score *)

Section Score.

Local Open Scope R_scope.

(** [loss_score]: [round(hpr + mdd / 10 - ldd / 100
    + ((sharpe + sortino) / 2) ** 3, 6)]. *)
Definition loss_score (hpr mdd : R) (ldd : nat) (sharpe sortino : R) : R :=
  round6R (hpr + mdd / 10 - INR ldd / 100 + ((sharpe + sortino) / 2) ^ 3).

Lemma Int_part_mono (x y : R) : x <= y -> (Int_part x <= Int_part y)%Z.
Proof.
  intros Hxy. destruct (base_Int_part x) as (Hx1 & Hx2).
  destruct (base_Int_part y) as (Hy1 & Hy2).
  destruct (Z_le_gt_dec (Int_part x) (Int_part y)) as [H|H]; [exact H|].
  assert (H' : (Int_part y + 1 <= Int_part x)%Z) by lia.
  apply IZR_le in H'. rewrite plus_IZR in H'. lra.
Qed.

Lemma rintR_between (x : R) :
  (Int_part x <= rintR x <= Int_part x + 1)%Z.
Proof.
  unfold rintR. destruct (Rlt_dec _ (1 / 2)); [lia|].
  destruct (Rlt_dec (1 / 2) _); [lia|]. destruct (Z.even _); lia.
Qed.

Lemma rintR_mono (x y : R) : x <= y -> (rintR x <= rintR y)%Z.
Proof.
  intros Hxy. pose proof (Int_part_mono _ _ Hxy) as Hf.
  pose proof (rintR_between x) as Bx. pose proof (rintR_between y) as By.
  destruct (Z.eq_dec (Int_part x) (Int_part y)) as [E|NE]; [|lia].
  unfold rintR in *. rewrite <- E.
  destruct (Rlt_dec (x - IZR (Int_part x)) (1 / 2)) as [X1|X1].
  - destruct (Rlt_dec (y - IZR (Int_part x)) (1 / 2)); [lia|].
    destruct (Rlt_dec (1 / 2) (y - IZR (Int_part x))); [lia|].
    destruct (Z.even (Int_part x)); lia.
  - destruct (Rlt_dec (y - IZR (Int_part x)) (1 / 2)) as [Y1|Y1];
      [exfalso; lra|].
    destruct (Rlt_dec (1 / 2) (x - IZR (Int_part x))) as [X2|X2].
    + destruct (Rlt_dec (1 / 2) (y - IZR (Int_part x))) as [Y2|Y2]; [lia|].
      exfalso. lra.
    + destruct (Rlt_dec (1 / 2) (y - IZR (Int_part x))); [|lia].
      destruct (Z.even (Int_part x)); lia.
Qed.

Lemma round6R_mono (x y : R) : x <= y -> round6R x <= round6R y.
Proof.
  intros Hxy. unfold round6R.
  assert (H : (rintR (x * 1000000) <= rintR (y * 1000000))%Z)
    by (apply rintR_mono; lra).
  apply IZR_le in H. lra.
Qed.

Lemma rintR_IZR (z : Z) : rintR (IZR z) = z.
Proof.
  assert (E : Int_part (IZR z) = z) by (symmetry; apply Int_part_spec; lra).
  unfold rintR. rewrite E.
  destruct (Rlt_dec (IZR z - IZR z) (1 / 2)) as [_|H]; [reflexivity|].
  exfalso. lra.
Qed.

Lemma cube_mono (x y : R) : x <= y -> x ^ 3 <= y ^ 3.
Proof.
  intros H.
  assert (E : y ^ 3 - x ^ 3
              = (y - x) * ((y + x / 2) ^ 2 + 3 / 4 * x ^ 2)) by field.
  assert (H1 : 0 <= (y + x / 2) ^ 2) by apply pow2_ge_0.
  assert (H2 : 0 <= x ^ 2) by apply pow2_ge_0.
  assert (H3 : 0 <= (y - x) * ((y + x / 2) ^ 2 + 3 / 4 * x ^ 2))
    by (apply Rmult_le_pos; lra).
  lra.
Qed.

(** X18: The score never falls when a metric improves: it is non-decreasing in
    the return, the (non-positive) maximum drawdown, the Sharpe and the
    Sortino ratio, and non-increasing in the longest drawdown. *)
Theorem loss_score_monotone (hpr hpr' mdd mdd' : R) (ldd ldd' : nat)
    (sharpe sharpe' sortino sortino' : R) :
  hpr <= hpr' -> mdd <= mdd' -> (ldd' <= ldd)%nat ->
  sharpe <= sharpe' -> sortino <= sortino' ->
  loss_score hpr mdd ldd sharpe sortino
  <= loss_score hpr' mdd' ldd' sharpe' sortino'.
Proof.
  intros Hh Hm Hl Hs Ho. unfold loss_score. apply round6R_mono.
  apply le_INR in Hl.
  assert (Hc : ((sharpe + sortino) / 2) ^ 3
               <= ((sharpe' + sortino') / 2) ^ 3)
    by (apply cube_mono; lra).
  lra.
Qed.

End Score.

Lemma loss_score_monotone_witness :
  (loss_score 1 (-2) 3 0 (-1) <= loss_score 2 (-1) 1 1 0)%R.
Proof.
  apply loss_score_monotone; try lra. lia.
Defined.

(** ** The score of a run that never trades *)

Section IdleScore.

Local Open Scope R_scope.

Lemma round6R_IZR (z : Z) (x : R) :
  x * 1000000 = IZR z -> round6R x = IZR z / 1000000.
Proof. intros H. unfold round6R. now rewrite H, rintR_IZR. Qed.

Lemma zero_returns_real (rs : list Q) :
  Forall (fun v => (v == 0)%Q) rs -> Forall (fun x => x = 0) (map Q2R rs).
Proof.
  intros H. apply Forall_map_Q2R in H.
  eapply Forall_impl; [|exact H]. intros x ->. apply RMicromega.Q2R_0.
Qed.

Lemma sample_std_zero (l : list R) :
  (2 <= length l)%nat -> Forall (fun x => x = 0) l ->
  sample_std l = Some 0.
Proof.
  intros Hlen Hall.
  assert (Hne : l <> [])
    by (destruct l; [cbn in Hlen; lia | discriminate]).
  unfold sample_std. destruct l as [|x [|y l]]; try (cbn in Hlen; lia).
  rewrite (Rmean_const 0 _ Hne Hall). rewrite Rsum_zero.
  - f_equal. unfold Rdiv. rewrite Rmult_0_l. apply sqrt_0.
  - apply Forall_map. eapply Forall_impl; [|exact Hall].
    intros a ->. cbn. lra.
Qed.

Lemma downside_of_zero_returns (rf : R) (l : list R) :
  0 < rf -> l <> [] -> Forall (fun x => x = 0) l ->
  sqrt (Rmean (map (downside_term rf) l)) = rf.
Proof.
  intros Hrf Hne Hall.
  rewrite (Rmean_const (rf * rf)).
  - apply sqrt_square. lra.
  - destruct l; [congruence | discriminate].
  - apply Forall_map. eapply Forall_impl; [|exact Hall].
    intros a ->. unfold downside_term.
    destruct (Rlt_dec rf 0); [lra | ring].
Qed.

(** X19: A run that never trades leaves the asset column flat.  On three rows
    or more and with a positive risk-free rate its Sharpe ratio is 0 and
    its Sortino ratio is -1 (every zero return falls short of the rate);
    with a return of 0, a maximum drawdown of 0 and a longest drawdown of
    0 periods its score is -0.125: the level a parameter set must beat to
    be better than not trading. *)
Theorem never_trading_scores_minus_one_eighth (f : frame) (rf : Q) :
  Forall (fun a => (a == ASSET_VALUE)%Q) (Asset f) ->
  Return_ f = pct_change (Asset f) ->
  (3 <= length (Asset f))%nat ->
  (0 < rf)%Q ->
  exists hpr mdd,
    holding_period_returns f = Return (Some hpr) /\ (hpr == 0)%Q
    /\ maximum_drawdown f = Return mdd /\ (mdd == 0)%Q
    /\ longest_drawdown f = Return 0%nat
    /\ sharpe_ratio f rf = Return (Some 0)
    /\ sortino_ratio f rf = Return (-1)
    /\ loss_score (Q2R hpr) (Q2R mdd) 0 0 (-1) = -1 / 8.
Proof.
  intros HA HR Hlen Hrf.
  destruct (flat_frame_metrics f HA HR ltac:(lia))
    as (Hh & Hm & Hl & Hz & Hn).
  exists (round6 0), (round6 (0 * 100)).
  split; [exact Hh|]. split; [exact round6_zero|].
  split; [exact Hm|]. split; [reflexivity|]. split; [exact Hl|].
  apply zero_returns_real in Hz. apply Qlt_Rlt in Hrf.
  rewrite RMicromega.Q2R_0 in Hrf.
  assert (Hlen2 : (2 <= length (map Q2R (dropna (Return_ f))))%nat)
    by (rewrite length_map; lia).
  split; [|split].
  - unfold sharpe_ratio.
    rewrite (sample_std_zero _ Hlen2 Hz).
    destruct (map Q2R (dropna (Return_ f))); [cbn in Hlen2; lia|].
    destruct (Req_dec_T 0 0) as [_|H]; [reflexivity | now elim H].
  - unfold sortino_ratio.
    destruct (map Q2R (dropna (Return_ f))) as [|x l] eqn:E;
      [cbn in Hlen2; lia|].
    rewrite (downside_of_zero_returns (Q2R rf) (x :: l) Hrf) by
      (trivial; discriminate).
    rewrite (Rmean_const 0 (x :: l)) by (trivial; discriminate).
    destruct (Req_dec_T (Q2R rf) 0) as [H|_]; [lra|].
    f_equal. rewrite (round6R_IZR (-1000000)); [lra|]. field. lra.
  - unfold loss_score.
    assert (E0 : Q2R (round6 0) = 0).
    { rewrite (Qeq_eqR _ _ round6_zero). apply RMicromega.Q2R_0. }
    assert (E1 : Q2R (round6 (0 * 100)) = 0).
    { rewrite (Qeq_eqR (round6 (0 * 100)) 0).
      - apply RMicromega.Q2R_0.
      - rewrite <- round6_zero at 2. apply Qeq_refl. }
    rewrite E0, E1. rewrite (round6R_IZR (-125000)); [lra|].
    cbn [INR]. field.
Qed.

End IdleScore.

Definition untouched_frame : frame :=
  mkFrame [0; 1; 2]%Z [ASSET_VALUE; ASSET_VALUE; ASSET_VALUE]
          (pct_change [ASSET_VALUE; ASSET_VALUE; ASSET_VALUE]).

Lemma never_trading_scores_minus_one_eighth_witness :
  exists hpr mdd,
    holding_period_returns untouched_frame = Return (Some hpr) /\ hpr == 0
    /\ maximum_drawdown untouched_frame = Return mdd /\ mdd == 0
    /\ longest_drawdown untouched_frame = Return 0%nat
    /\ sharpe_ratio untouched_frame default_risk_free_return
       = Return (Some 0%R)
    /\ sortino_ratio untouched_frame default_risk_free_return
       = Return (-1)%R
    /\ loss_score (Q2R hpr) (Q2R mdd) 0 0 (-1) = (-1 / 8)%R.
Proof.
  apply never_trading_scores_minus_one_eighth.
  - repeat constructor; reflexivity.
  - reflexivity.
  - cbn. lia.
  - reflexivity.
Defined.

(** * optuna_optimize.py: the objectives *)

(** An Optuna trial, as far as the objectives use it: the value it
    suggests for a named parameter within bounds. *)
Record trial : Type := mkTrial {
  suggest_int : string -> Z -> Z -> Z;
  suggest_float : string -> Q -> Q -> Q
}.

(** [df['Asset'].iloc[-1]]. *)
Definition last_asset (df : frame) : outcome Q :=
  match Asset df with
  | [] => Raise IndexError
  | a :: rest => Return (last rest a)
  end.

(** The parameters [objective] asks the trial for, in the order it passes
    them to [algo]. *)
Definition static_suggestion (t : trial) : hybrid_params :=
  let mp := suggest_int t "momentum_fast_ema" 1 25 in
  let ms := suggest_int t "momentum_slow_ema" 1 40 in
  let mm := suggest_int t "momentum_signal_ema" 1 20 in
  let rw := suggest_int t "momentum_rsi_window" 1 50 in
  let rt := suggest_int t "momentum_rsi_threshold" 1 30 in
  let aw := suggest_int t "momentum_atr_window" 1 20 in
  let at_ := suggest_float t "momentum_atr_multiplier" 0.5 10.0 in
  let rp := suggest_int t "reversion_fast_ema" 1 25 in
  let rs := suggest_int t "reversion_slow_ema" 1 40 in
  let rm := suggest_int t "reversion_signal_ema" 1 20 in
  let rw2 := suggest_int t "reversion_rsi_window" 1 50 in
  let aw2 := suggest_int t "reversion_atr_window" 1 20 in
  let at2 := suggest_float t "reversion_atr_multiplier" 0.5 10.0 in
  mkParams mp ms mm rw rt aw at_ rp rs rm rw2 aw2 at2.

(** The parameters [dynamic_objective] asks for; [dynamic_algo] takes no
    multiplier, the two fields are not read. *)
Definition dynamic_suggestion (t : trial) : hybrid_params :=
  let m_fe := suggest_int t "momentum_fast_ema" 5 20 in
  let m_se := suggest_int t "momentum_slow_ema" 21 50 in
  let m_sig := suggest_int t "momentum_signal_ema" 5 15 in
  let m_rsi := suggest_int t "momentum_rsi_window" 5 14 in
  let m_thr := suggest_int t "momentum_rsi_threshold" 20 50 in
  let m_atw := suggest_int t "momentum_atr_window" 5 20 in
  let r_fe := suggest_int t "reversion_fast_ema" 5 20 in
  let r_se := suggest_int t "reversion_slow_ema" 20 60 in
  let r_sig := suggest_int t "reversion_signal_ema" 5 20 in
  let r_rsi := suggest_int t "reversion_rsi_window" 5 20 in
  let r_atw := suggest_int t "reversion_atr_window" 5 20 in
  mkParams m_fe m_se m_sig m_rsi m_thr m_atw 2.0
           r_fe r_se r_sig r_rsi r_atw 2.0.

Lemma last_of_nonempty (l : list Q) (b a a' : Q) :
  last (b :: l) a = last (b :: l) a'.
Proof.
  revert b. induction l as [|c l IH]; intros b; [reflexivity|].
  change (last (c :: l) a = last (c :: l) a'). apply IH.
Qed.

Lemma last_is_final_row (l : list Q) (a v : Q) :
  nth_error (a :: l) (length l) = Some v -> last l a = v.
Proof.
  revert a. induction l as [|b l IH]; intros a Hnth.
  - cbn in Hnth. now injection Hnth.
  - cbn [length nth_error] in Hnth.
    rewrite (last_of_nonempty l b a b). destruct l as [|c l].
    + cbn in Hnth. now injection Hnth.
    + exact (IH b Hnth).
Qed.

Lemma last_asset_nth (df : frame) (n : nat) (v : Q) :
  length (Asset df) = S n ->
  nth_error (Asset df) n = Some v ->
  last_asset df = Return v.
Proof.
  unfold last_asset. intros Hlen Hnth.
  destruct (Asset df) as [|a rest]; [discriminate|].
  f_equal. injection Hlen as Hlen. subst n.
  now apply last_is_final_row.
Qed.

Section Objectives.

Variable macd_diff : list Q -> Z -> Z -> Z -> list (option Q).
Variable rsi : list Q -> Z -> list (option Q).
Variable average_true_range :
  list Q -> list Q -> list Q -> Z -> list (option Q).

Definition objective (t : trial) (data : list ohlc) : outcome Q :=
  df <- algo macd_diff rsi average_true_range data (static_suggestion t) ;;
  last_asset df.

Definition dynamic_objective (t : trial) (data : list ohlc) : outcome Q :=
  df <- dynamic_algo macd_diff rsi average_true_range data
          (dynamic_suggestion t) ;;
  last_asset df.

(** What a trial is scored with: the value written at the last bar. *)
Definition marked_to_market (data : list ohlc) (p : hybrid_params)
    (loop : nat -> outcome hybrid_state) (score : outcome Q) : Prop :=
  exists st v,
    loop (length data - 1)%nat = Return st
    /\ score = Return v
    /\ (hybrid_processed macd_diff rsi average_true_range data p
          (length data - 1) = true ->
        v == h_cash st
             + total_unrealized (Close (iloc data (length data - 1)))
                                (hybrid_open st))
    /\ (hybrid_processed macd_diff rsi average_true_range data p
          (length data - 1) = false ->
        v = ASSET_VALUE).

Variable data : list ohlc.
Variable t : trial.

Hypothesis unique_times : NoDup (map Time data).
Hypothesis two_rows : (2 <= length data)%nat.
Hypothesis nonzero_closes :
  forall i, (1 <= i < length data)%nat -> ~ Close (iloc data i) == 0.

Lemma hybrid_marked (p : hybrid_params)
    (body : nat -> hybrid_state -> outcome hybrid_state) :
  (forall i, hybrid_bar (body i) (Time (iloc data i)) (Close (iloc data i))
               (hybrid_processed macd_diff rsi average_true_range data p
                  i)) ->
  returns (loop_prefix body (length data - 1) (initial_hybrid data)) ->
  marked_to_market data p
    (fun k => loop_prefix body k (initial_hybrid data))
    (df <- (st <- loop_prefix body (length data - 1) (initial_hybrid data) ;;
            Return (finish (h_trading_data st))) ;;
     last_asset df).
Proof.
  intros Hshape (st & Hloop). unfold marked_to_market.
  destruct (final_rows h_cash hybrid_open h_trading_data data body
              (hybrid_processed macd_diff rsi average_true_range data p)
              (initial_hybrid data)
              (fun i s Hp => hybrid_skip data body _ Hshape i s Hp)
              (fun i s s' Hp Hb => hybrid_mark data body _ Hshape i s s' Hp Hb)
              eq_refl unique_times st Hloop)
    as (_ & Hlen & Hidle).
  assert (Hlast : length (Asset (finish (h_trading_data st)))
                  = S (length data - 1)) by lia.
  rewrite Hloop. cbn [bind].
  destruct (hybrid_processed macd_diff rsi average_true_range data p
              (length data - 1)) eqn:Hp.
  - assert (Hrec : records_value h_cash hybrid_open h_trading_data data
                     (fun k => loop_prefix body k (initial_hybrid data))
                     (hybrid_processed macd_diff rsi average_true_range
                        data p)).
    { apply row_recorded_value. intros k st_k i Hk Hl Hi.
      now apply hybrid_table. }
    destruct (Hrec (length data - 1)%nat st (length data - 1)%nat st
                ltac:(lia) ltac:(lia) Hp Hloop Hloop) as (v & Hnth & Hv).
    exists st, v. split; [reflexivity|]. split.
    + now apply (last_asset_nth _ (length data - 1)).
    + split; [intros _; exact Hv | discriminate].
  - exists st, ASSET_VALUE. split; [reflexivity|]. split.
    + apply (last_asset_nth _ (length data - 1)); [exact Hlast|].
      apply Hidle; [lia | now right].
    + split; [discriminate | reflexivity].
Qed.

(** X20: A trial is scored with the portfolio value at the last bar: the cash
    plus every position still open, valued at the last close, with no
    exit tax taken for them.  When an indicator is undefined on the last
    row the score is the initial capital, whatever the run did. *)
Theorem objectives_score_last_bar_value :
  marked_to_market data (static_suggestion t)
    (algo_loop macd_diff rsi average_true_range data (static_suggestion t))
    (objective t data)
  /\ marked_to_market data (dynamic_suggestion t)
       (dynamic_algo_loop macd_diff rsi average_true_range data
          (dynamic_suggestion t))
       (dynamic_objective t data).
Proof.
  assert (Hprice : forall i, (1 <= i <= length data - 1)%nat ->
                             ~ Close (iloc data i) == 0)
    by (intros i Hi; apply nonzero_closes; lia).
  split.
  - destruct (runners_return macd_diff rsi average_true_range data
                0 0 0 0 0 0 0 (static_suggestion t) (length data - 1) Hprice)
      as (_ & _ & _ & _ & Hret & _).
    apply (hybrid_marked (static_suggestion t)); [|exact Hret].
    intros i. apply algo_bar_shape.
  - destruct (runners_return macd_diff rsi average_true_range data
                0 0 0 0 0 0 0 (dynamic_suggestion t) (length data - 1) Hprice)
      as (_ & _ & _ & _ & _ & Hret).
    apply (hybrid_marked (dynamic_suggestion t)); [|exact Hret].
    intros i. apply dynamic_algo_bar_shape.
Qed.

End Objectives.

Definition demo_trial : trial :=
  mkTrial
    (fun name _ _ =>
       if (name =? "momentum_fast_ema")%string then 12
       else if (name =? "momentum_slow_ema")%string then 26
       else if (name =? "momentum_signal_ema")%string then 9
       else if (name =? "momentum_rsi_window")%string then 14
       else if (name =? "momentum_rsi_threshold")%string then 30
       else if (name =? "momentum_atr_window")%string then 14
       else if (name =? "reversion_fast_ema")%string then 10
       else if (name =? "reversion_slow_ema")%string then 30
       else if (name =? "reversion_signal_ema")%string then 9
       else 10)%Z
    (fun _ _ _ => 2).

Lemma objectives_score_last_bar_value_witness :
  marked_to_market demo_macd_diff demo_rsi demo_atr demo_data
    (static_suggestion demo_trial)
    (algo_loop demo_macd_diff demo_rsi demo_atr demo_data
       (static_suggestion demo_trial))
    (objective demo_macd_diff demo_rsi demo_atr demo_trial demo_data).
Proof.
  assert (Hnz : forall i, (1 <= i < length demo_data)%nat ->
                          ~ Close (iloc demo_data i) == 0).
  { intros i Hi. cbn in Hi.
    destruct i as [|[|[|[|[|i]]]]]; try lia; cbn; discriminate. }
  assert (Htwo : (2 <= length demo_data)%nat) by (cbn; lia).
  destruct (objectives_score_last_bar_value demo_macd_diff demo_rsi demo_atr
              demo_data demo_trial demo_times_distinct Htwo Hnz) as (H & _).
  exact H.
Defined.

(** * data_loader.py: cleaning and splitting the quotes *)

(** A row of the raw table once ['Time'] is parsed: the four price columns,
    where a cell may be missing, and the cells of whatever other columns
    the table has (the volume).  The names [Time], [Open], ... are taken by
    the rows the runners read. *)
Record raw : Type := mkRaw {
  raw_time : Z;
  raw_open : option Q;
  raw_high : option Q;
  raw_low : option Q;
  raw_close : option Q;
  raw_other : list (option Q)
}.

(** Two cells hold the same value; missing cells count as equal, as
    [drop_duplicates] has it. *)
Definition cell_eqb (a b : option Q) : bool :=
  match a, b with
  | Some x, Some y => Qeq_bool x y
  | None, None => true
  | _, _ => false
  end.

Fixpoint cells_eqb (a b : list (option Q)) : bool :=
  match a, b with
  | [], [] => true
  | x :: a', y :: b' => cell_eqb x y && cells_eqb a' b'
  | _, _ => false
  end.

(** Equality as [drop_duplicates()] sees it once ['Time'] is the index:
    on the columns only. *)
Definition same_values (r s : raw) : bool :=
  cell_eqb (raw_open r) (raw_open s)
  && cell_eqb (raw_high r) (raw_high s)
  && cell_eqb (raw_low r) (raw_low s)
  && cell_eqb (raw_close r) (raw_close s)
  && cells_eqb (raw_other r) (raw_other s).

(** [drop_duplicates()]: a row is kept when no row before it has the same
    values. *)
Fixpoint drop_duplicates_from (seen : list raw) (l : list raw) : list raw :=
  match l with
  | [] => []
  | r :: rest =>
      if existsb (same_values r) seen
      then drop_duplicates_from seen rest
      else r :: drop_duplicates_from (r :: seen) rest
  end.

Definition drop_duplicates (l : list raw) : list raw :=
  drop_duplicates_from [] l.

Definition complete (r : raw) : bool :=
  defined (raw_open r) && defined (raw_high r)
  && defined (raw_low r) && defined (raw_close r).

(** [dropna(subset=['Open', 'High', 'Low', 'Close'])]. *)
Definition dropna_subset (l : list raw) : list raw := filter complete l.

Definition time_le (r s : raw) : Prop := (raw_time r <= raw_time s)%Z.

Section ProcessSplit.

(** [sort_values('Time')]: pandas sorts with a quicksort here, which fixes
    the order of rows with equal timestamps in no documented way; all that
    is used of it is that it sorts. *)
Variable sort_values : list raw -> list raw.

Definition process_split_data (data : list raw) (split_timestamp : Z)
    : list raw * list raw :=
  let data1 := sort_values data in
  let data2 := drop_duplicates data1 in
  let data3 := dropna_subset data2 in
  (filter (fun r => (raw_time r <? split_timestamp)%Z) data3,
   filter (fun r => (split_timestamp <=? raw_time r)%Z) data3).

End ProcessSplit.

Lemma cell_eqb_refl (a : option Q) : cell_eqb a a = true.
Proof. destruct a; [apply Qeq_bool_refl | reflexivity]. Qed.

Lemma cell_eqb_sym (a b : option Q) : cell_eqb a b = cell_eqb b a.
Proof.
  destruct a, b; try reflexivity. cbn. apply Qeq_bool_comm.
Qed.

Lemma cell_eqb_trans (a b c : option Q) :
  cell_eqb a b = true -> cell_eqb b c = true -> cell_eqb a c = true.
Proof.
  destruct a, b, c; cbn; try discriminate; trivial.
  apply Qeq_bool_trans.
Qed.

Lemma cells_eqb_refl (a : list (option Q)) : cells_eqb a a = true.
Proof.
  induction a as [|x a IH]; [reflexivity|].
  cbn. now rewrite cell_eqb_refl.
Qed.

Lemma cells_eqb_sym (a b : list (option Q)) : cells_eqb a b = cells_eqb b a.
Proof.
  revert b. induction a as [|x a IH]; intros [|y b]; try reflexivity.
  cbn. now rewrite cell_eqb_sym, IH.
Qed.

Lemma cells_eqb_trans (a b c : list (option Q)) :
  cells_eqb a b = true -> cells_eqb b c = true -> cells_eqb a c = true.
Proof.
  revert b c. induction a as [|x a IH]; intros [|y b] [|z c]; cbn;
    try discriminate; trivial.
  rewrite !andb_true_iff. intros (H1 & H2) (H3 & H4). split.
  - eapply cell_eqb_trans; eassumption.
  - eapply IH; eassumption.
Qed.

Lemma same_values_refl (r : raw) : same_values r r = true.
Proof.
  unfold same_values. now rewrite !cell_eqb_refl, cells_eqb_refl.
Qed.

Lemma same_values_sym (r s : raw) : same_values r s = same_values s r.
Proof.
  unfold same_values.
  now rewrite (cell_eqb_sym (raw_open r)), (cell_eqb_sym (raw_high r)),
    (cell_eqb_sym (raw_low r)), (cell_eqb_sym (raw_close r)),
    (cells_eqb_sym (raw_other r)).
Qed.

Lemma same_values_trans (r s u : raw) :
  same_values r s = true -> same_values s u = true ->
  same_values r u = true.
Proof.
  unfold same_values. rewrite !andb_true_iff.
  intros ((((A1 & A2) & A3) & A4) & A5) ((((B1 & B2) & B3) & B4) & B5).
  repeat split;
    first [eapply cell_eqb_trans; eassumption
          | eapply cells_eqb_trans; eassumption].
Qed.

Lemma cell_eqb_defined (a b : option Q) :
  cell_eqb a b = true -> defined a = defined b.
Proof. destruct a, b; cbn; trivial; discriminate. Qed.

Lemma same_values_complete (r s : raw) :
  same_values r s = true -> complete r = complete s.
Proof.
  unfold same_values, complete. rewrite !andb_true_iff.
  intros ((((A1 & A2) & A3) & A4) & _).
  now rewrite (cell_eqb_defined _ _ A1), (cell_eqb_defined _ _ A2),
    (cell_eqb_defined _ _ A3), (cell_eqb_defined _ _ A4).
Qed.

Lemma drop_duplicates_from_incl (seen l : list raw) :
  incl (drop_duplicates_from seen l) l.
Proof.
  revert seen. induction l as [|r rest IH]; intros seen; [easy|].
  cbn [drop_duplicates_from]. destruct (existsb (same_values r) seen).
  - apply incl_tl, IH.
  - apply incl_cons; [now left|]. apply incl_tl, IH.
Qed.

Lemma drop_duplicates_from_sorted (seen l : list raw) :
  StronglySorted time_le l ->
  StronglySorted time_le (drop_duplicates_from seen l).
Proof.
  intros Hs. revert seen.
  induction Hs as [|r rest Hrest IH Hr]; intros seen; [constructor|].
  cbn [drop_duplicates_from]. destruct (existsb (same_values r) seen).
  - apply IH.
  - constructor; [apply IH|]. apply Forall_forall. intros s Hin.
    apply drop_duplicates_from_incl in Hin.
    rewrite Forall_forall in Hr. now apply Hr.
Qed.

(** Every row is represented among the kept ones by a row with the same
    values that is not later. *)
Lemma drop_duplicates_from_keeps (seen l : list raw) (r : raw) :
  StronglySorted time_le l ->
  In r l ->
  (forall s, In s seen -> same_values r s = false) ->
  exists r', In r' (drop_duplicates_from seen l)
             /\ same_values r r' = true
             /\ (raw_time r' <= raw_time r)%Z.
Proof.
  intros Hs. revert seen.
  induction Hs as [|x rest Hrest IH Hx]; intros seen Hin Hseen; [easy|].
  cbn [drop_duplicates_from].
  destruct (existsb (same_values x) seen) eqn:E.
  - apply existsb_exists in E as (s & Hs_in & Hxs).
    destruct Hin as [-> | Hin].
    + rewrite (Hseen s Hs_in) in Hxs. discriminate.
    + apply IH; trivial.
  - destruct Hin as [-> | Hin].
    + exists r. split; [now left|]. split; [apply same_values_refl | lia].
    + destruct (same_values r x) eqn:Erx.
      * exists x. split; [now left|]. split; [exact Erx|].
        rewrite Forall_forall in Hx. apply (Hx r Hin).
      * destruct (IH (x :: seen) Hin) as (r' & Hr' & Hv & Ht).
        { intros s [<- | Hs_in]; [exact Erx | now apply Hseen]. }
        exists r'. split; [now right|]. now split.
Qed.

(** No two kept rows have the same values. *)
Lemma drop_duplicates_from_distinct (seen l : list raw) :
  Forall (fun r => forall s, In s seen -> same_values r s = false)
         (drop_duplicates_from seen l)
  /\ ForallOrdPairs (fun a b => same_values b a = false)
                    (drop_duplicates_from seen l).
Proof.
  revert seen. induction l as [|x rest IH]; intros seen.
  - split; constructor.
  - cbn [drop_duplicates_from].
    destruct (existsb (same_values x) seen) eqn:E; [apply IH|].
    destruct (IH (x :: seen)) as (Hnew & Hpairs). split.
    + constructor.
      * intros s Hs_in.
        destruct (same_values x s) eqn:Exs; [|reflexivity].
        rewrite <- E. symmetry. apply existsb_exists. now exists s.
      * eapply Forall_impl; [|exact Hnew].
        intros r Hr s Hs_in. apply Hr. now right.
    + constructor; [|exact Hpairs].
      eapply Forall_impl; [|exact Hnew].
      intros r Hr. apply Hr. now left.
Qed.

Lemma filter_sorted (f : raw -> bool) (l : list raw) :
  StronglySorted time_le l -> StronglySorted time_le (filter f l).
Proof.
  induction 1 as [|r rest Hrest IH Hr]; [constructor|].
  cbn [filter]. destruct (f r); [|exact IH].
  constructor; [exact IH|]. apply Forall_forall. intros s Hin.
  apply filter_In in Hin as (Hin & _).
  rewrite Forall_forall in Hr. now apply Hr.
Qed.

Lemma filter_pairs (P : raw -> raw -> Prop) (f : raw -> bool)
    (l : list raw) :
  ForallOrdPairs P l -> ForallOrdPairs P (filter f l).
Proof.
  induction 1 as [|r rest Hr Hrest IH]; [constructor|].
  cbn [filter]. destruct (f r); [|exact IH].
  constructor; [|exact IH]. apply Forall_forall. intros s Hin.
  apply filter_In in Hin as (Hin & _).
  rewrite Forall_forall in Hr. now apply Hr.
Qed.

Lemma filter_none (f : raw -> bool) (l : list raw) :
  (forall s, In s l -> f s = false) -> filter f l = [].
Proof.
  induction l as [|r rest IH]; intros H; [reflexivity|].
  cbn [filter]. rewrite (H r) by now left.
  apply IH. intros s Hin. apply H. now right.
Qed.

Lemma filter_all (f : raw -> bool) (l : list raw) :
  (forall s, In s l -> f s = true) -> filter f l = l.
Proof.
  induction l as [|r rest IH]; intros H; [reflexivity|].
  cbn [filter]. rewrite (H r) by now left.
  f_equal. apply IH. intros s Hin. apply H. now right.
Qed.

(** A table sorted by time is cut in two by the split date. *)
Lemma split_sorted (split_timestamp : Z) (l : list raw) :
  StronglySorted time_le l ->
  filter (fun r => (raw_time r <? split_timestamp)%Z) l
  ++ filter (fun r => (split_timestamp <=? raw_time r)%Z) l = l.
Proof.
  induction 1 as [|r rest Hrest IH Hr]; [reflexivity|].
  cbn [filter]. destruct (raw_time r <? split_timestamp)%Z eqn:E.
  - apply Z.ltb_lt in E.
    assert (E' : (split_timestamp <=? raw_time r)%Z = false)
      by (apply Z.leb_gt; lia).
    rewrite E'. cbn [app]. now rewrite IH.
  - apply Z.ltb_ge in E.
    assert (E' : (split_timestamp <=? raw_time r)%Z = true)
      by (apply Z.leb_le; lia).
    rewrite E'.
    assert (Hnone : filter (fun s => (raw_time s <? split_timestamp)%Z) rest
                    = []).
    { apply filter_none. intros s Hin.
      rewrite Forall_forall in Hr. specialize (Hr s Hin).
      unfold time_le in Hr. apply Z.ltb_ge. lia. }
    assert (Hall : filter (fun s => (split_timestamp <=? raw_time s)%Z) rest
                   = rest).
    { apply filter_all. intros s Hin.
      rewrite Forall_forall in Hr. specialize (Hr s Hin).
      unfold time_le in Hr. apply Z.leb_le. lia. }
    now rewrite Hnone, Hall.
Qed.

Section SplitFacts.

Variable sort_values : list raw -> list raw.

Hypothesis sort_permutes : forall l, Permutation (sort_values l) l.
Hypothesis sort_sorts : forall l, StronglySorted time_le (sort_values l).

Variable data : list raw.
Variable split_timestamp : Z.

Let in_sample := fst (process_split_data sort_values data split_timestamp).
Let out_sample := snd (process_split_data sort_values data split_timestamp).

Lemma split_is_cleaned_table :
  in_sample ++ out_sample
  = dropna_subset (drop_duplicates (sort_values data)).
Proof.
  unfold in_sample, out_sample, process_split_data. cbn [fst snd].
  apply split_sorted. apply filter_sorted, drop_duplicates_from_sorted.
  apply sort_sorts.
Qed.

(** X21: The two tables [process_split_data] returns hold rows of the input
    only, each with its four prices, in time order; every in-sample row is
    before the split date and every out-of-sample row on or after it. *)
Theorem process_split_data_cuts_clean_table :
  Forall (fun r => (raw_time r < split_timestamp)%Z) in_sample
  /\ Forall (fun r => (split_timestamp <= raw_time r)%Z) out_sample
  /\ Forall (fun r => complete r = true /\ In r data)
            (in_sample ++ out_sample)
  /\ StronglySorted time_le (in_sample ++ out_sample).
Proof.
  split; [|split; [|split]].
  - apply Forall_forall. intros r Hin.
    apply filter_In in Hin as (_ & Hin). now apply Z.ltb_lt.
  - apply Forall_forall. intros r Hin.
    apply filter_In in Hin as (_ & Hin). now apply Z.leb_le.
  - rewrite split_is_cleaned_table. apply Forall_forall. intros r Hin.
    apply filter_In in Hin as (Hin & Hc). split; [exact Hc|].
    apply drop_duplicates_from_incl in Hin.
    eapply Permutation_in; [apply sort_permutes | exact Hin].
  - rewrite split_is_cleaned_table.
    apply filter_sorted, drop_duplicates_from_sorted, sort_sorts.
Qed.

(** X22: Duplicates are judged on the values alone, the timestamp being the
    index by then: no two returned rows have the same values; a row with
    its four prices is represented by a returned row with the same values
    and no later timestamp; and a row whose values no other row has is
    returned itself, even when it shares its timestamp with another. *)
Theorem duplicates_are_judged_by_values :
  ForallOrdPairs (fun a b => same_values b a = false)
                 (in_sample ++ out_sample)
  /\ (forall r,
        In r data -> complete r = true ->
        exists r', In r' (in_sample ++ out_sample)
                   /\ same_values r r' = true
                   /\ (raw_time r' <= raw_time r)%Z)
  /\ (forall r,
        In r data -> complete r = true ->
        (forall s, In s data -> same_values r s = true -> s = r) ->
        In r (in_sample ++ out_sample)).
Proof.
  assert (Hrep : forall r,
             In r data -> complete r = true ->
             exists r', In r' (in_sample ++ out_sample)
                        /\ same_values r r' = true
                        /\ (raw_time r' <= raw_time r)%Z).
  { intros r Hin Hc. rewrite split_is_cleaned_table.
    destruct (drop_duplicates_from_keeps [] (sort_values data) r
                (sort_sorts data))
      as (r' & Hr' & Hv & Ht).
    - eapply Permutation_in; [symmetry; apply sort_permutes | exact Hin].
    - intros s [].
    - exists r'. split; [|now split].
      apply filter_In. split; [exact Hr'|].
      now rewrite <- (same_values_complete r r' Hv). }
  split; [|split].
  - rewrite split_is_cleaned_table.
    apply filter_pairs, drop_duplicates_from_distinct.
  - exact Hrep.
  - intros r Hin Hc Honly.
    destruct (Hrep r Hin Hc) as (r' & Hr' & Hv & _).
    assert (Hd : In r' data).
    { rewrite split_is_cleaned_table in Hr'.
      apply filter_In in Hr' as (Hr' & _).
      apply drop_duplicates_from_incl in Hr'.
      eapply Permutation_in; [apply sort_permutes | exact Hr']. }
    now rewrite <- (Honly r' Hd Hv).
Qed.

End SplitFacts.

(** One sort that meets the two assumptions: insertion by timestamp. *)
Fixpoint insert_by_time (r : raw) (l : list raw) : list raw :=
  match l with
  | [] => [r]
  | s :: rest =>
      if (raw_time r <=? raw_time s)%Z then r :: l
      else s :: insert_by_time r rest
  end.

Definition insertion_sort (l : list raw) : list raw :=
  fold_right insert_by_time [] l.

Lemma insert_by_time_permutes (r : raw) (l : list raw) :
  Permutation (insert_by_time r l) (r :: l).
Proof.
  induction l as [|s rest IH]; [reflexivity|].
  cbn [insert_by_time]. destruct (raw_time r <=? raw_time s)%Z;
    [reflexivity|].
  rewrite IH. apply perm_swap.
Qed.

Lemma insertion_sort_permutes (l : list raw) :
  Permutation (insertion_sort l) l.
Proof.
  induction l as [|r rest IH]; [reflexivity|].
  cbn [insertion_sort fold_right]. fold (insertion_sort rest).
  rewrite insert_by_time_permutes. now constructor.
Qed.

Lemma insert_by_time_sorts (r : raw) (l : list raw) :
  StronglySorted time_le l -> StronglySorted time_le (insert_by_time r l).
Proof.
  induction 1 as [|s rest Hrest IH Hs].
  - repeat constructor.
  - cbn [insert_by_time]. destruct (raw_time r <=? raw_time s)%Z eqn:E.
    + apply Z.leb_le in E. constructor; [now constructor|].
      constructor; [exact E|].
      eapply Forall_impl; [|exact Hs].
      intros u Hu. unfold time_le in *. lia.
    + apply Z.leb_gt in E. constructor; [exact IH|].
      apply Forall_forall. intros u Hu.
      apply (Permutation_in _ (insert_by_time_permutes r rest)) in Hu.
      destruct Hu as [<- | Hu].
      * unfold time_le. lia.
      * rewrite Forall_forall in Hs. now apply Hs.
Qed.

Lemma insertion_sort_sorts (l : list raw) :
  StronglySorted time_le (insertion_sort l).
Proof.
  induction l as [|r rest IH]; [constructor|].
  cbn [insertion_sort fold_right]. now apply insert_by_time_sorts.
Qed.

(** Day 2 repeats the values of day 1, two rows share timestamp 3, and the
    last row lacks its open. *)
Definition sample_quotes : list raw :=
  [ mkRaw 3 (Some 12) (Some 13) (Some 11) (Some 12) [Some 500];
    mkRaw 1 (Some 10) (Some 11) (Some 9) (Some 10) [Some 100];
    mkRaw 2 (Some 10) (Some 11) (Some 9) (Some 10) [Some 100];
    mkRaw 3 (Some 12) (Some 14) (Some 11) (Some 13) [Some 700];
    mkRaw 4 None (Some 13) (Some 12) (Some 13) [Some 50] ].

Lemma process_split_data_cuts_clean_table_witness :
  Forall (fun r => (raw_time r < 3)%Z)
         (fst (process_split_data insertion_sort sample_quotes 3))
  /\ Forall (fun r => (3 <= raw_time r)%Z)
            (snd (process_split_data insertion_sort sample_quotes 3))
  /\ Forall (fun r => complete r = true /\ In r sample_quotes)
            (fst (process_split_data insertion_sort sample_quotes 3)
             ++ snd (process_split_data insertion_sort sample_quotes 3))
  /\ StronglySorted time_le
       (fst (process_split_data insertion_sort sample_quotes 3)
        ++ snd (process_split_data insertion_sort sample_quotes 3)).
Proof.
  exact (process_split_data_cuts_clean_table insertion_sort
           insertion_sort_permutes insertion_sort_sorts sample_quotes 3).
Defined.

Lemma duplicates_are_judged_by_values_witness :
  In (mkRaw 3 (Some 12) (Some 14) (Some 11) (Some 13) [Some 700])
     (fst (process_split_data insertion_sort sample_quotes 3)
      ++ snd (process_split_data insertion_sort sample_quotes 3)).
Proof.
  destruct (duplicates_are_judged_by_values insertion_sort
              insertion_sort_permutes insertion_sort_sorts sample_quotes 3)
    as (_ & _ & H).
  apply H.
  - cbn. tauto.
  - reflexivity.
  - intros s Hs Hv. cbn in Hs.
    destruct Hs as [<- | [<- | [<- | [<- | [<- | []]]]]];
      first [reflexivity | vm_compute in Hv; discriminate].
Defined.
